(** * RSCP core: check digits, identifiers and protocol enforcement

    A shallow embedding of the TypeScript sources

      - [packages/core/src/check-digits/index.ts]
      - [packages/core/src/identifiers/index.ts]
      - [packages/core/src/protocol/index.ts]
      - [packages/core/src/types/index.ts]
      - [packages/core/src/crypto/index.ts]: random integers and strings,
        signing keys, hexadecimal byte strings, constant-time comparison
      - the verification utilities of the web bundle, which carry their
        own copies of the validators

    followed by the properties of the MOD 11,10 check, the Damm check, the
    certificate-number codec, credential IDs and DIDs, the privacy gate,
    the random source and the web bundle's validators.

    Modelling conventions.

    - A JavaScript string is a [string]: a sequence of code units, each an
      [ascii].  The alphabets, field names and identifier formats of the
      sources all live in Basic Latin.  A [string] holds the code units
      below 256; on these [toLowerCase] is JavaScript's, and [toUpperCase]
      is JavaScript's on every string without ß, µ and ÿ, whose capitals
      are no single code unit below 256: in particular on every string of
      Basic Latin ([isAscii]).  A property that depends on the case
      mapping of other characters is stated for strings of Basic Latin.
    - A JavaScript number is a [JsNumber]: [NaN] or an integer.
    - A function that may [throw] returns a [Result]; a function that may
      return [null] or [undefined] returns an [option].
    - A plain object is an association list from keys to [JsValue]s, in
      property order, the order of [Object.keys].
    - A regular expression is the matcher it denotes, written out over the
      characters of the subject.
    - [new Date(s)] belongs to the host: enforcement takes the host's
      function from date strings to time values as a parameter, and its
      properties hold for every host.  So do [JSON.parse] and the clock of
      the web bundle.
    - [crypto.getRandomValues] belongs to the host: a function that draws
      random bytes takes the bytes to come as a list and returns the rest
      of it. *)

From Stdlib Require Import ZArith List String Ascii Bool Lia.
Import ListNotations.

Local Open Scope string_scope.
Local Open Scope Z_scope.

#[local] Set Warnings "-register-all".

(** ** Results of functions that may throw *)

Inductive Result (E A : Type) : Type :=
| Ok (value : A)
| Throw (error : E).

Arguments Ok {E A} value.
Arguments Throw {E A} error.

(** The built-in [Error] class: only the message matters here. *)
Inductive JsError : Type :=
| Error (message : string).

(** ** The fragment of the JavaScript runtime the sources rely on *)

Module Js.

Inductive JsNumber : Type :=
| NaN
| Num (z : Z).

Definition code (c : ascii) : Z := Z.of_nat (nat_of_ascii c).

Definition isDigitChar (c : ascii) : bool := (48 <=? code c) && (code c <=? 57).
Definition isUpperChar (c : ascii) : bool := (65 <=? code c) && (code c <=? 90).
Definition isLowerChar (c : ascii) : bool := (97 <=? code c) && (code c <=? 122).

(** The letters of Latin-1 above Basic Latin that have a capital, or a
    small letter, one code unit long and 32 away: à-þ without the division
    sign, À-Þ without the multiplication sign. *)
Definition isLatin1LowerChar (c : ascii) : bool :=
  (224 <=? code c) && (code c <=? 254) && negb (code c =? 247).
Definition isLatin1UpperChar (c : ascii) : bool :=
  (192 <=? code c) && (code c <=? 222) && negb (code c =? 215).

(** Case mapping of one code unit.  [toLowerCase] maps every code unit
    below 256 to one code unit below 256, and [toLowerCaseChar] is that
    map.  [toUpperCase] does so for all of them but three: ß becomes the
    two letters SS, µ and ÿ become capitals above 255, which a [string]
    cannot hold; [toUpperCaseChar] carries these three unchanged.  On the
    code units below 128 both are the maps of JavaScript, and a statement
    that would be touched by the difference says [isAscii] of its input. *)
Definition toUpperCaseChar (c : ascii) : ascii :=
  if isLowerChar c || isLatin1LowerChar c
  then ascii_of_nat (nat_of_ascii c - 32) else c.

Definition toLowerCaseChar (c : ascii) : ascii :=
  if isUpperChar c || isLatin1UpperChar c
  then ascii_of_nat (nat_of_ascii c + 32) else c.

Fixpoint mapString (f : ascii -> ascii) (s : string) : string :=
  match s with
  | EmptyString => EmptyString
  | String c rest => String (f c) (mapString f rest)
  end.

(** [String.prototype.toUpperCase] and [toLowerCase]. *)
Definition toUpperCase (s : string) : string := mapString toUpperCaseChar s.
Definition toLowerCase (s : string) : string := mapString toLowerCaseChar s.

(** [alphabet.indexOf(char)] for a one-character needle: the position of
    the first occurrence, or [-1]. *)
Fixpoint indexOfFrom (alphabet : string) (c : ascii) (pos : Z) : Z :=
  match alphabet with
  | EmptyString => -1
  | String a rest => if Ascii.eqb a c then pos else indexOfFrom rest c (pos + 1)
  end.

Definition indexOf (alphabet : string) (c : ascii) : Z := indexOfFrom alphabet c 0.

(** [alphabet[d]]: [None] stands for [undefined]. *)
Definition charAt (alphabet : string) (d : Z) : option ascii :=
  if d <? 0 then None else String.get (Z.to_nat d) alphabet.

(** [a ?? b] on an optional character. *)
Definition nullish (a : option ascii) (b : ascii) : ascii :=
  match a with Some c => c | None => b end.

Definition char1 (c : ascii) : string := String c EmptyString.

(** [s.length] *)
Definition len (s : string) : Z := Z.of_nat (String.length s).

(** [s.slice(from)] and [s.slice(from, to)] for in-range indices. *)
Definition sliceFrom (s : string) (from : nat) : string :=
  String.substring from (String.length s - from) s.
Definition slice (s : string) (from to : nat) : string :=
  String.substring from (to - from) s.

(** Decimal rendering of a non-negative integer, least significant digit
    first; [fuel] bounds the number of digits. *)
Definition digitChar (d : Z) : ascii := ascii_of_nat (48 + Z.to_nat d).

Fixpoint digitsRev (fuel : nat) (n : Z) : list ascii :=
  match fuel with
  | O => []
  | S fuel' =>
      if n <? 10 then [digitChar n]
      else digitChar (n mod 10) :: digitsRev fuel' (n / 10)
  end.

Definition naturalToString (n : Z) : string :=
  string_of_list_ascii (rev (digitsRev (S (Z.to_nat (Z.log2 n))) n)).

(** [Number.prototype.toString()] / template-literal interpolation. *)
Definition numberToString (x : JsNumber) : string :=
  match x with
  | NaN => "NaN"
  | Num z => if z <? 0 then "-" ++ naturalToString (- z) else naturalToString z
  end.

(** [Number.isInteger] *)
Definition Number_isInteger (x : JsNumber) : bool :=
  match x with NaN => false | Num _ => true end.

(** [x < y] and [x > y] on numbers: any comparison with [NaN] is false. *)
Definition ltNum (x y : JsNumber) : bool :=
  match x, y with Num a, Num b => a <? b | _, _ => false end.
Definition gtNum (x y : JsNumber) : bool := ltNum y x.
Definition leNum (x y : JsNumber) : bool :=
  match x, y with Num a, Num b => a <=? b | _, _ => false end.

(** [s.padStart(width, '0')] *)
Fixpoint zeros (k : nat) : string :=
  match k with
  | O => EmptyString
  | S k' => String "0"%char (zeros k')
  end.

Definition padStart0 (width : nat) (s : string) : string :=
  zeros (width - String.length s) ++ s.

(** [parseInt(s, 10)] on a string without leading white space or sign, the
    only shape the callers pass (groups matched by [\d{4}] and [\d{6}]):
    the value of the longest prefix of decimal digits, [NaN] when that
    prefix is empty. *)
Fixpoint parseDigits (s : string) (acc : Z) : Z :=
  match s with
  | EmptyString => acc
  | String c rest =>
      if isDigitChar c then parseDigits rest (acc * 10 + (code c - 48)) else acc
  end.

Definition parseInt10 (s : string) : JsNumber :=
  match s with
  | EmptyString => NaN
  | String c _ => if isDigitChar c then Num (parseDigits s 0) else NaN
  end.

(** White space as matched by [\s] and removed by [trim], among the code
    units below 256: TAB, LF, VT, FF, CR, SPACE and NBSP. *)
Definition isWhiteSpace (c : ascii) : bool :=
  let n := code c in
  ((9 <=? n) && (n <=? 13)) || (n =? 32) || (n =? 160).

Fixpoint filterString (keep : ascii -> bool) (s : string) : string :=
  match s with
  | EmptyString => EmptyString
  | String c rest =>
      if keep c then String c (filterString keep rest) else filterString keep rest
  end.

Fixpoint existsString (p : ascii -> bool) (s : string) : bool :=
  match s with
  | EmptyString => false
  | String c rest => p c || existsString p rest
  end.

Fixpoint forallString (p : ascii -> bool) (s : string) : bool :=
  match s with
  | EmptyString => true
  | String c rest => p c && forallString p rest
  end.

(** The strings of Basic Latin: every code unit is below 128.  On these
    the case mappings above are those of JavaScript, code unit by code
    unit. *)
Definition isAsciiChar (c : ascii) : bool := code c <? 128.
Definition isAscii (s : string) : bool := forallString isAsciiChar s.

(** [array.join(sep)] *)
Fixpoint join (sep : string) (items : list string) : string :=
  match items with
  | [] => EmptyString
  | [x] => x
  | x :: rest => x ++ sep ++ join sep rest
  end.

End Js.

Import Js.

(** ** check-digits/index.ts *)

Module CheckDigits.

Definition ISO7064_ALPHABET : string := "0123456789ABCDEFGHIJKLMNOPQRSTUVWXYZ".

(** One turn of the loop body of [calculateISO7064Check]:
    [remainder = ((remainder + value) % 10 || 10) * 2 % 11]. *)
Definition iso7064Step (remainder value : Z) : Z :=
  let t := Z.rem (remainder + value) 10 in
  Z.rem ((if t =? 0 then 10 else t) * 2) 11.

(** The [for (const char of upperInput)] loop; it throws at the first
    character that is not in the alphabet. *)
Fixpoint iso7064Loop (chars : string) (remainder : Z) : Result JsError Z :=
  match chars with
  | EmptyString => Ok remainder
  | String char rest =>
      let index := indexOf ISO7064_ALPHABET char in
      if index =? -1 then
        Throw (Error ("Invalid character '" ++ char1 char
                        ++ "' in input. Only alphanumeric allowed."))
      else
        let value := index in
        iso7064Loop rest (iso7064Step remainder value)
  end.

(** [checkValue === 10 ? 'X' : checkValue.toString()] *)
Definition renderCheckValue (checkValue : Z) : string :=
  if checkValue =? 10 then "X" else numberToString (Num checkValue).

Definition calculateISO7064Check (input : string) : Result JsError string :=
  let upperInput := toUpperCase input in
  match iso7064Loop upperInput 10 with
  | Throw e => Throw e
  | Ok remainder =>
      let checkValue := Z.rem (11 - remainder) 10 in
      Ok (renderCheckValue checkValue)
  end.

Definition verifyISO7064 (input checkDigit : string) : bool :=
  match calculateISO7064Check input with
  | Ok calculated => String.eqb calculated (toUpperCase checkDigit)
  | Throw _ => false
  end.

Definition validateISO7064Full (fullString : string) : bool :=
  if len fullString <? 2 then false
  else
    let input := slice fullString 0 (String.length fullString - 1) in
    let checkDigit := sliceFrom fullString (String.length fullString - 1) in
    verifyISO7064 input checkDigit.

Definition DAMM_TABLE : list (list Z) :=
  [ [0; 3; 1; 7; 5; 9; 8; 6; 4; 2];
    [7; 0; 9; 2; 1; 5; 4; 8; 6; 3];
    [4; 2; 0; 6; 8; 7; 1; 3; 5; 9];
    [1; 7; 5; 0; 9; 8; 3; 4; 2; 6];
    [6; 1; 2; 3; 0; 4; 5; 9; 7; 8];
    [3; 6; 7; 4; 2; 0; 9; 5; 8; 1];
    [5; 8; 6; 9; 7; 2; 0; 1; 3; 4];
    [8; 9; 4; 5; 3; 6; 2; 0; 1; 7];
    [9; 4; 3; 8; 6; 1; 7; 2; 0; 5];
    [2; 5; 8; 1; 4; 3; 6; 7; 9; 0] ].

Definition VERIFICATION_CODE_ALPHABET : string := "ABCDEFGHJKMNPQRSTUVWXYZ23456789".

(** [table[i]]: [None] stands for [undefined]. *)
Definition at_ {A : Type} (l : list A) (i : Z) : option A :=
  if i <? 0 then None else nth_error l (Z.to_nat i).

Definition charToDigit (char : ascii) : Result JsError Z :=
  let upperChar := toUpperCaseChar char in
  let index := indexOf VERIFICATION_CODE_ALPHABET upperChar in
  if index =? -1 then
    Throw (Error ("Invalid character '" ++ char1 char ++ "' for verification code."))
  else Ok (Z.rem index 10).

(** The loop of [calculateDammCheck]. *)
Fixpoint dammLoop (chars : string) (interim : Z) : Result JsError Z :=
  match chars with
  | EmptyString => Ok interim
  | String char rest =>
      match charToDigit char with
      | Throw e => Throw e
      | Ok digit =>
          match at_ DAMM_TABLE interim with
          | None => Throw (Error "Invalid interim value in Damm calculation")
          | Some row =>
              match at_ row digit with
              | None => Throw (Error "Invalid digit in Damm calculation")
              | Some nextValue => dammLoop rest nextValue
              end
          end
      end
  end.

(** [for (let d = 0; d < 10; d++)]: the first [d] at or after [10 - count]
    whose table entry in row [interim] is [0]. *)
Fixpoint findCheck (count : nat) (d : Z) (interim : Z) : option Z :=
  match count with
  | O => None
  | S count' =>
      match at_ DAMM_TABLE interim with
      | Some row =>
          match at_ row d with
          | Some 0 => Some d
          | _ => findCheck count' (d + 1) interim
          end
      | None => findCheck count' (d + 1) interim
      end
  end.

Definition calculateDammCheck (input : string) : Result JsError string :=
  let upperInput := toUpperCase input in
  match dammLoop upperInput 0 with
  | Throw e => Throw e
  | Ok interim =>
      match findCheck 10 0 interim with
      | Some d => Ok (char1 (nullish (charAt VERIFICATION_CODE_ALPHABET d) "2"%char))
      | None => Ok (char1 (nullish (charAt VERIFICATION_CODE_ALPHABET 0) "A"%char))
      end
  end.

Definition verifyDamm (input checkDigit : string) : bool :=
  match calculateDammCheck input with
  | Ok calculated => String.eqb calculated (toUpperCase checkDigit)
  | Throw _ => false
  end.

(** The loop of [validateDammFull].  [None] stands for the two ways out of
    the loop on which [validateDammFull] returns [false]: an exception
    caught by the enclosing [try], and an early [return false]. *)
Fixpoint validateLoop (chars : string) (interim : Z) : option Z :=
  match chars with
  | EmptyString => Some interim
  | String char rest =>
      match charToDigit char with
      | Throw _ => None
      | Ok digit =>
          match at_ DAMM_TABLE interim with
          | None => None
          | Some row =>
              match at_ row digit with
              | None => None
              | Some nextValue => validateLoop rest nextValue
              end
          end
      end
  end.

Definition validateDammFull (fullString : string) : bool :=
  if len fullString <? 2 then false
  else
    let upperInput := toUpperCase fullString in
    match validateLoop upperInput 0 with
    | Some interim => interim =? 0
    | None => false
    end.

(** [code.replace(/[-\s]/g, '').toUpperCase()] *)
Definition isSeparator (c : ascii) : bool :=
  Ascii.eqb c "-"%char || isWhiteSpace c.

Definition cleanCode (code : string) : string :=
  toUpperCase (filterString (fun c => negb (isSeparator c)) code).

Definition isValidAlphabetChar (char : ascii) : bool :=
  negb (indexOf VERIFICATION_CODE_ALPHABET (toUpperCaseChar char) =? -1).

Definition getVerificationCodeAlphabet : string := VERIFICATION_CODE_ALPHABET.
Definition getISO7064Alphabet : string := ISO7064_ALPHABET.

End CheckDigits.

Import CheckDigits.

(** ** identifiers/index.ts *)

Module Identifiers.

Definition LEVEL_CODES : list (string * string) :=
  [ ("bronze", "B"); ("silver", "S"); ("gold", "G") ].

Definition CODE_TO_LEVEL : list (string * string) :=
  [ ("B", "bronze"); ("S", "silver"); ("G", "gold") ].

(** [table[key]] on a constant record: [None] stands for [undefined]. *)
Fixpoint lookupKey {A : Type} (table : list (string * A)) (key : string) : option A :=
  match table with
  | [] => None
  | (k, v) :: rest => if String.eqb k key then Some v else lookupKey rest key
  end.

Record GenerateCertificateNumberOptions : Type := {
  opt_year : JsNumber;
  opt_level : string;
  opt_country : string;
  opt_issuerCode : string;
  opt_serial : JsNumber
}.

Record CertificateNumberParts : Type := {
  year : JsNumber;
  level : string;
  levelCode : string;
  country : string;
  issuerCode : string;
  serial : JsNumber;
  checkDigit : string
}.

(** [/^[A-Z]{2}$/.test(s)] and [/^[A-Z]{3}$/.test(s)] *)
Definition isUpper2 (s : string) : bool :=
  match list_ascii_of_string s with
  | [a; b] => isUpperChar a && isUpperChar b
  | _ => false
  end.

Definition isUpper3 (s : string) : bool :=
  match list_ascii_of_string s with
  | [a; b; c] => isUpperChar a && isUpperChar b && isUpperChar c
  | _ => false
  end.

Definition generateCertificateNumber (options : GenerateCertificateNumberOptions)
  : Result JsError string :=
  let year := opt_year options in
  let level := opt_level options in
  let country := opt_country options in
  let issuerCode := opt_issuerCode options in
  let serial := opt_serial options in
  if negb (Number_isInteger year) || ltNum year (Num 2020) || gtNum year (Num 2100) then
    Throw (Error ("Invalid year: " ++ numberToString year
                    ++ ". Must be an integer between 2020 and 2100."))
  else
    match lookupKey LEVEL_CODES level with
    | None =>
        Throw (Error ("Invalid level: " ++ level
                        ++ ". Must be 'bronze', 'silver', or 'gold'."))
    | Some levelCode =>
        let upperCountry := toUpperCase country in
        if negb (isUpper2 upperCountry) then
          Throw (Error ("Invalid country code: " ++ country
                          ++ ". Must be 2 uppercase letters (ISO 3166-1)."))
        else
          let upperIssuer := toUpperCase issuerCode in
          if negb (isUpper3 upperIssuer) then
            Throw (Error ("Invalid issuer code: " ++ issuerCode
                            ++ ". Must be 3 uppercase letters."))
          else if negb (Number_isInteger serial) || ltNum serial (Num 1)
                  || gtNum serial (Num 999999) then
            Throw (Error ("Invalid serial: " ++ numberToString serial
                            ++ ". Must be an integer between 1 and 999999."))
          else
            let paddedSerial := padStart0 6 (numberToString serial) in
            let base := "RS" ++ numberToString year ++ levelCode ++ upperCountry
                          ++ upperIssuer ++ paddedSerial in
            match calculateISO7064Check base with
            | Throw e => Throw e
            | Ok checkDigit =>
                Ok ("RS-" ++ numberToString year ++ "-" ++ levelCode ++ "-"
                      ++ upperCountry ++ "-" ++ upperIssuer ++ "-" ++ paddedSerial
                      ++ "-" ++ checkDigit)
            end
    end.

(** Character classes of the certificate pattern under the [i] flag. *)
Definition isLetterCI (c : ascii) : bool := isUpperChar c || isLowerChar c.
Definition eqCI (c lit : ascii) : bool := Ascii.eqb (toUpperCaseChar c) lit.
Definition isHyphen (c : ascii) : bool := Ascii.eqb c "-"%char.
Definition isLevelCI (c : ascii) : bool :=
  eqCI c "B"%char || eqCI c "S"%char || eqCI c "G"%char.
Definition isAlnumCI (c : ascii) : bool := isLetterCI c || isDigitChar c.

Definition str (cs : list ascii) : string := string_of_list_ascii cs.

(** [s.match(/^RS-(\d{4})-([BSG])-([A-Z]{2})-([A-Z]{3})-(\d{6})-([A-Z0-9])$/i)]:
    the six captured groups, or [None] for [null]. *)
Definition matchCertificatePattern (s : string)
  : option (string * string * string * string * string * string) :=
  match list_ascii_of_string s with
  | [r; s'; h1; y1; y2; y3; y4; h2; l; h3; c1; c2; h4; i1; i2; i3; h5;
     d1; d2; d3; d4; d5; d6; h6; k] =>
      if eqCI r "R"%char && eqCI s' "S"%char && isHyphen h1
         && isDigitChar y1 && isDigitChar y2 && isDigitChar y3 && isDigitChar y4
         && isHyphen h2 && isLevelCI l && isHyphen h3
         && isLetterCI c1 && isLetterCI c2 && isHyphen h4
         && isLetterCI i1 && isLetterCI i2 && isLetterCI i3 && isHyphen h5
         && isDigitChar d1 && isDigitChar d2 && isDigitChar d3
         && isDigitChar d4 && isDigitChar d5 && isDigitChar d6
         && isHyphen h6 && isAlnumCI k
      then Some (str [y1; y2; y3; y4], str [l], str [c1; c2], str [i1; i2; i3],
                 str [d1; d2; d3; d4; d5; d6], str [k])
      else None
  | _ => None
  end.

Definition isEmpty (s : string) : bool := String.eqb s EmptyString.

Definition parseCertificateNumber (certificateNumber : string)
  : option CertificateNumberParts :=
  match matchCertificatePattern (toUpperCase certificateNumber) with
  | None => None
  | Some (yearStr, levelCode, country, issuerCode, serialStr, checkDigit) =>
      if isEmpty yearStr || isEmpty levelCode || isEmpty country
         || isEmpty issuerCode || isEmpty serialStr || isEmpty checkDigit
      then None
      else
        match lookupKey CODE_TO_LEVEL levelCode with
        | None => None
        | Some level =>
            Some {| year := parseInt10 yearStr;
                    level := level;
                    levelCode := levelCode;
                    country := country;
                    issuerCode := issuerCode;
                    serial := parseInt10 serialStr;
                    checkDigit := checkDigit |}
        end
  end.

Definition validateCertificateNumber (certificateNumber : string) : bool :=
  match parseCertificateNumber certificateNumber with
  | None => false
  | Some parts =>
      let paddedSerial := padStart0 6 (numberToString (serial parts)) in
      let base := "RS" ++ numberToString (year parts) ++ levelCode parts
                    ++ country parts ++ issuerCode parts ++ paddedSerial in
      verifyISO7064 base (checkDigit parts)
  end.

Definition formatCertificateNumber (certificateNumber : string) : string :=
  match parseCertificateNumber certificateNumber with
  | None => toUpperCase certificateNumber
  | Some parts =>
      let paddedSerial := padStart0 6 (numberToString (serial parts)) in
      "RS-" ++ numberToString (year parts) ++ "-" ++ levelCode parts ++ "-"
        ++ country parts ++ "-" ++ issuerCode parts ++ "-" ++ paddedSerial
        ++ "-" ++ checkDigit parts
  end.

(** [generateVerificationCode], with the seven characters drawn by
    [getRandomString(7, alphabet)] passed in as [base]. *)
Definition generateVerificationCode (base : string) : Result JsError string :=
  match calculateDammCheck base with
  | Throw e => Throw e
  | Ok checkDigit => Ok (base ++ checkDigit)
  end.

Definition formatVerificationCode (code : string) : string :=
  let clean := cleanCode code in
  if negb (len clean =? 8) then toUpperCase code
  else slice clean 0 4 ++ "-" ++ sliceFrom clean 4.

Definition validateVerificationCode (code : string) : bool :=
  let clean := cleanCode code in
  if negb (len clean =? 8) then false
  else validateDammFull clean.

Definition parseVerificationCode (code : string) : option (string * string) :=
  let clean := cleanCode code in
  if negb (len clean =? 8) then None
  else Some (slice clean 0 7, sliceFrom clean 7).

End Identifiers.

Import Identifiers.

(** ** types/index.ts *)

Module Types.

Definition ALLOWED_PUBLIC_FIELDS : list string :=
  [ "givenName"; "familyName"; "level"; "validFrom"; "validUntil" ].

Definition FORBIDDEN_FIELDS : list string :=
  [ "email"; "phone"; "mobile"; "address"; "dateOfBirth"; "dob"; "birthDate";
    "gender"; "sex"; "age";
    "aadhaarNumber"; "aadhaar"; "panNumber"; "pan"; "passport"; "passportNumber";
    "drivingLicense"; "licenseNumber"; "socialSecurityNumber"; "ssn";
    "nationalId"; "voterId";
    "testScore"; "score"; "hazardScore"; "practicalScore"; "theoryScore";
    "grade"; "marks";
    "bankAccount"; "accountNumber"; "ifsc"; "upi"; "creditCard"; "salary"; "income";
    "internalRiderId"; "riderId"; "internalId"; "externalId"; "employeeId"; "staffId";
    "location"; "gps"; "coordinates"; "homeAddress"; "workAddress";
    "photo"; "photograph"; "fingerprint"; "biometric"; "faceId" ].

End Types.

Import Types.

(** ** protocol/index.ts *)

Module Protocol.

(** Values of type [unknown]. *)
Inductive JsValue : Type :=
| JsUndefined
| JsNull
| JsBoolean (b : bool)
| JsNumeric (x : JsNumber)
| JsString (s : string)
| JsObject (props : list (string * JsValue)).

(** [Record<string, unknown>]: own enumerable properties in key order. *)
Definition JsRecord : Type := list (string * JsValue).

(** [Object.keys(obj)] *)
Definition keys (obj : JsRecord) : list string := map fst obj.

(** [obj[key]]: [undefined] when the property is absent. *)
Fixpoint getProp (obj : JsRecord) (key : string) : JsValue :=
  match obj with
  | [] => JsUndefined
  | (k, v) :: rest => if String.eqb k key then v else getProp rest key
  end.

Definition truthy (v : JsValue) : bool :=
  match v with
  | JsUndefined | JsNull => false
  | JsBoolean b => b
  | JsNumeric NaN => false
  | JsNumeric (Num z) => negb (z =? 0)
  | JsString s => negb (String.eqb s EmptyString)
  | JsObject _ => true
  end.

(** [typeof v === 'object'] *)
Definition typeofIsObject (v : JsValue) : bool :=
  match v with
  | JsNull | JsObject _ => true
  | _ => false
  end.

(** [Object.keys(v as object)] on a value already known to be a truthy
    object. *)
Definition keysOfValue (v : JsValue) : list string :=
  match v with
  | JsObject props => keys props
  | _ => []
  end.

(** The three error classes, each with the arguments of its constructor. *)
Inductive ProtocolError : Type :=
| ProtocolViolationError (field message : string)
| MissingAttributeError (field : string)
| AttributeValidationError (field message : string).

Definition isForbiddenField (field : string) : bool :=
  let lowerField := toLowerCase field in
  existsb (fun f => String.eqb (toLowerCase f) lowerField) FORBIDDEN_FIELDS.

(** [ALLOWED_PUBLIC_FIELDS.includes(field)] *)
Definition isAllowedField (field : string) : bool :=
  existsb (fun f => String.eqb f field) ALLOWED_PUBLIC_FIELDS.

(** The nested scan of one conventionally named container. *)
Definition detectNested (data : JsRecord) (container : string) : list string :=
  let v := getProp data container in
  if truthy v && typeofIsObject v then
    map (fun key => container ++ "." ++ key) (filter isForbiddenField (keysOfValue v))
  else [].

Definition detectForbiddenFields (data : JsRecord) : list string :=
  filter isForbiddenField (keys data)
    ++ detectNested data "publicAttributes"
    ++ detectNested data "attributes".

Definition detectUnknownFields (data : JsRecord) : list string :=
  filter (fun key => negb (isAllowedField key) && negb (isForbiddenField key)) (keys data).

Definition validateLevel (level : JsValue) : bool :=
  match level with
  | JsString s => String.eqb s "bronze" || String.eqb s "silver" || String.eqb s "gold"
  | _ => false
  end.

(** The tail [(\.\d{3})?Z?$] of the date pattern. *)
Definition matchFractionZone (cs : list ascii) : bool :=
  match cs with
  | [] => true
  | [z] => Ascii.eqb z "Z"%char
  | [dot; f1; f2; f3] =>
      Ascii.eqb dot "."%char && isDigitChar f1 && isDigitChar f2 && isDigitChar f3
  | [dot; f1; f2; f3; z] =>
      Ascii.eqb dot "."%char && isDigitChar f1 && isDigitChar f2 && isDigitChar f3
      && Ascii.eqb z "Z"%char
  | _ => false
  end.

(** The optional group [(T\d{2}:\d{2}:\d{2}(\.\d{3})?Z?)?$]. *)
Definition matchTimeSuffix (cs : list ascii) : bool :=
  match cs with
  | [] => true
  | t :: h1 :: h2 :: c1 :: m1 :: m2 :: c2 :: s1 :: s2 :: rest =>
      Ascii.eqb t "T"%char && isDigitChar h1 && isDigitChar h2
      && Ascii.eqb c1 ":"%char && isDigitChar m1 && isDigitChar m2
      && Ascii.eqb c2 ":"%char && isDigitChar s1 && isDigitChar s2
      && matchFractionZone rest
  | _ => false
  end.

(** [(0[1-9]|1[0-2])] and [(0[1-9]|[12]\d|3[01])] *)
Definition isMonth (a b : ascii) : bool :=
  (Ascii.eqb a "0"%char && (49 <=? code b) && (code b <=? 57))
  || (Ascii.eqb a "1"%char && (48 <=? code b) && (code b <=? 50)).

Definition isDay (a b : ascii) : bool :=
  (Ascii.eqb a "0"%char && (49 <=? code b) && (code b <=? 57))
  || ((Ascii.eqb a "1"%char || Ascii.eqb a "2"%char) && isDigitChar b)
  || (Ascii.eqb a "3"%char && (Ascii.eqb b "0"%char || Ascii.eqb b "1"%char)).

(** [isoDatePattern.test(date)] *)
Definition isoDatePattern (date : string) : bool :=
  match list_ascii_of_string date with
  | y1 :: y2 :: y3 :: y4 :: h1 :: m1 :: m2 :: h2 :: d1 :: d2 :: rest =>
      isDigitChar y1 && isDigitChar y2 && isDigitChar y3 && isDigitChar y4
      && Ascii.eqb h1 "-"%char && isMonth m1 m2
      && Ascii.eqb h2 "-"%char && isDay d1 d2
      && matchTimeSuffix rest
  | _ => false
  end.

(** [/[\u0000-\u001F\u007F-\u009F]/.test(name)] *)
Definition isControlChar (c : ascii) : bool :=
  (code c <=? 31) || ((127 <=? code c) && (code c <=? 159)).

(** [/<[^>]*>/.test(name)]: some [<] is followed, anywhere later, by [>]. *)
Fixpoint hasHtmlTag (name : string) : bool :=
  match name with
  | EmptyString => false
  | String c rest =>
      (Ascii.eqb c "<"%char && existsString (Ascii.eqb ">"%char) rest) || hasHtmlTag rest
  end.

Definition validateName (name : JsValue) : bool :=
  match name with
  | JsString name =>
      let codePoints := len name in
      if (codePoints <? 1) || (codePoints >? 100) then false
      else if existsString isControlChar name then false
      else if hasHtmlTag name then false
      else if forallString isWhiteSpace name then false
      else true
  | _ => false
  end.

Definition isMissing (v : JsValue) : bool :=
  match v with
  | JsUndefined | JsNull => true
  | _ => false
  end.

Definition nameMessage : string :=
  "Must be a string between 1-100 characters without control characters or HTML".

Definition quote (s : string) : string :=
  String (ascii_of_nat 34) s ++ String (ascii_of_nat 34) EmptyString.

Definition levelMessage : string :=
  "Must be " ++ quote "bronze" ++ ", " ++ quote "silver" ++ ", or " ++ quote "gold".

Definition dateMessage : string := "Must be a valid ISO 8601 date (YYYY-MM-DD)".

Definition stringOf (v : JsValue) : string :=
  match v with
  | JsString s => s
  | _ => EmptyString
  end.

(** The message passed to [ProtocolViolationError]: it lists every
    offending field. *)
Definition violationMessage (forbidden : list string) : string :=
  "PROTOCOL VIOLATION: Cannot store the following fields in the registry: "
    ++ join ", " forbidden ++ ". "
    ++ "These fields contain private data and must remain with the issuer.".

Section Enforcement.

(** [new Date(s).getTime()] as the host computes it: [NaN] for an
    invalid date. *)
Variable Date_getTime : string -> JsNumber.

Definition isNaN (x : JsNumber) : bool :=
  match x with NaN => true | Num _ => false end.

Definition validateISODate (date : JsValue) : bool :=
  match date with
  | JsString date =>
      if negb (isoDatePattern date) then false
      else negb (isNaN (Date_getTime date))
  | _ => false
  end.

Definition enforcePublicAttributesOnly (data : JsRecord)
  : Result ProtocolError JsRecord :=
  let forbidden := detectForbiddenFields data in
  match forbidden with
  | first :: _ =>
      Throw (ProtocolViolationError first (violationMessage forbidden))
  | [] =>
      let givenName := getProp data "givenName" in
      let familyName := getProp data "familyName" in
      let level := getProp data "level" in
      let validFrom := getProp data "validFrom" in
      let validUntil := getProp data "validUntil" in
      if isMissing givenName then Throw (MissingAttributeError "givenName")
      else if isMissing familyName then Throw (MissingAttributeError "familyName")
      else if isMissing level then Throw (MissingAttributeError "level")
      else if isMissing validFrom then Throw (MissingAttributeError "validFrom")
      else if isMissing validUntil then Throw (MissingAttributeError "validUntil")
      else if negb (validateName givenName) then
        Throw (AttributeValidationError "givenName" nameMessage)
      else if negb (validateName familyName) then
        Throw (AttributeValidationError "familyName" nameMessage)
      else if negb (validateLevel level) then
        Throw (AttributeValidationError "level" levelMessage)
      else if negb (validateISODate validFrom) then
        Throw (AttributeValidationError "validFrom" dateMessage)
      else if negb (validateISODate validUntil) then
        Throw (AttributeValidationError "validUntil" dateMessage)
      else
        let fromDate := Date_getTime (stringOf validFrom) in
        let untilDate := Date_getTime (stringOf validUntil) in
        if leNum untilDate fromDate then
          Throw (AttributeValidationError "validUntil" "Must be after validFrom date")
        else
          Ok [ ("givenName", givenName);
               ("familyName", familyName);
               ("level", level);
               ("validFrom", validFrom);
               ("validUntil", validUntil) ]
  end.

End Enforcement.

End Protocol.

Import Protocol.

(** ** A reference host for [Date]

    The ECMAScript date-time string format, read strictly, on a host whose
    local time zone is UTC.  It instantiates the host parameter of
    [enforcePublicAttributesOnly] in the examples. *)

Module Host.

Definition digitVal (c : ascii) : Z := code c - 48.
Definition num2 (a b : ascii) : Z := digitVal a * 10 + digitVal b.

Definition isLeapYear (y : Z) : bool :=
  (y mod 4 =? 0) && (negb (y mod 100 =? 0) || (y mod 400 =? 0)).

Definition daysInMonth (y m : Z) : Z :=
  if m =? 2 then (if isLeapYear y then 29 else 28)
  else if (m =? 4) || (m =? 6) || (m =? 9) || (m =? 11) then 30
  else 31.

(** Days from 1970-01-01 to the civil date [y]-[m]-[d]. *)
Definition daysFromCivil (y m d : Z) : Z :=
  let y' := if m <=? 2 then y - 1 else y in
  let era := y' / 400 in
  let yoe := y' - era * 400 in
  let mp := (m + 9) mod 12 in
  let doy := (153 * mp + 2) / 5 + d - 1 in
  let doe := yoe * 365 + yoe / 4 - yoe / 100 + doy in
  era * 146097 + doe - 719468.

Definition timeOfDay (cs : list ascii) : option Z :=
  match cs with
  | [] => Some 0
  | _ :: h1 :: h2 :: _ :: m1 :: m2 :: _ :: s1 :: s2 :: rest =>
      let h := num2 h1 h2 in
      let m := num2 m1 m2 in
      let sec := num2 s1 s2 in
      let ms := match rest with
                | _ :: f1 :: f2 :: f3 :: _ => digitVal f1 * 100 + num2 f2 f3
                | _ => 0
                end in
      if (h <=? 23) && (m <=? 59) && (sec <=? 59)
      then Some (((h * 60 + m) * 60 + sec) * 1000 + ms)
      else if (h =? 24) && (m =? 0) && (sec =? 0) && (ms =? 0)
      then Some 86400000
      else None
  | _ => None
  end.

Definition utcGetTime (s : string) : JsNumber :=
  match list_ascii_of_string s with
  | y1 :: y2 :: y3 :: y4 :: _ :: m1 :: m2 :: _ :: d1 :: d2 :: rest =>
      let y := num2 y1 y2 * 100 + num2 y3 y4 in
      let m := num2 m1 m2 in
      let d := num2 d1 d2 in
      if (1 <=? m) && (m <=? 12) && (1 <=? d) && (d <=? daysInMonth y m) then
        match timeOfDay rest with
        | Some t => Num (daysFromCivil y m d * 86400000 + t)
        | None => NaN
        end
      else NaN
  | _ => NaN
  end.

End Host.

(** ** Transcription errors

    The two edits the error-detection properties speak about. *)

Module Edit.

(** Replace the character at position [i] by [c]. *)
Fixpoint replaceAt (i : nat) (c : ascii) (s : string) : string :=
  match s with
  | EmptyString => EmptyString
  | String x rest =>
      match i with
      | O => String c rest
      | S i' => String x (replaceAt i' c rest)
      end
  end.

(** Exchange the characters at positions [i] and [i + 1]. *)
Fixpoint swapAt (i : nat) (s : string) : string :=
  match i, s with
  | O, String a (String b rest) => String b (String a rest)
  | S i', String a rest => String a (swapAt i' rest)
  | _, _ => s
  end.

(** Membership of a character in an alphabet string. *)
Definition inAlphabet (alphabet : string) (c : ascii) : bool :=
  negb (indexOf alphabet c =? -1).

(** Two characters that are equal up to the case of a letter. *)
Definition sameUpToCase (a b : ascii) : bool :=
  Ascii.eqb a b || Ascii.eqb (toLowerCaseChar a) (toLowerCaseChar b).

(** Two names that differ only in letter case. *)
Fixpoint differOnlyInCase (s t : string) : bool :=
  match s, t with
  | EmptyString, EmptyString => true
  | String a s', String b t' => sameUpToCase a b && differOnlyInCase s' t'
  | _, _ => false
  end.

End Edit.

Import Edit.

(** ** The Damm table as a partial operation, and its checkable laws *)

Module Quasigroup.

Definition digits10 : list Z := [0; 1; 2; 3; 4; 5; 6; 7; 8; 9].

(** [DAMM_TABLE[s][d]] *)
Definition dammStep (s d : Z) : option Z :=
  match at_ DAMM_TABLE s with
  | Some row => at_ row d
  | None => None
  end.

Definition optEqb (a b : option Z) : bool :=
  match a, b with
  | Some x, Some y => x =? y
  | None, None => true
  | _, _ => false
  end.

Definition isDigit10 (o : option Z) : bool :=
  match o with
  | Some n => (0 <=? n) && (n <=? 9)
  | None => false
  end.

Definition bind (o : option Z) (f : Z -> option Z) : option Z :=
  match o with
  | Some x => f x
  | None => None
  end.

Definition forall2 (p : Z -> Z -> bool) : bool :=
  forallb (fun s => forallb (fun d => p s d) digits10) digits10.

Definition forall3 (p : Z -> Z -> Z -> bool) : bool :=
  forallb (fun s => forall2 (p s)) digits10.

(** Every entry is a digit. *)
Definition closed : bool := forall2 (fun s d => isDigit10 (dammStep s d)).

(** Two different digits lead from one state to two different states. *)
Definition rowsInjective : bool :=
  forall3 (fun s a b => (a =? b) || negb (optEqb (dammStep s a) (dammStep s b))).

(** One digit leads from two different states to two different states. *)
Definition columnsInjective : bool :=
  forall3 (fun d s t => (s =? t) || negb (optEqb (dammStep s d) (dammStep t d))).

(** Exchanging two different digits changes the state reached. *)
Definition antiSymmetric : bool :=
  forall3 (fun s a b =>
             (a =? b)
             || negb (optEqb (bind (dammStep s a) (fun n => dammStep n b))
                             (bind (dammStep s b) (fun n => dammStep n a)))).

(** For every state, the search of [calculateDammCheck] finds a digit that
    leads to state [0], and the alphabet character at that position folds
    back to that digit. *)
Definition checkFound : bool :=
  forallb
    (fun interim =>
       match findCheck 10 0 interim with
       | Some d =>
           optEqb (dammStep interim d) (Some 0)
           && match charToDigit (nullish (charAt VERIFICATION_CODE_ALPHABET d) "2"%char) with
              | Ok d' => d' =? d
              | Throw _ => false
              end
       | None => false
       end)
    digits10.

(** The characters [calculateDammCheck] can return: the first ten of the
    alphabet. *)
Definition firstTen : list string :=
  map char1 (list_ascii_of_string (String.substring 0 10 VERIFICATION_CODE_ALPHABET)).

(** The outcome of the table run of [validateDammFull] over [code]. *)
Definition accepted (code : string) : bool :=
  match validateLoop code 0 with
  | Some interim => interim =? 0
  | None => false
  end.

End Quasigroup.

Import Quasigroup.

(** ** Inputs of the privacy gate *)

Module Gate.

(** A record that carries a forbidden field: at top level, or inside a
    nested [publicAttributes] or [attributes] object. *)
Definition hasForbiddenKey (obj : JsRecord) : Prop :=
  exists key, In key (keys obj) /\ isForbiddenField key = true.

Definition containsForbidden (data : JsRecord) : Prop :=
  hasForbiddenKey data
  \/ (exists props, getProp data "publicAttributes" = JsObject props
                    /\ hasForbiddenKey props)
  \/ (exists props, getProp data "attributes" = JsObject props
                    /\ hasForbiddenKey props).

(** The scenario of the specification: a forbidden [email] next to equal
    validity dates. *)
Definition emailScenario : JsRecord :=
  [ ("givenName", JsString "R"); ("familyName", JsString "K");
    ("level", JsString "gold"); ("validFrom", JsString "2026-01-01");
    ("validUntil", JsString "2026-01-01"); ("email", JsString "x@y.com") ].

(** Valid attributes whose only forbidden names sit inside the nested
    containers: [SSN] and [phone] under [publicAttributes], [Email] under
    [attributes]. *)
Definition nestedScenario : JsRecord :=
  [ ("givenName", JsString "R"); ("familyName", JsString "K");
    ("level", JsString "gold"); ("validFrom", JsString "2026-01-01");
    ("validUntil", JsString "2028-01-01");
    ("publicAttributes",
     JsObject [ ("level", JsString "gold"); ("SSN", JsString "1");
                ("phone", JsString "2") ]);
    ("attributes", JsObject [ ("Email", JsString "x@y.com") ]) ].

(** A record with nothing but a forbidden name under [attributes]. *)
Definition attributesScenario : JsRecord :=
  [ ("publicAttributes", JsObject [ ("level", JsString "gold") ]);
    ("attributes", JsObject [ ("note", JsString "n"); ("Aadhaar", JsString "3") ]) ].

(** Valid attributes accompanied by a harmless extra field. *)
Definition validWithExtra : JsRecord :=
  [ ("nickname", JsString "Rocky"); ("givenName", JsString "Rahul");
    ("familyName", JsString "Kumar"); ("level", JsString "gold");
    ("validFrom", JsString "2026-01-15"); ("validUntil", JsString "2028-01-15") ].

End Gate.

Import Gate.

(** ** Shapes of identifier components *)

Module Shape.

(** The value of a list of decimal digits, least significant first. *)
Fixpoint valueRev (ds : list ascii) : Z :=
  match ds with
  | [] => 0
  | d :: rest => (code d - 48) + 10 * valueRev rest
  end.

(** Exactly [n] characters, each satisfying [p]. *)
Definition hasShape (n : nat) (p : ascii -> bool) (s : string) : bool :=
  Nat.eqb (String.length s) n && forallString p s.

(** Exactly [n] letters, in either case. *)
Definition isLetters (n : nat) (s : string) : bool := hasShape n isLetterCI s.

(** A code unit that upper-casing leaves as it is. *)
Definition notLower (c : ascii) : bool := Ascii.eqb (toUpperCaseChar c) c.

Definition isLevelCode (s : string) : bool :=
  String.eqb s "B" || String.eqb s "S" || String.eqb s "G".

(** Characters of the certificate base: digits and upper-case letters. *)
Definition isBaseChar (c : ascii) : bool := isDigitChar c || isUpperChar c.

(** The string the check character is computed over. *)
Definition checkBase (yearStr levelCode country issuerCode serialStr : string) : string :=
  "RS" ++ yearStr ++ levelCode ++ country ++ issuerCode ++ serialStr.

(** The hyphenated display form assembled by [generateCertificateNumber]
    and [formatCertificateNumber]. *)
Definition display (yearStr levelCode country issuerCode serialStr checkDigit : string)
  : string :=
  "RS-" ++ yearStr ++ "-" ++ levelCode ++ "-" ++ country ++ "-" ++ issuerCode
    ++ "-" ++ serialStr ++ "-" ++ checkDigit.

End Shape.

Import Shape.

(** ** Fixed-width patterns

    The remaining regular expressions of the sources are sequences of
    literals and of character classes repeated a fixed number of times,
    anchored at both ends; they are matched from left to right. *)

Module Pattern.

(** A literal at the head of the subject; [ci] is the [i] flag.  The rest
    of the subject is returned. *)
Fixpoint stripLiteral (ci : bool) (lit subject : string) : option string :=
  match lit with
  | EmptyString => Some subject
  | String l lit' =>
      match subject with
      | EmptyString => None
      | String c rest =>
          if (if ci then Ascii.eqb (toLowerCaseChar c) (toLowerCaseChar l)
              else Ascii.eqb c l)
          then stripLiteral ci lit' rest
          else None
      end
  end.

(** Exactly [n] characters of the class [p] at the head of the subject: the
    characters matched and the rest. *)
Fixpoint takeClass (n : nat) (p : ascii -> bool) (subject : string)
  : option (string * string) :=
  match n with
  | O => Some (EmptyString, subject)
  | S n' =>
      match subject with
      | EmptyString => None
      | String c rest =>
          if p c then
            match takeClass n' p rest with
            | Some (group, rest') => Some (String c group, rest')
            | None => None
            end
          else None
      end
  end.

(** [/^[A-Z]{n}$/i.test(s)] *)
Definition lettersCI (n : nat) (s : string) : bool :=
  match takeClass n isLetterCI s with
  | Some (_, rest) => isEmpty rest
  | None => false
  end.

(** The class [[0-9a-f]] under the [i] flag. *)
Definition isHexCI (c : ascii) : bool :=
  isDigitChar c
  || ((97 <=? code c) && (code c <=? 102))
  || ((65 <=? code c) && (code c <=? 70)).

End Pattern.

Import Pattern.

(** ** identifiers/index.ts: credential IDs, DIDs and verification URLs *)

Module Urn.

Record CredentialIdParts : Type := {
  cid_issuerCode : string;
  cid_year : JsNumber;
  cid_serial : JsNumber
}.

Definition generateCredentialId (issuerCode : string) (year serial : JsNumber) : string :=
  let paddedSerial := padStart0 6 (numberToString serial) in
  "urn:rscp:credential:" ++ toLowerCase issuerCode ++ ":" ++ numberToString year
    ++ ":" ++ paddedSerial.

(** [s.match(/^urn:rscp:credential:([a-z]{3}):(\d{4}):(\d{6})$/)] *)
Definition matchCredentialPattern (s : string) : option (string * string * string) :=
  match stripLiteral false "urn:rscp:credential:" s with
  | None => None
  | Some r1 =>
      match takeClass 3 isLowerChar r1 with
      | None => None
      | Some (issuerCode, r2) =>
          match stripLiteral false ":" r2 with
          | None => None
          | Some r3 =>
              match takeClass 4 isDigitChar r3 with
              | None => None
              | Some (yearStr, r4) =>
                  match stripLiteral false ":" r4 with
                  | None => None
                  | Some r5 =>
                      match takeClass 6 isDigitChar r5 with
                      | None => None
                      | Some (serialStr, r6) =>
                          if isEmpty r6 then Some (issuerCode, yearStr, serialStr)
                          else None
                      end
                  end
              end
          end
      end
  end.

Definition parseCredentialId (credentialId : string) : option CredentialIdParts :=
  match matchCredentialPattern (toLowerCase credentialId) with
  | None => None
  | Some (issuerCode, yearStr, serialStr) =>
      if isEmpty issuerCode || isEmpty yearStr || isEmpty serialStr then None
      else Some {| cid_issuerCode := toUpperCase issuerCode;
                   cid_year := parseInt10 yearStr;
                   cid_serial := parseInt10 serialStr |}
  end.

Definition generateIssuerDid (issuerCode : string) : string :=
  "did:rscp:issuer:" ++ toLowerCase issuerCode.

(** [did.toLowerCase().match(/^did:rscp:issuer:([a-z]{3})$/)?.[1]?.toUpperCase() ?? null] *)
Definition parseIssuerDid (did : string) : option string :=
  match stripLiteral false "did:rscp:issuer:" (toLowerCase did) with
  | None => None
  | Some r1 =>
      match takeClass 3 isLowerChar r1 with
      | Some (issuerCode, r2) =>
          if isEmpty r2 then Some (toUpperCase issuerCode) else None
      | None => None
      end
  end.

Definition generateHolderDid (userId : string) : string :=
  "did:rscp:holder:" ++ toLowerCase userId.

(** The group
    [([0-9a-f]{8}-[0-9a-f]{4}-[0-9a-f]{4}-[0-9a-f]{4}-[0-9a-f]{12})] under
    the [i] flag: the text matched and the rest. *)
Definition takeUuid (s : string) : option (string * string) :=
  match takeClass 8 isHexCI s with
  | None => None
  | Some (g1, r1) =>
      match stripLiteral true "-" r1 with
      | None => None
      | Some r2 =>
          match takeClass 4 isHexCI r2 with
          | None => None
          | Some (g2, r3) =>
              match stripLiteral true "-" r3 with
              | None => None
              | Some r4 =>
                  match takeClass 4 isHexCI r4 with
                  | None => None
                  | Some (g3, r5) =>
                      match stripLiteral true "-" r5 with
                      | None => None
                      | Some r6 =>
                          match takeClass 4 isHexCI r6 with
                          | None => None
                          | Some (g4, r7) =>
                              match stripLiteral true "-" r7 with
                              | None => None
                              | Some r8 =>
                                  match takeClass 12 isHexCI r8 with
                                  | None => None
                                  | Some (g5, r9) =>
                                      Some (g1 ++ "-" ++ g2 ++ "-" ++ g3 ++ "-" ++ g4
                                              ++ "-" ++ g5, r9)
                                  end
                              end
                          end
                      end
                  end
              end
          end
      end
  end.

(** [did.match(/^did:rscp:holder:(...)$/i)?.[1] ?? null] *)
Definition parseHolderDid (did : string) : option string :=
  match stripLiteral true "did:rscp:holder:" did with
  | None => None
  | Some r1 =>
      match takeUuid r1 with
      | Some (userId, r2) => if isEmpty r2 then Some userId else None
      | None => None
      end
  end.

(** [getVerificationUrl(verificationCode, baseUrl)] *)
Definition getVerificationUrl (verificationCode baseUrl : string) : string :=
  let clean := cleanCode verificationCode in
  baseUrl ++ "/v/" ++ clean.

End Urn.

Import Urn.

(** ** protocol/index.ts: extraction and registry input *)

Module Registry.

(** The own enumerable properties of a string primitive: its characters
    under their indices. *)
Fixpoint indexedChars (s : string) (i : Z) : JsRecord :=
  match s with
  | EmptyString => []
  | String c rest =>
      (numberToString (Num i), JsString (char1 c)) :: indexedChars rest (i + 1)
  end.

(** A truthy value passed where a record is expected, as [Object.keys]
    and property access see it: an object's own properties, a string's
    indexed characters, nothing for a number or a boolean. *)
Definition asRecord (v : JsValue) : JsRecord :=
  match v with
  | JsObject props => props
  | JsString s => indexedChars s 0
  | _ => []
  end.

Record RegistryInput : Type := {
  ri_publicAttributes : JsRecord;
  ri_issuerCode : string;
  ri_signature : option string;
  ri_internalCertificationId : option string
}.

Section Extraction.

Variable Date_getTime : string -> JsNumber.

Definition extractPublicAttributes (credential : JsRecord)
  : Result ProtocolError JsRecord :=
  if truthy (getProp credential "publicAttributes") then
    enforcePublicAttributesOnly Date_getTime
      (asRecord (getProp credential "publicAttributes"))
  else
    enforcePublicAttributesOnly Date_getTime
      [ ("givenName", getProp credential "givenName");
        ("familyName", getProp credential "familyName");
        ("level", getProp credential "level");
        ("validFrom", getProp credential "validFrom");
        ("validUntil", getProp credential "validUntil") ].

Definition validateRegistryInput (input : RegistryInput)
  : Result ProtocolError RegistryInput :=
  if isEmpty (ri_issuerCode input) || negb (lettersCI 3 (ri_issuerCode input)) then
    Throw (AttributeValidationError "issuerCode" "Must be a 3-character code")
  else
    match enforcePublicAttributesOnly Date_getTime (ri_publicAttributes input) with
    | Throw e => Throw e
    | Ok publicAttributes =>
        Ok {| ri_publicAttributes := publicAttributes;
              ri_issuerCode := toUpperCase (ri_issuerCode input);
              ri_signature := ri_signature input;
              ri_internalCertificationId := ri_internalCertificationId input |}
    end.

End Extraction.

End Registry.

Import Registry.

(** ** crypto/index.ts: random integers and strings, keys, byte strings

    [crypto.getRandomValues] belongs to the host.  The functions that draw
    random bytes take the bytes to come as a list and return what is left
    of it; [None] means that the list ran dry before the function
    returned. *)

Module Crypto.

(** [ToUint32] and [ToInt32] on integers. *)
Definition toUint32 (x : Z) : Z := x mod 4294967296.
Definition toInt32 (x : Z) : Z :=
  let u := toUint32 x in
  if u <? 2147483648 then u else u - 4294967296.

(** [x << n], [x | y] and [x >>> 0]. *)
Definition shl (x n : Z) : Z := toInt32 (Z.shiftl (toInt32 x) n).
Definition bor (x y : Z) : Z := toInt32 (Z.lor (toInt32 x) (toInt32 y)).
Definition ushr0 (x : Z) : Z := toUint32 x.

(** [(bytes[0] << 24) | (bytes[1] << 16) | (bytes[2] << 8) | bytes[3]],
    then [value >>> 0]. *)
Definition wordOfBytes (b0 b1 b2 b3 : Z) : Z :=
  ushr0 (bor (bor (bor (shl b0 24) (shl b1 16)) (shl b2 8)) b3).

(** [0xffffffff - (0xffffffff % max)] *)
Definition rejectionLimit (max : Z) : Z := 4294967295 - Z.rem 4294967295 max.

(** The [do ... while (value >= limit)] loop: four fresh bytes per turn. *)
Fixpoint rejectionLoop (limit : Z) (entropy : list Z) : option (Z * list Z) :=
  match entropy with
  | b0 :: b1 :: b2 :: b3 :: rest =>
      let value := wordOfBytes b0 b1 b2 b3 in
      if limit <=? value then rejectionLoop limit rest else Some (value, rest)
  | _ => None
  end.

Definition getSecureRandomInt (max : Z) (entropy : list Z)
  : option (Result JsError Z * list Z) :=
  if max <=? 0 then Some (Throw (Error "max must be positive"), entropy)
  else if max >? 4294967295 then
    Some (Throw (Error "max must be <= 2^32 - 1"), entropy)
  else
    let limit := rejectionLimit max in
    match rejectionLoop limit entropy with
    | Some (value, rest) => Some (Ok (Z.rem value max), rest)
    | None => None
    end.

(** [result += alphabet[index]] *)
Definition appendIndexed (result alphabet : string) (index : Z) : string :=
  match charAt alphabet index with
  | Some c => result ++ char1 c
  | None => result ++ "undefined"
  end.

(** The [for (let i = 0; i < length; i++)] loop of [getRandomString]. *)
Fixpoint randomChars (count : nat) (alphabet result : string) (entropy : list Z)
  : option (Result JsError string * list Z) :=
  match count with
  | O => Some (Ok result, entropy)
  | S count' =>
      match getSecureRandomInt (len alphabet) entropy with
      | None => None
      | Some (Throw e, rest) => Some (Throw e, rest)
      | Some (Ok index, rest) =>
          randomChars count' alphabet (appendIndexed result alphabet index) rest
      end
  end.

Definition getRandomString (length : Z) (alphabet : string) (entropy : list Z)
  : option (Result JsError string * list Z) :=
  if len alphabet =? 0 then Some (Throw (Error "alphabet cannot be empty"), entropy)
  else randomChars (Z.to_nat length) alphabet EmptyString entropy.

(** [generateVerificationCode()] of identifiers/index.ts, with its random
    source. *)
Definition generateVerificationCodeWith (entropy : list Z)
  : option (Result JsError string * list Z) :=
  let alphabet := getVerificationCodeAlphabet in
  match getRandomString 7 alphabet entropy with
  | None => None
  | Some (Throw e, rest) => Some (Throw e, rest)
  | Some (Ok base, rest) => Some (generateVerificationCode base, rest)
  end.

(** [timingSafeEqual]: the loop runs over the indices of [a]; [b] has the
    same length when the loop is reached. *)
Fixpoint xorLoop (a b : string) (result : Z) : Z :=
  match a, b with
  | String x a', String y b' =>
      xorLoop a' b' (Z.lor result (Z.lxor (code x) (code y)))
  | _, _ => result
  end.

Definition timingSafeEqual (a b : string) : bool :=
  if negb (len a =? len b) then false
  else xorLoop a b 0 =? 0.

(** [b.toString(16)] on a non-negative integer. *)
Definition hexDigitChar (d : Z) : ascii :=
  nullish (charAt "0123456789abcdef" d) "0"%char.

Fixpoint hexDigitsRev (fuel : nat) (n : Z) : list ascii :=
  match fuel with
  | O => []
  | S fuel' =>
      if n <? 16 then [hexDigitChar n]
      else hexDigitChar (n mod 16) :: hexDigitsRev fuel' (n / 16)
  end.

Definition toStringHex (n : Z) : string :=
  string_of_list_ascii (rev (hexDigitsRev (S (Z.to_nat (Z.log2 n))) n)).

Definition bytesToHex (bytes : list Z) : string :=
  join EmptyString (map (fun b => padStart0 2 (toStringHex b)) bytes).

(** [parseInt(s, 16)]: leading white space, a sign and a [0x] prefix are
    skipped; the value is that of the longest run of hexadecimal digits
    that follows, [NaN] when there is none. *)
Definition hexValue (c : ascii) : option Z :=
  if isDigitChar c then Some (code c - 48)
  else if (97 <=? code c) && (code c <=? 102) then Some (code c - 87)
  else if (65 <=? code c) && (code c <=? 70) then Some (code c - 55)
  else None.

Fixpoint parseHexDigits (s : string) (acc : Z) : Z :=
  match s with
  | EmptyString => acc
  | String c rest =>
      match hexValue c with
      | Some d => parseHexDigits rest (acc * 16 + d)
      | None => acc
      end
  end.

Fixpoint trimStart (s : string) : string :=
  match s with
  | EmptyString => EmptyString
  | String c rest => if isWhiteSpace c then trimStart rest else s
  end.

Definition stripSign (s : string) : Z * string :=
  match s with
  | String c rest =>
      if Ascii.eqb c "-"%char then (-1, rest)
      else if Ascii.eqb c "+"%char then (1, rest)
      else (1, s)
  | EmptyString => (1, s)
  end.

Definition stripHexPrefix (s : string) : string :=
  match s with
  | String z (String x rest) =>
      if Ascii.eqb z "0"%char && (Ascii.eqb x "x"%char || Ascii.eqb x "X"%char)
      then rest else s
  | _ => s
  end.

Definition parseInt16 (s : string) : JsNumber :=
  let (sign, unsigned) := stripSign (trimStart s) in
  let digits := stripHexPrefix unsigned in
  match digits with
  | EmptyString => NaN
  | String c _ =>
      match hexValue c with
      | Some _ => Num (sign * parseHexDigits digits 0)
      | None => NaN
      end
  end.

(** Storing a number into a [Uint8Array]. *)
Definition toUint8 (x : Z) : Z := x mod 256.

(** The loop of [hexToBytes]: [hex.substring(i, i + 2)] for
    [i = 0, 2, 4, ...]. *)
Fixpoint hexLoop (hex : string) : Result JsError (list Z) :=
  match hex with
  | EmptyString => Ok []
  | String a EmptyString =>
      match parseInt16 (String a EmptyString) with
      | NaN => Throw (Error "Invalid hex character")
      | Num byte => Ok [toUint8 byte]
      end
  | String a (String b rest) =>
      match parseInt16 (String a (String b EmptyString)) with
      | NaN => Throw (Error "Invalid hex character")
      | Num byte =>
          match hexLoop rest with
          | Throw e => Throw e
          | Ok bytes => Ok (toUint8 byte :: bytes)
          end
      end
  end.

Definition hexToBytes (hex : string) : Result JsError (list Z) :=
  if negb (Z.rem (len hex) 2 =? 0) then Throw (Error "Invalid hex string")
  else hexLoop hex.

(** [/^[a-f0-9]{64}$/i.test(key)] *)
Definition isValidSigningKey (key : string) : bool :=
  match takeClass 64 isHexCI key with
  | Some (_, rest) => isEmpty rest
  | None => false
  end.

(** [generateSigningKey()]: the 32 bytes of [getRandomBytes(32)], in hex. *)
Definition generateSigningKey (entropy : list Z) : option (string * list Z) :=
  if (32 <=? List.length entropy)%nat
  then Some (bytesToHex (firstn 32 entropy), skipn 32 entropy)
  else None.

End Crypto.

Import Crypto.

(** ** Random bytes *)

Module Entropy.

Definition isByte (b : Z) : bool := (0 <=? b) && (b <=? 255).

(** The next [n] draws of four bytes each have a first byte below 128, so
    that the word they form is below 2^31. *)
Fixpoint plainDraws (n : nat) (entropy : list Z) : bool :=
  match n with
  | O => true
  | S n' =>
      match entropy with
      | b0 :: b1 :: b2 :: b3 :: rest =>
          isByte b0 && (b0 <=? 127) && isByte b1 && isByte b2 && isByte b3
          && plainDraws n' rest
      | _ => false
      end
  end.


End Entropy.

Import Entropy.

(** ** Pairs of hexadecimal digits *)

Module Hex.

(** The two characters [bytesToHex] writes for one byte. *)
Definition hexPair (b : Z) : string := padStart0 2 (toStringHex b).

Definition isLowerHex (c : ascii) : bool :=
  isDigitChar c || ((97 <=? code c) && (code c <=? 102)).

Definition pairReadsBack (b : Z) : bool :=
  match hexPair b with
  | String x (String y EmptyString) =>
      isLowerHex x && isLowerHex y
      && match parseInt16 (hexPair b) with
         | Num v => toUint8 v =? b
         | NaN => false
         end
  | _ => false
  end.

(** One pair of hexadecimal digits, of either case, is read as a byte
    that [bytesToHex] writes back in lower case. *)
Definition pairWritesBack (x y : ascii) : bool :=
  if isHexCI x && isHexCI y then
    match parseInt16 (String x (String y EmptyString)) with
    | Num v =>
        isByte v && (toUint8 v =? v)
        && String.eqb (hexPair v)
             (String (toLowerCaseChar x) (String (toLowerCaseChar y) EmptyString))
    | NaN => false
    end
  else true.

(** A hexadecimal digit followed by a character that is not one. *)
Definition pairTruncated (d c : ascii) : bool :=
  if isHexCI d && negb (isHexCI c)
  then
    if Ascii.eqb d "0"%char && (Ascii.eqb c "x"%char || Ascii.eqb c "X"%char)
    then match hexToBytes (String d (String c EmptyString)) with
         | Throw _ => true
         | Ok _ => false
         end
    else match hexValue d, hexToBytes (String d (String c EmptyString)) with
         | Some v, Ok [byte] => byte =? v
         | _, _ => false
         end
  else true.

End Hex.

Import Hex.

(** ** The verification utilities of the web bundle

    The web application carries its own copies of the validators
    (unnamed/part_006: "inlined from @rscp/core"). *)

Module Web.

Definition ISO7064_ALPHABET : string := "0123456789ABCDEFGHIJKLMNOPQRSTUVWXYZ".

Definition DAMM_TABLE : list (list Z) :=
  [ [0; 3; 1; 7; 5; 9; 8; 6; 4; 2];
    [7; 0; 9; 2; 1; 5; 4; 8; 6; 3];
    [4; 2; 0; 6; 8; 7; 1; 3; 5; 9];
    [1; 7; 5; 0; 9; 8; 3; 4; 2; 6];
    [6; 1; 2; 3; 0; 4; 5; 9; 7; 8];
    [3; 6; 7; 4; 2; 0; 9; 5; 8; 1];
    [5; 8; 6; 9; 7; 2; 0; 1; 3; 4];
    [8; 9; 4; 5; 3; 6; 2; 0; 1; 7];
    [9; 4; 3; 8; 6; 1; 7; 2; 0; 5];
    [2; 5; 8; 1; 4; 3; 6; 7; 9; 0] ].

Definition VERIFICATION_CODE_ALPHABET : string := "ABCDEFGHJKMNPQRSTUVWXYZ23456789".

Definition CODE_TO_LEVEL : list (string * string) :=
  [ ("B", "bronze"); ("S", "silver"); ("G", "gold") ].

(** The loop of the web copy of [calculateISO7064Check]. *)
Fixpoint iso7064Loop (chars : string) (remainder : Z) : Result JsError Z :=
  match chars with
  | EmptyString => Ok remainder
  | String char rest =>
      let index := indexOf ISO7064_ALPHABET char in
      if index =? -1 then
        Throw (Error ("Invalid character '" ++ char1 char ++ "'"))
      else iso7064Loop rest (iso7064Step remainder index)
  end.

Definition calculateISO7064Check (input : string) : Result JsError string :=
  let upperInput := toUpperCase input in
  match iso7064Loop upperInput 10 with
  | Throw e => Throw e
  | Ok remainder =>
      let checkValue := Z.rem (11 - remainder) 10 in
      Ok (if checkValue =? 10 then "X" else numberToString (Num checkValue))
  end.

(** [try { return calculateISO7064Check(input) === checkDigit.toUpperCase() }
     catch { return false }] *)
Definition verifyISO7064 (input checkDigit : string) : bool :=
  match calculateISO7064Check input with
  | Ok calculated => String.eqb calculated (toUpperCase checkDigit)
  | Throw _ => false
  end.

Definition charToDigit (char : ascii) : Result JsError Z :=
  let upperChar := toUpperCaseChar char in
  let index := indexOf VERIFICATION_CODE_ALPHABET upperChar in
  if index =? -1 then Throw (Error ("Invalid character '" ++ char1 char ++ "'"))
  else Ok (Z.rem index 10).

(** The loop of the web copy of [validateDammFull]:
    [interim = DAMM_TABLE[interim]![digit]!].  The interim value is a
    number or [undefined] ([None]); the result is [None] when the body
    throws: a character outside the alphabet, or the [TypeError] of
    indexing a row that is [undefined]. *)
Fixpoint dammLoop (chars : string) (interim : option Z) : option (option Z) :=
  match chars with
  | EmptyString => Some interim
  | String char rest =>
      match charToDigit char with
      | Throw _ => None
      | Ok digit =>
          match interim with
          | None => None
          | Some i =>
              match at_ DAMM_TABLE i with
              | None => None
              | Some row => dammLoop rest (at_ row digit)
              end
          end
      end
  end.

Definition validateDammFull (fullString : string) : bool :=
  if len fullString <? 2 then false
  else
    match dammLoop (toUpperCase fullString) (Some 0) with
    | Some (Some interim) => interim =? 0
    | _ => false
    end.

Record CertificateNumberParts : Type := {
  full : string;
  year : JsNumber;
  levelCode : string;
  level : string;
  country : string;
  issuerCode : string;
  serial : JsNumber;
  checkDigit : string
}.

(** The class [[0-9X]] under the [i] flag. *)
Definition isCheckCI (c : ascii) : bool := isDigitChar c || eqCI c "X"%char.

(** [s.match(/^RS-(\d{4})-([BSG])-([A-Z]{2})-([A-Z]{3})-(\d{6})-([0-9X])$/i)] *)
Definition matchCertificatePattern (s : string)
  : option (string * string * string * string * string * string) :=
  match list_ascii_of_string s with
  | [r; s'; h1; y1; y2; y3; y4; h2; l; h3; c1; c2; h4; i1; i2; i3; h5;
     d1; d2; d3; d4; d5; d6; h6; k] =>
      if eqCI r "R"%char && eqCI s' "S"%char && isHyphen h1
         && isDigitChar y1 && isDigitChar y2 && isDigitChar y3 && isDigitChar y4
         && isHyphen h2 && isLevelCI l && isHyphen h3
         && isLetterCI c1 && isLetterCI c2 && isHyphen h4
         && isLetterCI i1 && isLetterCI i2 && isLetterCI i3 && isHyphen h5
         && isDigitChar d1 && isDigitChar d2 && isDigitChar d3
         && isDigitChar d4 && isDigitChar d5 && isDigitChar d6
         && isHyphen h6 && isCheckCI k
      then Some (str [y1; y2; y3; y4], str [l], str [c1; c2], str [i1; i2; i3],
                 str [d1; d2; d3; d4; d5; d6], str [k])
      else None
  | _ => None
  end.

Definition parseCertificateNumber (certNumber : string)
  : option CertificateNumberParts :=
  match matchCertificatePattern (toUpperCase certNumber) with
  | None => None
  | Some (yearStr, levelCode, country, issuerCode, serialStr, checkDigit) =>
      match lookupKey CODE_TO_LEVEL levelCode with
      | None => None
      | Some level =>
          Some {| full := toUpperCase certNumber;
                  year := parseInt10 yearStr;
                  levelCode := levelCode;
                  level := level;
                  country := country;
                  issuerCode := issuerCode;
                  serial := parseInt10 serialStr;
                  checkDigit := checkDigit |}
      end
  end.

(** [s.slice(0, -1)] *)
Definition dropLast (s : string) : string :=
  String.substring 0 (String.length s - 1) s.

Definition validateCertificateNumber (certNumber : string) : bool :=
  match parseCertificateNumber certNumber with
  | None => false
  | Some parsed =>
      let withoutCheck :=
        dropLast (filterString (fun c => negb (isHyphen c)) (toUpperCase certNumber)) in
      verifyISO7064 withoutCheck (checkDigit parsed)
  end.

Definition validateVerificationCode (code : string) : bool :=
  let clean := toUpperCase (filterString (fun c => negb (isSeparator c)) code) in
  if negb (len clean =? 8) then false
  else validateDammFull clean.

Definition formatVerificationCode (code : string) : string :=
  let clean := toUpperCase (filterString (fun c => negb (isSeparator c)) code) in
  if negb (len clean =? 8) then toUpperCase code
  else slice clean 0 4 ++ "-" ++ sliceFrom clean 4.

(** The fields of [QRCodeData] that [verifyCertificate] reads. *)
Record QRCodeData : Type := {
  qr_cert : JsValue;
  qr_code : JsValue;
  qr_validUntil : JsValue
}.

Record VerificationResult : Type := {
  valid : bool;
  certificateValid : bool;
  codeValid : bool;
  expired : bool;
  parsed : option CertificateNumberParts;
  qrData : option QRCodeData;
  errors : list string
}.

Section Verification.

(** [JSON.parse] and the clock belong to the host: [parseQRData] and
    [isExpired] are taken as they come. *)
Variable parseQRData : string -> option QRCodeData.
Variable isExpired : JsValue -> bool.

(** [qrData?.validUntil] *)
Definition validUntilOf (qrData : option QRCodeData) : JsValue :=
  match qrData with
  | Some q => qr_validUntil q
  | None => JsUndefined
  end.

Definition verifyCertificate (certificateNumber verificationCode : string)
  (qrDataString : option string) : VerificationResult :=
  let errors0 : list string := [] in
  let qrData :=
    match qrDataString with
    | Some s => if isEmpty s then None else parseQRData s
    | None => None
    end in
  let certificateValid := validateCertificateNumber certificateNumber in
  let errors1 :=
    if negb certificateValid
    then (errors0 ++ ["Invalid certificate number format or check digit"])%list
    else errors0 in
  let parsed := parseCertificateNumber certificateNumber in
  let errors2 :=
    if match parsed with None => true | Some _ => false end && certificateValid
    then (errors1 ++ ["Could not parse certificate number"])%list
    else errors1 in
  let codeValid := validateVerificationCode verificationCode in
  let errors3 :=
    if negb codeValid
    then (errors2 ++ ["Invalid verification code format or check digit"])%list
    else errors2 in
  let expired :=
    if truthy (validUntilOf qrData) then isExpired (validUntilOf qrData)
    else false in
  let errors4 :=
    if expired then (errors3 ++ ["Certificate has expired"])%list else errors3 in
  {| valid := certificateValid && codeValid && negb expired;
     certificateValid := certificateValid;
     codeValid := codeValid;
     expired := expired;
     parsed := parsed;
     qrData := qrData;
     errors := errors4 |}.

End Verification.

End Web.

(** ** identifiers/index.ts: all identifiers of a credential *)

Module Bundle.

Record AllIdentifiers : Type := {
  ai_certificateNumber : string;
  ai_verificationCode : string;
  ai_credentialId : string;
  ai_issuerDid : string
}.

(** [generateAllIdentifiers(options)]: the four properties are computed
    in the order they are written; the verification code draws from the
    random source. *)
Definition generateAllIdentifiers (options : GenerateCertificateNumberOptions)
  (entropy : list Z) : option (Result JsError AllIdentifiers * list Z) :=
  match generateCertificateNumber options with
  | Throw e => Some (Throw e, entropy)
  | Ok certificateNumber =>
      match generateVerificationCodeWith entropy with
      | None => None
      | Some (Throw e, rest) => Some (Throw e, rest)
      | Some (Ok verificationCode, rest) =>
          Some (Ok {| ai_certificateNumber := certificateNumber;
                      ai_verificationCode := verificationCode;
                      ai_credentialId :=
                        generateCredentialId (opt_issuerCode options)
                          (opt_year options) (opt_serial options);
                      ai_issuerDid := generateIssuerDid (opt_issuerCode options) |},
                rest)
      end
  end.

End Bundle.

Import Bundle.

(** * Facts *)

(** ** Characters and strings *)

Section StringFacts.

Lemma mapString_app (f : ascii -> ascii) (s t : string) :
  mapString f (s ++ t) = mapString f s ++ mapString f t.
Proof.
  induction s as [|c s IH]; simpl; [reflexivity | now rewrite IH].
Qed.

Lemma mapString_length (f : ascii -> ascii) (s : string) :
  String.length (mapString f s) = String.length s.
Proof.
  induction s as [|c s IH]; simpl; [reflexivity | now rewrite IH].
Qed.

Lemma mapString_id (f : ascii -> ascii) (s : string) :
  forallString (fun c => Ascii.eqb (f c) c) s = true -> mapString f s = s.
Proof.
  induction s as [|c s IH]; simpl; intros H; [reflexivity|].
  apply andb_true_iff in H as [Hc Hs].
  apply Ascii.eqb_eq in Hc. rewrite Hc, IH by exact Hs. reflexivity.
Qed.

Lemma forallString_impl (p q : ascii -> bool) (s : string) :
  (forall c, p c = true -> q c = true) ->
  forallString p s = true -> forallString q s = true.
Proof.
  intros Hpq. induction s as [|c s IH]; simpl; intros H; [reflexivity|].
  apply andb_true_iff in H as [Hc Hs].
  rewrite (Hpq _ Hc), IH by exact Hs. reflexivity.
Qed.

Lemma forallString_app (p : ascii -> bool) (s t : string) :
  forallString p (s ++ t) = forallString p s && forallString p t.
Proof.
  induction s as [|c s IH]; simpl; [reflexivity|].
  rewrite IH. now rewrite andb_assoc.
Qed.

Lemma filterString_id (p : ascii -> bool) (s : string) :
  forallString p s = true -> filterString p s = s.
Proof.
  induction s as [|c s IH]; simpl; intros H; [reflexivity|].
  apply andb_true_iff in H as [Hc Hs].
  rewrite Hc, IH by exact Hs. reflexivity.
Qed.

Lemma append_length (s t : string) :
  String.length (s ++ t) = (String.length s + String.length t)%nat.
Proof.
  induction s as [|c s IH]; simpl; [reflexivity | now rewrite IH].
Qed.

Lemma append_assoc (s t u : string) : (s ++ t) ++ u = s ++ (t ++ u).
Proof.
  induction s as [|c s IH]; simpl; [reflexivity | now rewrite IH].
Qed.

(** A statement about every character, settled by running through the
    256 code units. *)
Lemma ascii_all (p : ascii -> bool) :
  forallb p (map ascii_of_nat (seq 0 256)) = true -> forall c, p c = true.
Proof.
  intros H c. rewrite forallb_forall in H. apply H.
  rewrite <- (ascii_nat_embedding c). apply in_map.
  apply in_seq. pose proof (nat_ascii_bounded c). lia.
Qed.

Lemma toUpperCaseChar_idem (c : ascii) :
  toUpperCaseChar (toUpperCaseChar c) = toUpperCaseChar c.
Proof.
  apply Ascii.eqb_eq. revert c. apply ascii_all. vm_compute. reflexivity.
Qed.

Lemma toUpperCase_idem (s : string) : toUpperCase (toUpperCase s) = toUpperCase s.
Proof.
  unfold toUpperCase. induction s as [|c s IH]; simpl; [reflexivity|].
  now rewrite toUpperCaseChar_idem, IH.
Qed.

Lemma replaceAt_split (i : nat) (c : ascii) (s : string) :
  String.get i s = Some c ->
  exists pre post,
    s = pre ++ String c post
    /\ forall c', replaceAt i c' s = pre ++ String c' post.
Proof.
  revert i. induction s as [|x s IH]; intros i H; [destruct i; discriminate|].
  destruct i as [|i]; simpl in H.
  - injection H as ->. exists EmptyString, s. split; [reflexivity|]. reflexivity.
  - destruct (IH i H) as (pre & post & Hs & Hr).
    exists (String x pre), post. split.
    + simpl. now rewrite <- Hs.
    + intros c'. simpl. now rewrite Hr.
Qed.

Lemma swapAt_split (i : nat) (a b : ascii) (s : string) :
  String.get i s = Some a -> String.get (S i) s = Some b ->
  exists pre post,
    s = pre ++ String a (String b post)
    /\ swapAt i s = pre ++ String b (String a post).
Proof.
  revert i. induction s as [|x s IH]; intros i Ha Hb; [destruct i; discriminate|].
  destruct i as [|i].
  - simpl in Ha. injection Ha as ->.
    destruct s as [|y s]; [discriminate|]. simpl in Hb. injection Hb as ->.
    exists EmptyString, s. split; reflexivity.
  - change (String.get i s = Some a) in Ha.
    change (String.get (S i) s = Some b) in Hb.
    destruct (IH i Ha Hb) as (pre & post & Hs & Hr).
    exists (String x pre), post. split.
    + simpl. now rewrite <- Hs.
    + simpl. now rewrite Hr.
Qed.

End StringFacts.

(** ** The Damm check of verification codes *)

Section DammFacts.

Lemma in_digits10 (z : Z) : 0 <= z <= 9 -> In z digits10.
Proof.
  intros H. unfold digits10.
  assert (z = 0 \/ z = 1 \/ z = 2 \/ z = 3 \/ z = 4 \/ z = 5 \/ z = 6
          \/ z = 7 \/ z = 8 \/ z = 9) as Hz by lia.
  simpl. intuition auto.
Qed.

Lemma forall2_spec (p : Z -> Z -> bool) :
  forall2 p = true ->
  forall s d, 0 <= s <= 9 -> 0 <= d <= 9 -> p s d = true.
Proof.
  unfold forall2. intros H s d Hs Hd.
  rewrite forallb_forall in H. specialize (H s (in_digits10 s Hs)).
  rewrite forallb_forall in H. exact (H d (in_digits10 d Hd)).
Qed.

Lemma forall3_spec (p : Z -> Z -> Z -> bool) :
  forall3 p = true ->
  forall s a b, 0 <= s <= 9 -> 0 <= a <= 9 -> 0 <= b <= 9 -> p s a b = true.
Proof.
  unfold forall3. intros H s a b Hs Ha Hb.
  rewrite forallb_forall in H. specialize (H s (in_digits10 s Hs)).
  exact (forall2_spec _ H a b Ha Hb).
Qed.

Lemma at_range {X : Type} (l : list X) (i : Z) (x : X) :
  at_ l i = Some x -> 0 <= i < Z.of_nat (List.length l).
Proof.
  unfold at_. destruct (Z.ltb_spec i 0) as [|Hi]; [discriminate|].
  intros H. assert (nth_error l (Z.to_nat i) <> None) as Hn by congruence.
  apply nth_error_Some in Hn. lia.
Qed.

Lemma dammStep_digits (s d n : Z) :
  dammStep s d = Some n -> 0 <= s <= 9 /\ 0 <= d <= 9.
Proof.
  unfold dammStep. destruct (at_ DAMM_TABLE s) as [row|] eqn:Hrow; [|discriminate].
  intros Hd. pose proof (at_range _ _ _ Hrow) as Hs. simpl in Hs.
  split; [lia|].
  assert (List.length row = 10%nat) as Hlen.
  { assert (In s digits10) as Hin by (apply in_digits10; lia).
    simpl in Hin.
    repeat (destruct Hin as [<- | Hin];
            [vm_compute in Hrow; injection Hrow as <-; reflexivity|]).
    destruct Hin. }
  pose proof (at_range _ _ _ Hd) as Hd'. rewrite Hlen in Hd'. lia.
Qed.

Lemma dammStep_closed (s d n : Z) : dammStep s d = Some n -> 0 <= n <= 9.
Proof.
  intros H. destruct (dammStep_digits _ _ _ H) as [Hs Hd].
  pose proof (forall2_spec _ (eq_refl : closed = true) s d Hs Hd) as Hc.
  simpl in Hc. rewrite H in Hc. simpl in Hc. lia.
Qed.

Lemma dammStep_total (s d : Z) :
  0 <= s <= 9 -> 0 <= d <= 9 -> exists n, dammStep s d = Some n.
Proof.
  intros Hs Hd.
  pose proof (forall2_spec _ (eq_refl : closed = true) s d Hs Hd) as Hc.
  simpl in Hc. destruct (dammStep s d) as [n|]; [now exists n | discriminate].
Qed.

Lemma dammStep_row_injective (s a b n : Z) :
  dammStep s a = Some n -> dammStep s b = Some n -> a = b.
Proof.
  intros Ha Hb.
  destruct (dammStep_digits _ _ _ Ha) as [Hs Hda].
  destruct (dammStep_digits _ _ _ Hb) as [_ Hdb].
  pose proof (forall3_spec _ (eq_refl : rowsInjective = true) s a b Hs Hda Hdb) as H.
  simpl in H. rewrite Ha, Hb in H. simpl in H. rewrite Z.eqb_refl in H.
  simpl in H. rewrite orb_false_r in H. now apply Z.eqb_eq.
Qed.

Lemma dammStep_column_injective (s t d n : Z) :
  dammStep s d = Some n -> dammStep t d = Some n -> s = t.
Proof.
  intros Hs Ht.
  destruct (dammStep_digits _ _ _ Hs) as [Hrs Hd].
  destruct (dammStep_digits _ _ _ Ht) as [Hrt _].
  pose proof (forall3_spec _ (eq_refl : columnsInjective = true) d s t Hd Hrs Hrt) as H.
  simpl in H. rewrite Hs, Ht in H. simpl in H. rewrite Z.eqb_refl in H.
  simpl in H. rewrite orb_false_r in H. now apply Z.eqb_eq.
Qed.

Lemma dammStep_anti_symmetric (s a b m n r : Z) :
  dammStep s a = Some m -> dammStep m b = Some r ->
  dammStep s b = Some n -> dammStep n a = Some r ->
  a = b.
Proof.
  intros Hsa Hmb Hsb Hna.
  destruct (dammStep_digits _ _ _ Hsa) as [Hs Hda].
  destruct (dammStep_digits _ _ _ Hsb) as [_ Hdb].
  pose proof (forall3_spec _ (eq_refl : antiSymmetric = true) s a b Hs Hda Hdb) as H.
  simpl in H. rewrite Hsa, Hsb in H. simpl in H. rewrite Hmb, Hna in H.
  simpl in H. rewrite Z.eqb_refl in H.
  simpl in H. rewrite orb_false_r in H. now apply Z.eqb_eq.
Qed.

(** The loop of [validateDammFull], one character at a time. *)
Lemma validateLoop_cons (c : ascii) (rest : string) (s : Z) :
  validateLoop (String c rest) s =
    match charToDigit c with
    | Throw _ => None
    | Ok d =>
        match dammStep s d with
        | Some n => validateLoop rest n
        | None => None
        end
    end.
Proof.
  simpl. unfold dammStep. destruct (charToDigit c); [|reflexivity].
  destruct (at_ DAMM_TABLE s); reflexivity.
Qed.

Lemma validateLoop_app (pre post : string) (s : Z) :
  validateLoop (pre ++ post) s =
    match validateLoop pre s with
    | Some m => validateLoop post m
    | None => None
    end.
Proof.
  revert s. induction pre as [|c pre IH]; intros s; [reflexivity|].
  change (String c pre ++ post) with (String c (pre ++ post)).
  rewrite !validateLoop_cons.
  destruct (charToDigit c) as [d|]; [|reflexivity].
  destruct (dammStep s d) as [n|]; [apply IH | reflexivity].
Qed.

(** Two runs over the same characters from two different states never
    meet again. *)
Lemma validateLoop_separates (post : string) :
  forall s t r, validateLoop post s = Some r -> validateLoop post t = Some r -> s = t.
Proof.
  induction post as [|c post IH]; intros s t r Hs Ht.
  - simpl in Hs, Ht. congruence.
  - rewrite validateLoop_cons in Hs, Ht.
    destruct (charToDigit c) as [d|]; [|discriminate].
    destruct (dammStep s d) as [n|] eqn:Hn; [|discriminate].
    destruct (dammStep t d) as [m|] eqn:Hm; [|discriminate].
    assert (n = m) as -> by (eapply IH; eassumption).
    eapply dammStep_column_injective; eassumption.
Qed.

Lemma accepted_inv (code : string) :
  accepted code = true -> validateLoop code 0 = Some 0.
Proof.
  unfold accepted. destruct (validateLoop code 0) as [r|]; [|discriminate].
  intros H. apply Z.eqb_eq in H. now subst.
Qed.

Lemma alphabet_char_clean (c : ascii) :
  inAlphabet VERIFICATION_CODE_ALPHABET c = true ->
  Ascii.eqb (toUpperCaseChar c) c = true /\ negb (isSeparator c) = true.
Proof.
  intros H. apply andb_true_iff. revert H.
  assert (implb (inAlphabet VERIFICATION_CODE_ALPHABET c)
            (Ascii.eqb (toUpperCaseChar c) c && negb (isSeparator c)) = true) as Hc.
  { revert c. apply ascii_all. vm_compute. reflexivity. }
  intros H. now rewrite H in Hc.
Qed.

Lemma alphabet_string_clean (code : string) :
  forallString (inAlphabet VERIFICATION_CODE_ALPHABET) code = true ->
  toUpperCase code = code /\ cleanCode code = code.
Proof.
  intros H.
  assert (toUpperCase code = code) as Hup.
  { apply mapString_id. revert H. apply forallString_impl.
    intros c Hc. now apply alphabet_char_clean. }
  split; [exact Hup|]. unfold cleanCode. rewrite filterString_id; [exact Hup|].
  revert H. apply forallString_impl. intros c Hc. now apply alphabet_char_clean.
Qed.

(** On eight characters of the alphabet, [validateVerificationCode] is the
    table run. *)
Lemma validateVerificationCode_alphabet (code : string) :
  String.length code = 8%nat ->
  forallString (inAlphabet VERIFICATION_CODE_ALPHABET) code = true ->
  validateVerificationCode code = accepted code
  /\ validateDammFull code = accepted code.
Proof.
  intros Hlen Hall. destruct (alphabet_string_clean code Hall) as [Hup Hclean].
  unfold validateVerificationCode, validateDammFull, accepted, len.
  rewrite Hclean, Hup, Hlen. simpl. split; reflexivity.
Qed.

Lemma accepted_false (code : string) :
  (forall r, validateLoop code 0 = Some r -> r <> 0) -> accepted code = false.
Proof.
  unfold accepted. intros H. destruct (validateLoop code 0) as [r|]; [|reflexivity].
  apply Z.eqb_neq. now apply H.
Qed.

(** A substitution that changes the digit of one character is detected by
    the table run. *)
Lemma accepted_substitution (pre post : string) (c c' : ascii) :
  accepted (pre ++ String c post) = true ->
  charToDigit c' <> charToDigit c ->
  accepted (pre ++ String c' post) = false.
Proof.
  intros Hok Hdiff. apply accepted_inv in Hok.
  apply accepted_false. intros r Hr ->.
  rewrite validateLoop_app in Hok, Hr.
  destruct (validateLoop pre 0) as [m|]; [|discriminate].
  rewrite validateLoop_cons in Hok, Hr.
  destruct (charToDigit c) as [d|]; [|discriminate].
  destruct (charToDigit c') as [d'|]; [|discriminate].
  destruct (dammStep m d) as [n|] eqn:Hn; [|discriminate].
  destruct (dammStep m d') as [n'|] eqn:Hn'; [|discriminate].
  assert (n = n') as <- by (eapply validateLoop_separates; eassumption).
  apply Hdiff. f_equal. eapply dammStep_row_injective; eassumption.
Qed.

(** An exchange of two neighbours with different digits is detected by
    the table run. *)
Lemma accepted_transposition (pre post : string) (a b : ascii) :
  accepted (pre ++ String a (String b post)) = true ->
  charToDigit a <> charToDigit b ->
  accepted (pre ++ String b (String a post)) = false.
Proof.
  intros Hok Hdiff. apply accepted_inv in Hok.
  apply accepted_false. intros r Hr ->.
  rewrite validateLoop_app in Hok, Hr.
  destruct (validateLoop pre 0) as [m|]; [|discriminate].
  rewrite validateLoop_cons in Hok, Hr.
  destruct (charToDigit a) as [da|] eqn:Ea; [|discriminate].
  destruct (charToDigit b) as [db|] eqn:Eb; [|discriminate].
  destruct (dammStep m da) as [n1|] eqn:H1; [|discriminate].
  destruct (dammStep m db) as [n2|] eqn:H2; [|discriminate].
  rewrite validateLoop_cons in Hok, Hr. rewrite Eb in Hok. rewrite Ea in Hr.
  destruct (dammStep n1 db) as [r1|] eqn:H3; [|discriminate].
  destruct (dammStep n2 da) as [r2|] eqn:H4; [|discriminate].
  assert (r1 = r2) as <- by (eapply validateLoop_separates; eassumption).
  apply Hdiff. f_equal.
  exact (dammStep_anti_symmetric m da db n1 n2 r1 H1 H3 H2 H4).
Qed.

(** [C4], as amended.  For every accepted 8-character code over the
    verification-code alphabet: replacing one character by an alphabet
    character with a different Damm digit (alphabet index modulo 10) gives
    a code that [validateVerificationCode] rejects, and exchanging two
    neighbouring characters with different Damm digits gives a code that
    [validateVerificationCode] rejects. *)
Theorem validateVerificationCode_detects_digit_errors (code : string) :
  String.length code = 8%nat ->
  forallString (inAlphabet VERIFICATION_CODE_ALPHABET) code = true ->
  validateVerificationCode code = true ->
  (forall i c c',
      String.get i code = Some c ->
      inAlphabet VERIFICATION_CODE_ALPHABET c' = true ->
      charToDigit c' <> charToDigit c ->
      validateVerificationCode (replaceAt i c' code) = false)
  /\ (forall i a b,
         String.get i code = Some a ->
         String.get (S i) code = Some b ->
         charToDigit a <> charToDigit b ->
         validateVerificationCode (swapAt i code) = false).
Proof.
  intros Hlen Hall Hok.
  destruct (validateVerificationCode_alphabet code Hlen Hall) as [Hv _].
  rewrite Hv in Hok. split.
  - intros i c c' Hget Hc' Hdiff.
    destruct (replaceAt_split i c code Hget) as (pre & post & Hcode & Hrep).
    rewrite Hrep. subst code.
    rewrite forallString_app in Hall. simpl in Hall.
    apply andb_true_iff in Hall as [Hpre Hpost].
    apply andb_true_iff in Hpost as [_ Hpost].
    destruct (validateVerificationCode_alphabet (pre ++ String c' post)) as [-> _].
    + rewrite append_length in *. simpl in *. exact Hlen.
    + rewrite forallString_app. simpl. now rewrite Hpre, Hc', Hpost.
    + now apply accepted_substitution with (c := c).
  - intros i a b Ha Hb Hdiff.
    destruct (swapAt_split i a b code Ha Hb) as (pre & post & Hcode & Hswap).
    rewrite Hswap. subst code.
    rewrite forallString_app in Hall. simpl in Hall.
    apply andb_true_iff in Hall as [Hpre Hpost].
    apply andb_true_iff in Hpost as [Hca Hpost].
    apply andb_true_iff in Hpost as [Hcb Hpost].
    destruct (validateVerificationCode_alphabet
                (pre ++ String b (String a post))) as [-> _].
    + rewrite append_length in *. simpl in *. exact Hlen.
    + rewrite forallString_app. simpl. now rewrite Hpre, Hca, Hcb, Hpost.
    + now apply accepted_transposition.
Qed.

Lemma validateVerificationCode_detects_digit_errors_witness :
  validateVerificationCode (replaceAt 0 "B" "ABCDEFGG") = false
  /\ validateVerificationCode (swapAt 2 "ABCDEFGG") = false.
Proof.
  destruct (validateVerificationCode_detects_digit_errors "ABCDEFGG")
    as [Hsub Hswap]; try reflexivity.
  split.
  - apply (Hsub 0%nat "A"%char "B"%char); [reflexivity | reflexivity |].
    vm_compute. discriminate.
  - apply (Hswap 2%nat "C"%char "D"%char); [reflexivity | reflexivity |].
    vm_compute. discriminate.
Defined.

(** [C4], as stated, fails on both counts: characters that share a Damm
    digit are interchangeable.  ["A"] and ["M"] sit at alphabet positions
    0 and 10. *)
Lemma validateVerificationCode_misses_same_digit_errors :
  ~ (forall code i c c',
        String.length code = 8%nat ->
        forallString (inAlphabet VERIFICATION_CODE_ALPHABET) code = true ->
        validateVerificationCode code = true ->
        String.get i code = Some c ->
        inAlphabet VERIFICATION_CODE_ALPHABET c' = true ->
        c' <> c ->
        validateVerificationCode (replaceAt i c' code) = false)
  /\ ~ (forall code i a b,
           String.length code = 8%nat ->
           forallString (inAlphabet VERIFICATION_CODE_ALPHABET) code = true ->
           validateVerificationCode code = true ->
           String.get i code = Some a ->
           String.get (S i) code = Some b ->
           a <> b ->
           validateVerificationCode (swapAt i code) = false).
Proof.
  split; intros H.
  - assert (validateVerificationCode (replaceAt 7 "M" "AAAAAAAA") = false) as Hf.
    { apply (H "AAAAAAAA" 7%nat "A"%char "M"%char); try reflexivity. discriminate. }
    vm_compute in Hf. discriminate.
  - assert (validateVerificationCode (swapAt 6 "AAAAAAAM") = false) as Hf.
    { apply (H "AAAAAAAM" 6%nat "A"%char "M"%char); try reflexivity. discriminate. }
    vm_compute in Hf. discriminate.
Qed.

(** The alphabet of verification codes has 31 characters: the letters
    without I, L and O, and the digits 2 to 9. *)
Lemma VERIFICATION_CODE_ALPHABET_length :
  String.length VERIFICATION_CODE_ALPHABET = 31%nat.
Proof. reflexivity. Qed.

Lemma validateLoop_dammLoop (chars : string) (interim : Z) :
  validateLoop chars interim =
    match dammLoop chars interim with
    | Ok r => Some r
    | Throw _ => None
    end.
Proof.
  revert interim. induction chars as [|c chars IH]; intros interim; [reflexivity|].
  simpl. destruct (charToDigit c) as [d|]; [|reflexivity].
  destruct (at_ DAMM_TABLE interim) as [row|]; [|reflexivity].
  destruct (at_ row d) as [n|]; [apply IH | reflexivity].
Qed.

Lemma validateLoop_digit (chars : string) :
  forall s r, 0 <= s <= 9 -> validateLoop chars s = Some r -> 0 <= r <= 9.
Proof.
  induction chars as [|c chars IH]; intros s r Hs H.
  - simpl in H. injection H as <-. exact Hs.
  - rewrite validateLoop_cons in H.
    destruct (charToDigit c) as [d|]; [|discriminate].
    destruct (dammStep s d) as [n|] eqn:Hn; [|discriminate].
    eapply IH; [|exact H]. eapply dammStep_closed; eassumption.
Qed.

Lemma findCheck_range (count : nat) :
  forall d0 interim d,
    findCheck count d0 interim = Some d -> d0 <= d < d0 + Z.of_nat count.
Proof.
  induction count as [|count IH]; intros d0 interim d H; [discriminate|].
  simpl in H.
  assert (findCheck count (d0 + 1) interim = Some d -> d0 <= d < d0 + Z.of_nat (S count))
    as Hnext by (intros H'; apply IH in H'; lia).
  destruct (at_ DAMM_TABLE interim) as [row|]; [|now apply Hnext].
  destruct (at_ row d0) as [[|p|p]|]; try now apply Hnext.
  injection H as <-. lia.
Qed.

Lemma charToDigit_upper (c : ascii) (d : Z) :
  charToDigit c = Ok d -> charToDigit (toUpperCaseChar c) = Ok d.
Proof.
  unfold charToDigit. rewrite toUpperCaseChar_idem.
  destruct (indexOf VERIFICATION_CODE_ALPHABET (toUpperCaseChar c) =? -1);
    [discriminate | trivial].
Qed.

(** [calculateDammCheck] only ever returns one of the first ten characters
    of the alphabet. *)
Lemma calculateDammCheck_firstTen (input c : string) :
  calculateDammCheck input = Ok c -> In c firstTen.
Proof.
  unfold calculateDammCheck.
  destruct (dammLoop (toUpperCase input) 0) as [interim|]; [|discriminate].
  destruct (findCheck 10 0 interim) as [d|] eqn:Hd.
  - apply findCheck_range in Hd. intros H. injection H as <-.
    assert (In d digits10) as Hin by (apply in_digits10; lia).
    simpl in Hin.
    repeat (destruct Hin as [<- | Hin]; [vm_compute; tauto|]).
    destruct Hin.
  - intros H. injection H as <-. vm_compute. tauto.
Qed.

(** The check character computed for a base completes it to an accepted
    string, and so does every character with the same Damm digit. *)
Lemma validateDammFull_same_digit (base : string) (check c : ascii) (d : Z) :
  (1 <= String.length base)%nat ->
  calculateDammCheck base = Ok (char1 check) ->
  charToDigit check = Ok d ->
  charToDigit c = Ok d ->
  validateDammFull (base ++ char1 c) = true.
Proof.
  intros Hlen Hcalc Hcheck Hc.
  unfold validateDammFull, len. rewrite append_length. simpl.
  destruct (Z.ltb_spec (Z.of_nat (String.length base + 1)) 2) as [|_]; [lia|].
  unfold toUpperCase. rewrite mapString_app. simpl.
  rewrite validateLoop_app, validateLoop_dammLoop.
  unfold calculateDammCheck, toUpperCase in Hcalc.
  destruct (dammLoop (mapString toUpperCaseChar base) 0) as [interim|] eqn:Hloop;
    [|discriminate].
  assert (0 <= interim <= 9) as Hrange.
  { apply (validateLoop_digit (mapString toUpperCaseChar base) 0); [lia|].
    now rewrite validateLoop_dammLoop, Hloop. }
  pose proof (eq_refl : checkFound = true) as Hfound.
  unfold checkFound in Hfound. rewrite forallb_forall in Hfound.
  specialize (Hfound interim (in_digits10 _ Hrange)).
  destruct (findCheck 10 0 interim) as [d'|]; [|discriminate].
  apply andb_true_iff in Hfound as [Hstep Hfold].
  injection Hcalc as Hcalc. rewrite Hcalc, Hcheck in Hfold.
  apply Z.eqb_eq in Hfold. subst d'.
  rewrite validateLoop_cons, (charToDigit_upper _ _ Hc).
  destruct (dammStep interim d) as [n|]; [|discriminate].
  simpl in Hstep. apply Z.eqb_eq in Hstep. subst n. reflexivity.
Qed.

(** [C10].  [validateDammFull] and [verifyDamm] can disagree: the code
    ["AAAAAAAM"] over the verification-code alphabet is accepted by
    [validateDammFull] and [validateVerificationCode], but [verifyDamm] on
    its first seven characters and its last character returns false.
    [calculateDammCheck] only ever returns one of the first ten alphabet
    characters, while [validateDammFull] accepts every character whose
    alphabet index is congruent modulo 10 to that of the computed check
    character. *)
Theorem validateDammFull_verifyDamm_disagree :
  (exists s,
      String.length s = 8%nat
      /\ forallString (inAlphabet VERIFICATION_CODE_ALPHABET) s = true
      /\ validateDammFull s = true
      /\ validateVerificationCode s = true
      /\ verifyDamm (slice s 0 7) (sliceFrom s 7) = false)
  /\ (forall input c, calculateDammCheck input = Ok c -> In c firstTen)
  /\ (forall base check c d,
         (1 <= String.length base)%nat ->
         calculateDammCheck base = Ok (char1 check) ->
         charToDigit check = Ok d ->
         charToDigit c = Ok d ->
         validateDammFull (base ++ char1 c) = true).
Proof.
  split; [|split].
  - exists "AAAAAAAM". vm_compute. tauto.
  - exact calculateDammCheck_firstTen.
  - exact validateDammFull_same_digit.
Qed.

Lemma validateDammFull_verifyDamm_disagree_witness :
  In "A" firstTen /\ validateDammFull ("AAAAAAA" ++ char1 "M") = true.
Proof.
  destruct validateDammFull_verifyDamm_disagree as (_ & Hten & Hsame).
  split.
  - apply (Hten "AAAAAAA"). reflexivity.
  - apply (Hsame "AAAAAAA" "A"%char "M"%char 0); [simpl; lia | reflexivity ..].
Defined.

End DammFacts.

(** ** Decimal rendering and parsing of numbers *)

Section NumberFacts.

Lemma isDigitChar_digitChar (d : Z) : 0 <= d <= 9 -> isDigitChar (digitChar d) = true.
Proof.
  intros H.
  assert (d = 0 \/ d = 1 \/ d = 2 \/ d = 3 \/ d = 4 \/ d = 5 \/ d = 6
          \/ d = 7 \/ d = 8 \/ d = 9) as Hd by lia.
  repeat (destruct Hd as [-> | Hd]; [reflexivity|]). subst d. reflexivity.
Qed.

Lemma code_digitChar (d : Z) : 0 <= d <= 9 -> code (digitChar d) - 48 = d.
Proof.
  intros H.
  assert (d = 0 \/ d = 1 \/ d = 2 \/ d = 3 \/ d = 4 \/ d = 5 \/ d = 6
          \/ d = 7 \/ d = 8 \/ d = 9) as Hd by lia.
  repeat (destruct Hd as [-> | Hd]; [reflexivity|]). subst d. reflexivity.
Qed.

Lemma digitsRev_digits (fuel : nat) :
  forall n, 0 <= n -> Forall (fun c => isDigitChar c = true) (digitsRev fuel n).
Proof.
  induction fuel as [|fuel IH]; intros n Hn; simpl; [constructor|].
  destruct (Z.ltb_spec n 10).
  - constructor; [apply isDigitChar_digitChar; lia | constructor].
  - constructor.
    + apply isDigitChar_digitChar. pose proof (Z.mod_pos_bound n 10). lia.
    + apply IH. apply Z.div_pos; lia.
Qed.

Lemma digitsRev_length_le (k : nat) :
  forall fuel n, 0 <= n < 10 ^ Z.of_nat (S k) ->
                 (List.length (digitsRev fuel n) <= S k)%nat.
Proof.
  induction k as [|k IH]; intros fuel n Hn; (destruct fuel as [|fuel]; simpl; [lia|]).
  - change (10 ^ Z.of_nat 1) with 10 in Hn.
    destruct (Z.ltb_spec n 10); simpl; lia.
  - destruct (Z.ltb_spec n 10); simpl; [lia|].
    apply le_n_S. apply IH. split; [apply Z.div_pos; lia|].
    apply Z.div_lt_upper_bound; [lia|].
    replace (Z.of_nat (S (S k))) with (Z.succ (Z.of_nat (S k))) in Hn by lia.
    rewrite Z.pow_succ_r in Hn by lia. lia.
Qed.

Lemma digitsRev_length_ge (k : nat) :
  forall fuel n, 10 ^ Z.of_nat k <= n < 2 ^ Z.of_nat fuel ->
                 (S k <= List.length (digitsRev fuel n))%nat.
Proof.
  induction k as [|k IH]; intros fuel n Hn.
  - destruct fuel as [|fuel]; [simpl in Hn; lia|].
    simpl. destruct (n <? 10); simpl; lia.
  - assert (10 <= 10 ^ Z.of_nat (S k)) as Hten.
    { replace (Z.of_nat (S k)) with (Z.succ (Z.of_nat k)) by lia.
      rewrite Z.pow_succ_r by lia. pose proof (Z.pow_pos_nonneg 10 (Z.of_nat k)). lia. }
    destruct fuel as [|fuel]; [simpl in Hn; lia|].
    simpl. destruct (Z.ltb_spec n 10); [lia|].
    simpl. apply le_n_S. apply IH.
    replace (Z.of_nat (S k)) with (Z.succ (Z.of_nat k)) in Hn by lia.
    replace (Z.of_nat (S fuel)) with (Z.succ (Z.of_nat fuel)) in Hn by lia.
    rewrite !Z.pow_succ_r in Hn by lia. split.
    + apply Z.div_le_lower_bound; lia.
    + apply Z.div_lt_upper_bound; lia.
Qed.

Lemma digitsRev_value (fuel : nat) :
  forall n, 0 <= n < 2 ^ Z.of_nat fuel -> valueRev (digitsRev fuel n) = n.
Proof.
  induction fuel as [|fuel IH]; intros n Hn.
  { change (2 ^ Z.of_nat 0) with 1 in Hn. simpl. lia. }
  cbn [digitsRev]. destruct (Z.ltb_spec n 10).
  - cbn [valueRev]. rewrite code_digitChar by lia. lia.
  - cbn [valueRev]. rewrite code_digitChar by (pose proof (Z.mod_pos_bound n 10); lia).
    rewrite IH.
    + pose proof (Z.div_mod n 10). lia.
    + replace (Z.of_nat (S fuel)) with (Z.succ (Z.of_nat fuel)) in Hn by lia.
      rewrite Z.pow_succ_r in Hn by lia. split; [apply Z.div_pos; lia|].
      apply Z.div_lt_upper_bound; lia.
Qed.

Lemma log2_fuel (n : Z) : 0 <= n -> n < 2 ^ Z.of_nat (S (Z.to_nat (Z.log2 n))).
Proof.
  intros Hn. pose proof (Z.log2_nonneg n) as Hlog.
  replace (Z.of_nat (S (Z.to_nat (Z.log2 n)))) with (Z.succ (Z.log2 n)) by lia.
  destruct (Z.eq_dec n 0) as [->|Hne]; [reflexivity|].
  apply Z.log2_spec. lia.
Qed.

Lemma str_app (l1 l2 : list ascii) : str (l1 ++ l2) = str l1 ++ str l2.
Proof.
  unfold str. induction l1 as [|c l1 IH]; simpl; [reflexivity | now rewrite IH].
Qed.

Lemma forallString_str (p : ascii -> bool) (l : list ascii) :
  Forall (fun c => p c = true) l -> forallString p (str l) = true.
Proof.
  unfold str. induction 1 as [|c l Hc _ IH]; simpl; [reflexivity|].
  now rewrite Hc, IH.
Qed.

Lemma str_length (l : list ascii) : String.length (str l) = List.length l.
Proof.
  unfold str. induction l as [|c l IH]; simpl; [reflexivity | now rewrite IH].
Qed.

Lemma parseDigits_app (s t : string) :
  forallString isDigitChar s = true ->
  forall acc, parseDigits (s ++ t) acc = parseDigits t (parseDigits s acc).
Proof.
  induction s as [|c s IH]; simpl; intros H acc; [reflexivity|].
  apply andb_true_iff in H as [Hc Hs]. rewrite Hc. now apply IH.
Qed.

Lemma parseDigits_rev (l : list ascii) :
  Forall (fun c => isDigitChar c = true) l ->
  parseDigits (str (rev l)) 0 = valueRev l.
Proof.
  induction 1 as [|c l Hc Hl IH]; [reflexivity|].
  simpl rev. rewrite str_app, parseDigits_app.
  - rewrite IH. cbn [str string_of_list_ascii parseDigits valueRev].
    rewrite Hc. lia.
  - apply forallString_str. now apply Forall_rev.
Qed.

Lemma parseDigits_zeros (k : nat) (s : string) :
  parseDigits (zeros k ++ s) 0 = parseDigits s 0.
Proof.
  induction k as [|k IH]; simpl; [reflexivity | exact IH].
Qed.

Lemma forallString_zeros (k : nat) : forallString isDigitChar (zeros k) = true.
Proof.
  induction k as [|k IH]; simpl; [reflexivity | exact IH].
Qed.

Lemma zeros_length (k : nat) : String.length (zeros k) = k.
Proof.
  induction k as [|k IH]; simpl; [reflexivity | now rewrite IH].
Qed.

Lemma naturalToString_digits (n : Z) :
  0 <= n -> forallString isDigitChar (naturalToString n) = true.
Proof.
  intros Hn. apply (forallString_str isDigitChar). apply Forall_rev.
  now apply digitsRev_digits.
Qed.

Lemma naturalToString_parse (n : Z) :
  0 <= n -> parseDigits (naturalToString n) 0 = n.
Proof.
  intros Hn. unfold naturalToString.
  rewrite (parseDigits_rev _ (digitsRev_digits _ n Hn)).
  apply digitsRev_value. split; [exact Hn | now apply log2_fuel].
Qed.

Lemma naturalToString_length (k : nat) (n : Z) :
  10 ^ Z.of_nat k <= n < 10 ^ Z.of_nat (S k) ->
  String.length (naturalToString n) = S k.
Proof.
  intros Hn. assert (0 <= n) as Hpos.
  { pose proof (Z.pow_pos_nonneg 10 (Z.of_nat k)). lia. }
  unfold naturalToString.
  change (string_of_list_ascii ?l) with (str l).
  rewrite str_length, length_rev.
  apply Nat.le_antisymm.
  - apply digitsRev_length_le. lia.
  - apply digitsRev_length_ge. split; [lia | now apply log2_fuel].
Qed.

Lemma naturalToString_length_le (k : nat) (n : Z) :
  0 <= n < 10 ^ Z.of_nat (S k) ->
  (1 <= String.length (naturalToString n) <= S k)%nat.
Proof.
  intros Hn. unfold naturalToString.
  change (string_of_list_ascii ?l) with (str l).
  rewrite str_length, length_rev. split.
  - simpl. destruct (n <? 10); simpl; lia.
  - now apply digitsRev_length_le.
Qed.

Lemma parseInt10_digits (s : string) :
  (1 <= String.length s)%nat -> forallString isDigitChar s = true ->
  parseInt10 s = Num (parseDigits s 0).
Proof.
  destruct s as [|c s]; simpl; intros Hlen H; [lia|].
  apply andb_true_iff in H as [Hc _]. now rewrite Hc.
Qed.

(** A year between 1000 and 9999 renders as four digits that parse back
    to it. *)
Lemma year_rendering (y : Z) :
  1000 <= y <= 9999 ->
  hasShape 4 isDigitChar (numberToString (Num y)) = true
  /\ parseInt10 (numberToString (Num y)) = Num y.
Proof.
  intros Hy. simpl. destruct (Z.ltb_spec y 0) as [|_]; [lia|].
  assert (String.length (naturalToString y) = 4%nat) as Hlen
      by (apply (naturalToString_length 3); simpl; lia).
  assert (forallString isDigitChar (naturalToString y) = true) as Hdig
      by (apply naturalToString_digits; lia).
  split.
  - unfold hasShape. now rewrite Hlen, Hdig.
  - rewrite parseInt10_digits by first [exact Hdig | rewrite Hlen; lia].
    now rewrite naturalToString_parse by lia.
Qed.

(** A serial between 0 and 999999, padded to six places, is six digits
    that parse back to it. *)
Lemma serial_rendering (n : Z) :
  0 <= n <= 999999 ->
  hasShape 6 isDigitChar (padStart0 6 (numberToString (Num n))) = true
  /\ parseInt10 (padStart0 6 (numberToString (Num n))) = Num n.
Proof.
  intros Hn. simpl numberToString. destruct (Z.ltb_spec n 0) as [|_]; [lia|].
  assert (1 <= String.length (naturalToString n) <= 6)%nat as Hlen
      by (apply (naturalToString_length_le 5); simpl; lia).
  assert (forallString isDigitChar (naturalToString n) = true) as Hdig
      by (apply naturalToString_digits; lia).
  assert (String.length (padStart0 6 (naturalToString n)) = 6%nat) as Hpad.
  { unfold padStart0. rewrite append_length, zeros_length. lia. }
  assert (forallString isDigitChar (padStart0 6 (naturalToString n)) = true) as Hall.
  { unfold padStart0. now rewrite forallString_app, forallString_zeros, Hdig. }
  split.
  - unfold hasShape. now rewrite Hpad, Hall.
  - rewrite parseInt10_digits by first [exact Hall | rewrite Hpad; lia].
    unfold padStart0. rewrite parseDigits_zeros.
    now rewrite naturalToString_parse by lia.
Qed.

End NumberFacts.

(** ** The MOD 11,10 check of certificate numbers *)

Section ISO7064Facts.

Lemma indexOfFrom_range (alphabet : string) (c : ascii) :
  forall pos, indexOfFrom alphabet c pos = -1 \/ pos <= indexOfFrom alphabet c pos.
Proof.
  induction alphabet as [|a alphabet IH]; intros pos; simpl; [now left|].
  destruct (Ascii.eqb a c); [right; lia|].
  destruct (IH (pos + 1)) as [H|H]; [now left | right; lia].
Qed.

Lemma iso7064Step_range (remainder value : Z) :
  0 <= remainder -> 0 <= value -> 1 <= iso7064Step remainder value <= 10.
Proof.
  intros Hr Hv. unfold iso7064Step.
  pose proof (Z.rem_bound_pos (remainder + value) 10 ltac:(lia) ltac:(lia)) as Ht.
  set (t := Z.rem (remainder + value) 10) in *.
  assert (t = 0 \/ t = 1 \/ t = 2 \/ t = 3 \/ t = 4 \/ t = 5 \/ t = 6
          \/ t = 7 \/ t = 8 \/ t = 9) as Hcases by lia.
  repeat (destruct Hcases as [-> | Hcases]; [vm_compute; split; discriminate|]).
  rewrite Hcases. vm_compute; split; discriminate.
Qed.

Lemma iso7064Loop_range (chars : string) :
  forall r0 r, 1 <= r0 <= 10 -> iso7064Loop chars r0 = Ok r -> 1 <= r <= 10.
Proof.
  induction chars as [|c chars IH]; intros r0 r Hr0 H; simpl in H.
  - injection H as <-. exact Hr0.
  - destruct (Z.eqb_spec (indexOf ISO7064_ALPHABET c) (-1)) as [|Hne]; [discriminate|].
    apply IH in H; [exact H|]. apply iso7064Step_range; [lia|].
    destruct (indexOfFrom_range ISO7064_ALPHABET c 0) as [Hi|Hi];
      [contradiction | exact Hi].
Qed.

Lemma iso7064Loop_total (chars : string) :
  forallString (inAlphabet ISO7064_ALPHABET) chars = true ->
  forall r0, exists r, iso7064Loop chars r0 = Ok r.
Proof.
  induction chars as [|c chars IH]; simpl; intros H r0; [now exists r0|].
  apply andb_true_iff in H as [Hc Hs]. unfold inAlphabet in Hc.
  destruct (indexOf ISO7064_ALPHABET c =? -1); [discriminate|]. now apply IH.
Qed.

Lemma renderCheckValue_digit (v : Z) :
  0 <= v <= 9 -> renderCheckValue v = char1 (digitChar v).
Proof.
  intros H.
  assert (v = 0 \/ v = 1 \/ v = 2 \/ v = 3 \/ v = 4 \/ v = 5 \/ v = 6
          \/ v = 7 \/ v = 8 \/ v = 9) as Hv by lia.
  repeat (destruct Hv as [-> | Hv]; [reflexivity|]). subst v. reflexivity.
Qed.

(** The check value is never 10: the check character is always a digit. *)
Lemma calculateISO7064Check_digit (input k : string) :
  calculateISO7064Check input = Ok k ->
  exists v, 0 <= v <= 9 /\ k = char1 (digitChar v).
Proof.
  unfold calculateISO7064Check.
  destruct (iso7064Loop (toUpperCase input) 10) as [r|] eqn:Hloop; [|discriminate].
  intros H. injection H as <-.
  apply iso7064Loop_range in Hloop; [|lia].
  exists (Z.rem (11 - r) 10).
  assert (0 <= Z.rem (11 - r) 10 <= 9) as Hv.
  { pose proof (Z.rem_bound_pos (11 - r) 10 ltac:(lia) ltac:(lia)). lia. }
  split; [exact Hv | now apply renderCheckValue_digit].
Qed.

(** [C8].  The check character is the rendering of the check value
    [(11 - remainder) mod 10], where [remainder] is the state after the
    last input character: the digit character for the values 0 to 9, the
    letter X for the value 10.  The check character of the base
    RS2026GINSWG000001 is not X, and
    [validateCertificateNumber] rejects RS-2026-G-IN-SWG-000001-X. *)
Theorem calculateISO7064Check_rendering :
  (forall input remainder,
      iso7064Loop (toUpperCase input) 10 = Ok remainder ->
      calculateISO7064Check input = Ok (renderCheckValue (Z.rem (11 - remainder) 10)))
  /\ renderCheckValue 10 = "X"
  /\ (forall v, 0 <= v <= 9 -> renderCheckValue v = char1 (digitChar v))
  /\ calculateISO7064Check "RS2026GINSWG000001" <> Ok "X"
  /\ validateCertificateNumber "RS-2026-G-IN-SWG-000001-X" = false.
Proof.
  split; [|split; [|split; [|split]]].
  - intros input remainder H. unfold calculateISO7064Check. now rewrite H.
  - reflexivity.
  - exact renderCheckValue_digit.
  - vm_compute. discriminate.
  - vm_compute. reflexivity.
Qed.

Lemma calculateISO7064Check_rendering_witness :
  calculateISO7064Check "rs2026ginswg000001" = Ok (renderCheckValue (Z.rem (11 - 3) 10))
  /\ renderCheckValue 8 = char1 (digitChar 8).
Proof.
  destruct calculateISO7064Check_rendering as (Hcalc & _ & Hdigit & _).
  split.
  - apply (Hcalc "rs2026ginswg000001" 3). reflexivity.
  - apply (Hdigit 8). lia.
Defined.

(** [C6]: what the code computes in the documented scenario.  The check
    character of RS2026GINSWG000001 is 8, so the generated number ends in
    8 where the documentation and the claim say 7; the documented number is
    rejected by [validateCertificateNumber].  The digit 7 is the check
    character of the digits 2026000001 alone. *)
Theorem generateCertificateNumber_scenario :
  calculateISO7064Check "RS2026GINSWG000001" = Ok "8"
  /\ generateCertificateNumber
       {| opt_year := Num 2026; opt_level := "gold"; opt_country := "IN";
          opt_issuerCode := "SWG"; opt_serial := Num 1 |}
     = Ok "RS-2026-G-IN-SWG-000001-8"
  /\ verifyISO7064 "RS2026GINSWG000001" "7" = false
  /\ validateCertificateNumber "RS-2026-G-IN-SWG-000001-7" = false
  /\ calculateISO7064Check "2026000001" = Ok "7".
Proof.
  vm_compute. tauto.
Qed.

Lemma iso7064Step_congruent (remainder value value' : Z) :
  0 <= remainder -> 0 <= value -> 0 <= value' ->
  Z.rem value 10 = Z.rem value' 10 ->
  iso7064Step remainder value = iso7064Step remainder value'.
Proof.
  intros Hr Hv Hv' H. unfold iso7064Step.
  rewrite (Z.rem_mod_nonneg value), (Z.rem_mod_nonneg value') in H by lia.
  assert (Z.rem (remainder + value) 10 = Z.rem (remainder + value') 10) as ->;
    [|reflexivity].
  rewrite !Z.rem_mod_nonneg by lia.
  rewrite <- (Z.add_mod_idemp_r remainder value), H, Z.add_mod_idemp_r by lia.
  reflexivity.
Qed.

Lemma iso7064Loop_app (pre post : string) :
  forall r,
    iso7064Loop (pre ++ post) r =
      match iso7064Loop pre r with
      | Ok m => iso7064Loop post m
      | Throw e => Throw e
      end.
Proof.
  induction pre as [|c pre IH]; intros r; simpl; [reflexivity|].
  destruct (indexOf ISO7064_ALPHABET c =? -1); [reflexivity | apply IH].
Qed.

Lemma inISO_upper (c : ascii) :
  inAlphabet ISO7064_ALPHABET c = true -> toUpperCaseChar c = c.
Proof.
  assert (implb (inAlphabet ISO7064_ALPHABET c) (Ascii.eqb (toUpperCaseChar c) c) = true)
    as H by (revert c; apply ascii_all; vm_compute; reflexivity).
  intros Hc. rewrite Hc in H. now apply Ascii.eqb_eq.
Qed.

(** The defect behind the undetected substitutions: two alphabet characters
    whose indices are congruent modulo 10 are interchangeable at every
    position of every input. *)
Lemma calculateISO7064Check_congruent (pre post : string) (c c' : ascii) :
  inAlphabet ISO7064_ALPHABET c = true ->
  inAlphabet ISO7064_ALPHABET c' = true ->
  Z.rem (indexOf ISO7064_ALPHABET c) 10 = Z.rem (indexOf ISO7064_ALPHABET c') 10 ->
  calculateISO7064Check (pre ++ String c post)
  = calculateISO7064Check (pre ++ String c' post).
Proof.
  intros Hc Hc' Hmod. unfold calculateISO7064Check, toUpperCase.
  rewrite !mapString_app. cbn [mapString].
  rewrite (inISO_upper c Hc), (inISO_upper c' Hc'), !iso7064Loop_app.
  destruct (iso7064Loop (mapString toUpperCaseChar pre) 10) as [m|] eqn:Hpre;
    [|reflexivity].
  apply iso7064Loop_range in Hpre; [|lia].
  cbn [iso7064Loop]. unfold inAlphabet in Hc, Hc'.
  destruct (Z.eqb_spec (indexOf ISO7064_ALPHABET c) (-1)) as [|Hi]; [discriminate|].
  destruct (Z.eqb_spec (indexOf ISO7064_ALPHABET c') (-1)) as [|Hi']; [discriminate|].
  assert (0 <= indexOf ISO7064_ALPHABET c) as Hpos
      by (destruct (indexOfFrom_range ISO7064_ALPHABET c 0); unfold indexOf in *; lia).
  assert (0 <= indexOf ISO7064_ALPHABET c') as Hpos'
      by (destruct (indexOfFrom_range ISO7064_ALPHABET c' 0); unfold indexOf in *; lia).
  rewrite (iso7064Step_congruent m _ _ ltac:(lia) Hpos Hpos' Hmod).
  reflexivity.
Qed.

(** After the case folding the function applies first, a character outside
    the alphabet makes [calculateISO7064Check] throw. *)
Lemma calculateISO7064Check_throws (input : string) :
  existsString (fun c => negb (inAlphabet ISO7064_ALPHABET c)) (toUpperCase input) = true ->
  exists e, calculateISO7064Check input = Throw e.
Proof.
  unfold calculateISO7064Check. generalize (toUpperCase input) as chars.
  intros chars. generalize 10 as r.
  induction chars as [|c chars IH]; intros r H; simpl in H; [discriminate|].
  simpl. unfold inAlphabet in H.
  destruct (indexOf ISO7064_ALPHABET c =? -1); [eauto|].
  simpl in H. destruct (IH (iso7064Step r (indexOf ISO7064_ALPHABET c)) H) as [e He].
  exists e. destruct (iso7064Loop chars _); [discriminate | exact He].
Qed.

(** [C5]: what the code computes on transcription errors it is documented
    to detect.  Characters whose alphabet indices are congruent modulo 10
    are interchangeable (0 and A sit at 0 and 10, I and S at 18 and 28), so
    a substituted character and an exchanged pair A K keep the check
    character; even among digits the exchange of 5 and 6 at the start keeps
    it. *)
Theorem calculateISO7064Check_undetected_errors :
  (calculateISO7064Check "0" = Ok "2"
   /\ calculateISO7064Check (replaceAt 0 "A" "0") = Ok "2"
   /\ verifyISO7064 (replaceAt 0 "A" "0") "2" = true)
  /\ (calculateISO7064Check "RS2026GINSWG000001" = Ok "8"
      /\ replaceAt 7 "S" "RS2026GINSWG000001" = "RS2026GSNSWG000001"
      /\ calculateISO7064Check "RS2026GSNSWG000001" = Ok "8"
      /\ verifyISO7064 "RS2026GSNSWG000001" "8" = true
      /\ validateCertificateNumber "RS-2026-G-SN-SWG-000001-8" = true)
  /\ (swapAt 7 "RS2026GAKSWG000001" = "RS2026GKASWG000001"
      /\ calculateISO7064Check "RS2026GAKSWG000001"
         = calculateISO7064Check "RS2026GKASWG000001")
  /\ (swapAt 0 "56" = "65"
      /\ calculateISO7064Check "56" = calculateISO7064Check "65").
Proof.
  vm_compute. tauto.
Qed.

End ISO7064Facts.

(** ** Certificate numbers: generate, then validate *)

Section CertificateFacts.

Lemma toUpperCase_notLower (s : string) :
  forallString notLower s = true -> toUpperCase s = s.
Proof.
  intros H. apply mapString_id. exact H.
Qed.

Lemma digit_notLower (c : ascii) : isDigitChar c = true -> notLower c = true.
Proof.
  assert (implb (isDigitChar c) (notLower c) = true) as H
      by (revert c; apply ascii_all; vm_compute; reflexivity).
  intros Hc. now rewrite Hc in H.
Qed.

Lemma upper_notLower (c : ascii) : isUpperChar c = true -> notLower c = true.
Proof.
  assert (implb (isUpperChar c) (notLower c) = true) as H
      by (revert c; apply ascii_all; vm_compute; reflexivity).
  intros Hc. now rewrite Hc in H.
Qed.

Lemma letter_toUpper (c : ascii) :
  isLetterCI c = true -> isUpperChar (toUpperCaseChar c) = true.
Proof.
  assert (implb (isLetterCI c) (isUpperChar (toUpperCaseChar c)) = true) as H
      by (revert c; apply ascii_all; vm_compute; reflexivity).
  intros Hc. now rewrite Hc in H.
Qed.

Lemma digit_inISO (c : ascii) :
  isDigitChar c = true -> inAlphabet ISO7064_ALPHABET c = true.
Proof.
  assert (implb (isDigitChar c) (inAlphabet ISO7064_ALPHABET c) = true) as H
      by (revert c; apply ascii_all; vm_compute; reflexivity).
  intros Hc. now rewrite Hc in H.
Qed.

Lemma upper_inISO (c : ascii) :
  isUpperChar c = true -> inAlphabet ISO7064_ALPHABET c = true.
Proof.
  assert (implb (isUpperChar c) (inAlphabet ISO7064_ALPHABET c) = true) as H
      by (revert c; apply ascii_all; vm_compute; reflexivity).
  intros Hc. now rewrite Hc in H.
Qed.

Lemma hasShape_impl (n : nat) (p q : ascii -> bool) (s : string) :
  (forall c, p c = true -> q c = true) ->
  hasShape n p s = true -> forallString q s = true.
Proof.
  intros Hpq H. unfold hasShape in H. apply andb_true_iff in H as [_ H].
  revert H. now apply forallString_impl.
Qed.

Lemma hasShape_nonempty (n : nat) (p : ascii -> bool) (s : string) :
  hasShape (S n) p s = true -> isEmpty s = false.
Proof.
  unfold hasShape. destruct s; [discriminate | reflexivity].
Qed.

Lemma isLetters_toUpperCase (n : nat) (s : string) :
  isLetters n s = true -> hasShape n isUpperChar (toUpperCase s) = true.
Proof.
  unfold isLetters, hasShape, toUpperCase. intros H.
  apply andb_true_iff in H as [Hlen Hall].
  rewrite mapString_length, Hlen. simpl.
  clear Hlen. induction s as [|c s IH]; simpl in *; [reflexivity|].
  apply andb_true_iff in Hall as [Hc Hs].
  now rewrite (letter_toUpper c Hc), IH.
Qed.

Lemma isUpper2_shape (s : string) : hasShape 2 isUpperChar s = true -> isUpper2 s = true.
Proof.
  unfold hasShape. destruct s as [|a [|b [|c s]]]; try discriminate.
  simpl. now rewrite andb_true_r.
Qed.

Lemma isUpper3_shape (s : string) : hasShape 3 isUpperChar s = true -> isUpper3 s = true.
Proof.
  unfold hasShape. destruct s as [|a [|b [|c [|d s]]]]; try discriminate.
  simpl. now rewrite andb_true_r, andb_assoc.
Qed.

Lemma upper_letter (c : ascii) : isUpperChar c = true -> isLetterCI c = true.
Proof. unfold isLetterCI. now intros ->. Qed.

Lemma digit_alnum (c : ascii) : isDigitChar c = true -> isAlnumCI c = true.
Proof. unfold isAlnumCI. intros ->. apply orb_true_r. Qed.

(** The certificate pattern recognises the display form and returns its
    six components. *)
Lemma matchCertificatePattern_display (yearStr levelCode country issuerCode serialStr
                                         checkDigit : string) :
  hasShape 4 isDigitChar yearStr = true ->
  isLevelCode levelCode = true ->
  hasShape 2 isUpperChar country = true ->
  hasShape 3 isUpperChar issuerCode = true ->
  hasShape 6 isDigitChar serialStr = true ->
  hasShape 1 isDigitChar checkDigit = true ->
  matchCertificatePattern
    (display yearStr levelCode country issuerCode serialStr checkDigit)
  = Some (yearStr, levelCode, country, issuerCode, serialStr, checkDigit).
Proof.
  unfold hasShape. intros HY HL HC HI HS HK.
  destruct yearStr as [|y1 [|y2 [|y3 [|y4 [|y5 ?]]]]]; try discriminate HY.
  destruct country as [|c1 [|c2 [|c3 ?]]]; try discriminate HC.
  destruct issuerCode as [|i1 [|i2 [|i3 [|i4 ?]]]]; try discriminate HI.
  destruct serialStr as [|d1 [|d2 [|d3 [|d4 [|d5 [|d6 [|d7 ?]]]]]]]; try discriminate HS.
  destruct checkDigit as [|k [|k2 ?]]; try discriminate HK.
  simpl in HY, HC, HI, HS, HK.
  repeat match goal with
         | H : _ && _ = true |- _ => apply andb_true_iff in H as [? H]
         end.
  assert (levelCode = "B" \/ levelCode = "S" \/ levelCode = "G") as Hlevel.
  { unfold isLevelCode in HL.
    apply orb_true_iff in HL as [HL|HL]; [apply orb_true_iff in HL as [HL|HL]|];
      apply String.eqb_eq in HL; auto. }
  unfold display, matchCertificatePattern.
  destruct Hlevel as [-> | [-> | ->]];
    cbn [append list_ascii_of_string str string_of_list_ascii];
    repeat match goal with
           | H : isDigitChar ?c = true |- _ =>
               rewrite ?(digit_alnum c H), ?H; clear H
           | H : isUpperChar ?c = true |- _ =>
               rewrite ?(upper_letter c H); clear H
           end;
    reflexivity.
Qed.

Lemma isLevelCode_lookup (level : string) :
  In level ["bronze"; "silver"; "gold"] ->
  exists levelCode,
    lookupKey LEVEL_CODES level = Some levelCode
    /\ isLevelCode levelCode = true
    /\ lookupKey CODE_TO_LEVEL levelCode = Some level.
Proof.
  simpl. intros [<- | [<- | [<- | []]]];
    [exists "B" | exists "S" | exists "G"]; repeat split.
Qed.

Lemma isLevelCode_shape (levelCode : string) :
  isLevelCode levelCode = true ->
  hasShape 1 isUpperChar levelCode = true.
Proof.
  unfold isLevelCode. intros H.
  apply orb_true_iff in H as [H|H]; [apply orb_true_iff in H as [H|H]|];
    apply String.eqb_eq in H; subst; reflexivity.
Qed.

Lemma checkDigit_shape (input k : string) :
  calculateISO7064Check input = Ok k -> hasShape 1 isDigitChar k = true.
Proof.
  intros H. apply calculateISO7064Check_digit in H as (v & Hv & ->).
  unfold hasShape, char1. cbn [String.length Nat.eqb forallString andb].
  now rewrite isDigitChar_digitChar.
Qed.

Lemma calculateISO7064Check_total (input : string) :
  forallString (inAlphabet ISO7064_ALPHABET) (toUpperCase input) = true ->
  exists k, calculateISO7064Check input = Ok k.
Proof.
  intros H. unfold calculateISO7064Check.
  destruct (iso7064Loop_total _ H 10) as [r ->]. eauto.
Qed.

Lemma baseChar_inISO (c : ascii) :
  isBaseChar c = true -> inAlphabet ISO7064_ALPHABET c = true.
Proof.
  unfold isBaseChar. intros H. apply orb_true_iff in H as [H|H];
    [now apply digit_inISO | now apply upper_inISO].
Qed.

Lemma baseChar_notLower (c : ascii) : isBaseChar c = true -> notLower c = true.
Proof.
  unfold isBaseChar. intros H. apply orb_true_iff in H as [H|H];
    [now apply digit_notLower | now apply upper_notLower].
Qed.

Lemma digit_baseChar (c : ascii) : isDigitChar c = true -> isBaseChar c = true.
Proof. unfold isBaseChar. now intros ->. Qed.

Lemma upper_baseChar (c : ascii) : isUpperChar c = true -> isBaseChar c = true.
Proof. unfold isBaseChar. intros ->. apply orb_true_r. Qed.

Section Components.

Variables yearStr levelStr countryStr issuerStr serialStr : string.
Hypothesis HY : hasShape 4 isDigitChar yearStr = true.
Hypothesis HL : isLevelCode levelStr = true.
Hypothesis HC : hasShape 2 isUpperChar countryStr = true.
Hypothesis HI : hasShape 3 isUpperChar issuerStr = true.
Hypothesis HS : hasShape 6 isDigitChar serialStr = true.

Lemma checkBase_chars :
  forallString isBaseChar
    (checkBase yearStr levelStr countryStr issuerStr serialStr) = true.
Proof.
  unfold checkBase.
  rewrite !forallString_app.
  rewrite (hasShape_impl _ _ _ _ digit_baseChar HY).
  rewrite (hasShape_impl _ _ _ _ upper_baseChar (isLevelCode_shape _ HL)).
  rewrite (hasShape_impl _ _ _ _ upper_baseChar HC).
  rewrite (hasShape_impl _ _ _ _ upper_baseChar HI).
  rewrite (hasShape_impl _ _ _ _ digit_baseChar HS).
  reflexivity.
Qed.

Lemma checkBase_check :
  exists k,
    calculateISO7064Check
      (checkBase yearStr levelStr countryStr issuerStr serialStr) = Ok k.
Proof.
  apply calculateISO7064Check_total.
  rewrite toUpperCase_notLower.
  - generalize checkBase_chars. apply forallString_impl. exact baseChar_inISO.
  - generalize checkBase_chars. apply forallString_impl. exact baseChar_notLower.
Qed.

Lemma toUpperCase_display (checkDigit : string) :
  hasShape 1 isDigitChar checkDigit = true ->
  toUpperCase (display yearStr levelStr countryStr issuerStr serialStr checkDigit)
  = display yearStr levelStr countryStr issuerStr serialStr checkDigit.
Proof.
  intros HK. unfold display, toUpperCase. rewrite !mapString_app.
  fold (toUpperCase yearStr) (toUpperCase levelStr) (toUpperCase countryStr)
    (toUpperCase issuerStr) (toUpperCase serialStr) (toUpperCase checkDigit).
  rewrite (toUpperCase_notLower yearStr)
    by exact (hasShape_impl _ _ _ _ digit_notLower HY).
  rewrite (toUpperCase_notLower levelStr)
    by exact (hasShape_impl _ _ _ _ upper_notLower (isLevelCode_shape _ HL)).
  rewrite (toUpperCase_notLower countryStr)
    by exact (hasShape_impl _ _ _ _ upper_notLower HC).
  rewrite (toUpperCase_notLower issuerStr)
    by exact (hasShape_impl _ _ _ _ upper_notLower HI).
  rewrite (toUpperCase_notLower serialStr)
    by exact (hasShape_impl _ _ _ _ digit_notLower HS).
  rewrite (toUpperCase_notLower checkDigit)
    by exact (hasShape_impl _ _ _ _ digit_notLower HK).
  reflexivity.
Qed.

(** A display form whose year and serial parse to [y] and [n], whose
    components render back to themselves and whose last character is the
    check character of its base, is accepted. *)
Lemma validateCertificateNumber_display (checkDigit level : string) (y n : JsNumber) :
  lookupKey CODE_TO_LEVEL levelStr = Some level ->
  parseInt10 yearStr = y -> numberToString y = yearStr ->
  parseInt10 serialStr = n -> padStart0 6 (numberToString n) = serialStr ->
  calculateISO7064Check
    (checkBase yearStr levelStr countryStr issuerStr serialStr) = Ok checkDigit ->
  validateCertificateNumber
    (display yearStr levelStr countryStr issuerStr serialStr checkDigit) = true.
Proof.
  intros Hlevel Hy Hy' Hn Hn' Hcheck.
  pose proof (checkDigit_shape _ _ Hcheck) as HK.
  unfold validateCertificateNumber, parseCertificateNumber.
  rewrite (toUpperCase_display _ HK).
  rewrite (matchCertificatePattern_display _ _ _ _ _ _ HY HL HC HI HS HK).
  rewrite (hasShape_nonempty _ _ _ HY), (hasShape_nonempty _ _ _ HC),
    (hasShape_nonempty _ _ _ HI), (hasShape_nonempty _ _ _ HS),
    (hasShape_nonempty _ _ _ HK),
    (hasShape_nonempty _ _ _ (isLevelCode_shape _ HL)).
  cbn [orb]. rewrite Hlevel.
  cbn [Identifiers.year Identifiers.serial Identifiers.levelCode
         Identifiers.country Identifiers.issuerCode Identifiers.checkDigit].
  rewrite Hy, Hy', Hn, Hn'.
  fold (checkBase yearStr levelStr countryStr issuerStr serialStr).
  unfold verifyISO7064. rewrite Hcheck.
  rewrite (toUpperCase_notLower checkDigit)
    by exact (hasShape_impl _ _ _ _ digit_notLower HK).
  apply String.eqb_refl.
Qed.

End Components.

Lemma yearGuard (y : Z) :
  2020 <= y <= 2100 ->
  negb (Number_isInteger (Num y)) || ltNum (Num y) (Num 2020) || gtNum (Num y) (Num 2100)
  = false.
Proof.
  intros H. unfold gtNum. simpl.
  destruct (Z.ltb_spec y 2020); [lia|]. destruct (Z.ltb_spec 2100 y); [lia|]. reflexivity.
Qed.

Lemma serialGuard (n : Z) :
  1 <= n <= 999999 ->
  negb (Number_isInteger (Num n)) || ltNum (Num n) (Num 1) || gtNum (Num n) (Num 999999)
  = false.
Proof.
  intros H. unfold gtNum. simpl.
  destruct (Z.ltb_spec n 1); [lia|]. destruct (Z.ltb_spec 999999 n); [lia|]. reflexivity.
Qed.

(** [C7].  For every valid input (integer year in [2020,2100], level
    bronze, silver or gold, country of two letters, issuer code of three
    letters, integer serial in [1,999999]), [generateCertificateNumber]
    returns a string, and [validateCertificateNumber] returns [true] on
    it. *)
Theorem validateCertificateNumber_generateCertificateNumber
  (y n : Z) (level country issuerCode : string) :
  2020 <= y <= 2100 ->
  In level ["bronze"; "silver"; "gold"] ->
  isLetters 2 country = true ->
  isLetters 3 issuerCode = true ->
  1 <= n <= 999999 ->
  exists certificateNumber,
    generateCertificateNumber
      {| opt_year := Num y; opt_level := level; opt_country := country;
         opt_issuerCode := issuerCode; opt_serial := Num n |}
    = Ok certificateNumber
    /\ validateCertificateNumber certificateNumber = true.
Proof.
  intros Hy Hlevel Hcountry Hissuer Hn.
  destruct (isLevelCode_lookup level Hlevel) as (levelCode & Hcode & HL & Hback).
  pose proof (isLetters_toUpperCase 2 country Hcountry) as HC.
  pose proof (isLetters_toUpperCase 3 issuerCode Hissuer) as HI.
  destruct (year_rendering y ltac:(lia)) as [HY HYparse].
  destruct (serial_rendering n ltac:(lia)) as [HS HSparse].
  destruct (checkBase_check _ _ _ _ _ HY HL HC HI HS) as [k Hk].
  exists (display (numberToString (Num y)) levelCode (toUpperCase country)
            (toUpperCase issuerCode) (padStart0 6 (numberToString (Num n))) k).
  split.
  - unfold generateCertificateNumber.
    cbn [opt_year opt_level opt_country opt_issuerCode opt_serial].
    rewrite (yearGuard y Hy), Hcode, (isUpper2_shape _ HC), (isUpper3_shape _ HI),
      (serialGuard n Hn).
    cbn [negb]. unfold checkBase in Hk. rewrite Hk. reflexivity.
  - apply validateCertificateNumber_display
      with (level := level) (y := Num y) (n := Num n); auto.
Qed.

Lemma validateCertificateNumber_generateCertificateNumber_witness :
  exists certificateNumber,
    generateCertificateNumber
      {| opt_year := Num 2026; opt_level := "gold"; opt_country := "in";
         opt_issuerCode := "SWG"; opt_serial := Num 42 |}
    = Ok certificateNumber
    /\ validateCertificateNumber certificateNumber = true.
Proof.
  apply (validateCertificateNumber_generateCertificateNumber 2026 42 "gold" "in" "SWG");
    first [lia | reflexivity | simpl; tauto].
Defined.

End CertificateFacts.

(** ** The privacy gate *)

Section ProtocolFacts.

Lemma sameUpToCase_lower (a b : ascii) :
  sameUpToCase a b = true -> toLowerCaseChar a = toLowerCaseChar b.
Proof.
  unfold sameUpToCase. intros H. apply orb_true_iff in H as [H|H].
  - apply Ascii.eqb_eq in H. now subst.
  - now apply Ascii.eqb_eq in H.
Qed.

Lemma differOnlyInCase_lower (s : string) :
  forall t, differOnlyInCase s t = true -> toLowerCase s = toLowerCase t.
Proof.
  unfold toLowerCase.
  induction s as [|a s IH]; intros [|b t] H; simpl in H; try discriminate;
    [reflexivity|].
  apply andb_true_iff in H as [Hab Hst]. simpl.
  now rewrite (sameUpToCase_lower a b Hab), (IH t Hst).
Qed.

Lemma isForbiddenField_iff (field : string) :
  isForbiddenField field = true
  <-> exists f, In f FORBIDDEN_FIELDS /\ toLowerCase f = toLowerCase field.
Proof.
  unfold isForbiddenField. rewrite existsb_exists.
  split; intros (f & Hin & Heq); exists f; (split; [exact Hin|]);
    now apply String.eqb_eq.
Qed.

Lemma isAllowedField_iff (field : string) :
  isAllowedField field = true <-> In field ALLOWED_PUBLIC_FIELDS.
Proof.
  unfold isAllowedField. rewrite existsb_exists. split.
  - intros (f & Hin & Heq). apply String.eqb_eq in Heq. now subst.
  - intros Hin. exists field. split; [exact Hin | apply String.eqb_refl].
Qed.

(** [C3], as amended.  Classification against the denylist is
    case-insensitive exact name matching: two names that differ only in
    letter case get the same answer from [isForbiddenField], which holds
    exactly for the names equal, up to case, to a listed one.
    Classification against the allowlist is exact and case-sensitive:
    [isAllowedField] holds exactly for the five names as they are
    spelled. *)
Theorem field_classification :
  (forall f f', differOnlyInCase f f' = true -> isForbiddenField f' = isForbiddenField f)
  /\ (forall f, isForbiddenField f = true
                <-> exists g, In g FORBIDDEN_FIELDS /\ toLowerCase g = toLowerCase f)
  /\ (forall f, isAllowedField f = true <-> In f ALLOWED_PUBLIC_FIELDS).
Proof.
  split; [|split].
  - intros f f' H. unfold isForbiddenField.
    now rewrite (differOnlyInCase_lower f f' H).
  - exact isForbiddenField_iff.
  - exact isAllowedField_iff.
Qed.

Lemma field_classification_witness :
  isForbiddenField "DateOfBirth" = isForbiddenField "dateofbirth"
  /\ isAllowedField "validFrom" = true.
Proof.
  destruct field_classification as (Hcase & _ & Hallowed).
  split.
  - apply (Hcase "dateofbirth" "DateOfBirth"). reflexivity.
  - apply (Hallowed "validFrom"). simpl. tauto.
Defined.

(** [C3], as stated, fails for the allowlist: [isAllowedField] tells
    [givenName] from [GIVENNAME]. *)
Lemma isAllowedField_case_sensitive :
  ~ (forall f f',
        differOnlyInCase f f' = true ->
        isForbiddenField f' = isForbiddenField f
        /\ isAllowedField f' = isAllowedField f).
Proof.
  intros H. destruct (H "givenName" "GIVENNAME" eq_refl) as [_ Hallowed].
  vm_compute in Hallowed. discriminate.
Qed.

Lemma hasForbiddenKey_filter (obj : JsRecord) :
  hasForbiddenKey obj -> filter isForbiddenField (keys obj) <> [].
Proof.
  intros (key & Hin & Hforbidden) Hnil.
  assert (In key (filter isForbiddenField (keys obj))) as H
      by (apply filter_In; auto).
  rewrite Hnil in H. destruct H.
Qed.

Lemma detectNested_nonempty (data props : JsRecord) (container : string) :
  getProp data container = JsObject props ->
  hasForbiddenKey props ->
  detectNested data container <> [].
Proof.
  intros Hget Hkey. unfold detectNested. rewrite Hget. simpl.
  apply hasForbiddenKey_filter in Hkey.
  destruct (filter isForbiddenField (keys props)); [contradiction | discriminate].
Qed.

Lemma containsForbidden_detected (data : JsRecord) :
  containsForbidden data -> detectForbiddenFields data <> [].
Proof.
  unfold detectForbiddenFields.
  intros [H | [(props & Hget & H) | (props & Hget & H)]] Hnil;
    apply app_eq_nil in Hnil as [Htop Hnil];
    apply app_eq_nil in Hnil as [Hpublic Hattrs].
  - now apply (hasForbiddenKey_filter data).
  - now apply (detectNested_nonempty data props "publicAttributes").
  - now apply (detectNested_nonempty data props "attributes").
Qed.

Lemma find_filter_head {A : Type} (p : A -> bool) (l : list A) (x : A) :
  find p l = Some x -> exists rest, filter p l = x :: rest.
Proof.
  induction l as [|a l IH]; simpl; [discriminate|].
  destruct (p a); [|exact IH].
  intros H. injection H as ->. now eexists.
Qed.

Lemma find_none_filter {A : Type} (p : A -> bool) (l : list A) :
  find p l = None -> filter p l = [].
Proof.
  induction l as [|a l IH]; simpl; [reflexivity|].
  destruct (p a); [discriminate | exact IH].
Qed.

Lemma detectNested_object (data props : JsRecord) (container : string) :
  getProp data container = JsObject props ->
  detectNested data container
  = map (fun key => container ++ "." ++ key) (filter isForbiddenField (keys props)).
Proof. intros H. unfold detectNested. now rewrite H. Qed.

Lemma detectNested_clean (data : JsRecord) (container : string) :
  (forall props, getProp data container = JsObject props ->
                 find isForbiddenField (keys props) = None) ->
  detectNested data container = [].
Proof.
  intros H. unfold detectNested.
  destruct (getProp data container) as [| |b|x|t|props] eqn:Hget;
    try reflexivity; try (now rewrite andb_false_r).
  simpl. now rewrite (find_none_filter _ _ (H props eq_refl)).
Qed.

Variable Date_getTime : string -> JsNumber.

(** [C2].  Every record that carries a forbidden field, in any letter
    case, at top level or inside a nested [publicAttributes] or
    [attributes] object, is refused with a [ProtocolViolationError] that
    names the first offending field and lists all of them, whatever the
    state of the required fields.  The first offending field is the first
    forbidden top-level key when there is one; failing that,
    [publicAttributes.<key>] for the first forbidden key of the nested
    [publicAttributes] object when there is one; failing that,
    [attributes.<key>] for the first forbidden key of the nested
    [attributes] object.  Every forbidden key, top-level or nested, is on
    the list under that name.  The record with a forbidden [email] and
    equal validity dates is refused with the protocol violation naming
    [email]; a record whose forbidden names are all nested is refused
    with the violation naming [publicAttributes.SSN], and one with a
    forbidden name under [attributes] alone with [attributes.Aadhaar]. *)
Theorem enforcePublicAttributesOnly_forbidden_first :
  (forall data,
      containsForbidden data ->
      exists first rest,
        detectForbiddenFields data = first :: rest
        /\ enforcePublicAttributesOnly Date_getTime data
           = Throw (ProtocolViolationError first (violationMessage (first :: rest)))
        /\ (forall key, find isForbiddenField (keys data) = Some key -> first = key)
        /\ (find isForbiddenField (keys data) = None ->
            forall props key,
              getProp data "publicAttributes" = JsObject props ->
              find isForbiddenField (keys props) = Some key ->
              first = "publicAttributes." ++ key)
        /\ (find isForbiddenField (keys data) = None ->
            (forall props, getProp data "publicAttributes" = JsObject props ->
                           find isForbiddenField (keys props) = None) ->
            forall props key,
              getProp data "attributes" = JsObject props ->
              find isForbiddenField (keys props) = Some key ->
              first = "attributes." ++ key)
        /\ (forall key, In key (keys data) -> isForbiddenField key = true ->
                        In key (first :: rest))
        /\ (forall props key,
              getProp data "publicAttributes" = JsObject props ->
              In key (keys props) -> isForbiddenField key = true ->
              In ("publicAttributes." ++ key) (first :: rest))
        /\ (forall props key,
              getProp data "attributes" = JsObject props ->
              In key (keys props) -> isForbiddenField key = true ->
              In ("attributes." ++ key) (first :: rest)))
  /\ enforcePublicAttributesOnly Date_getTime emailScenario
     = Throw (ProtocolViolationError "email" (violationMessage ["email"]))
  /\ enforcePublicAttributesOnly Date_getTime nestedScenario
     = Throw (ProtocolViolationError "publicAttributes.SSN"
                (violationMessage
                   ["publicAttributes.SSN"; "publicAttributes.phone";
                    "attributes.Email"]))
  /\ enforcePublicAttributesOnly Date_getTime attributesScenario
     = Throw (ProtocolViolationError "attributes.Aadhaar"
                (violationMessage ["attributes.Aadhaar"])).
Proof.
  split; [|repeat split; reflexivity].
  intros data H. apply containsForbidden_detected in H.
  destruct (detectForbiddenFields data) as [|first rest] eqn:Hdetect; [contradiction|].
  exists first, rest. split; [reflexivity|]. split.
  { unfold enforcePublicAttributesOnly. now rewrite Hdetect. }
  unfold detectForbiddenFields in Hdetect.
  split; [|split; [|split; [|split; [|split]]]].
  - intros key Hfind. apply find_filter_head in Hfind as [tl Htl].
    rewrite Htl in Hdetect. simpl in Hdetect. congruence.
  - intros Htop props key Hget Hfind.
    rewrite (find_none_filter _ _ Htop) in Hdetect.
    rewrite (detectNested_object _ _ _ Hget) in Hdetect.
    apply find_filter_head in Hfind as [tl Htl].
    rewrite Htl in Hdetect. simpl in Hdetect.
    injection Hdetect as <- _. reflexivity.
  - intros Htop Hpublic props key Hget Hfind.
    rewrite (find_none_filter _ _ Htop) in Hdetect.
    rewrite (detectNested_clean _ _ Hpublic) in Hdetect.
    rewrite (detectNested_object _ _ _ Hget) in Hdetect.
    apply find_filter_head in Hfind as [tl Htl].
    rewrite Htl in Hdetect. simpl in Hdetect.
    injection Hdetect as <- _. reflexivity.
  - intros key Hin Hforbidden. rewrite <- Hdetect.
    apply in_or_app. left. apply filter_In. auto.
  - intros props key Hget Hin Hforbidden. rewrite <- Hdetect.
    apply in_or_app. right. apply in_or_app. left.
    rewrite (detectNested_object _ _ _ Hget).
    apply (in_map (fun key => "publicAttributes" ++ "." ++ key)).
    apply filter_In. auto.
  - intros props key Hget Hin Hforbidden. rewrite <- Hdetect.
    apply in_or_app. right. apply in_or_app. right.
    rewrite (detectNested_object _ _ _ Hget).
    apply (in_map (fun key => "attributes" ++ "." ++ key)).
    apply filter_In. auto.
Qed.

(** What a successful call has checked, and what it returns. *)
Lemma enforcePublicAttributesOnly_ok (data r : JsRecord) :
  enforcePublicAttributesOnly Date_getTime data = Ok r ->
  let givenName := getProp data "givenName" in
  let familyName := getProp data "familyName" in
  let level := getProp data "level" in
  let validFrom := getProp data "validFrom" in
  let validUntil := getProp data "validUntil" in
  r = [ ("givenName", givenName); ("familyName", familyName); ("level", level);
        ("validFrom", validFrom); ("validUntil", validUntil) ]
  /\ isMissing givenName = false /\ isMissing familyName = false
  /\ isMissing level = false /\ isMissing validFrom = false
  /\ isMissing validUntil = false
  /\ validateName givenName = true /\ validateName familyName = true
  /\ validateLevel level = true
  /\ validateISODate Date_getTime validFrom = true
  /\ validateISODate Date_getTime validUntil = true
  /\ leNum (Date_getTime (stringOf validUntil)) (Date_getTime (stringOf validFrom))
     = false.
Proof.
  unfold enforcePublicAttributesOnly. cbv zeta.
  destruct (detectForbiddenFields data); [|discriminate].
  set (givenName := getProp data "givenName").
  set (familyName := getProp data "familyName").
  set (level := getProp data "level").
  set (validFrom := getProp data "validFrom").
  set (validUntil := getProp data "validUntil").
  intros H.
  destruct (isMissing givenName); [discriminate|].
  destruct (isMissing familyName); [discriminate|].
  destruct (isMissing level); [discriminate|].
  destruct (isMissing validFrom); [discriminate|].
  destruct (isMissing validUntil); [discriminate|].
  destruct (validateName givenName); [|discriminate].
  destruct (validateName familyName); [|discriminate].
  destruct (validateLevel level); [|discriminate].
  destruct (validateISODate Date_getTime validFrom); [|discriminate].
  destruct (validateISODate Date_getTime validUntil); [|discriminate].
  simpl in H.
  destruct (leNum (Date_getTime (stringOf validUntil))
              (Date_getTime (stringOf validFrom))); [discriminate|].
  injection H as <-. repeat split.
Qed.

(** [C1].  Whenever [enforcePublicAttributesOnly] returns, the returned
    object has exactly the five fields [givenName], [familyName], [level],
    [validFrom], [validUntil], each with the value the input had for it,
    and no other field, whatever else the input carried. *)
Theorem enforcePublicAttributesOnly_five_fields (data r : JsRecord) :
  enforcePublicAttributesOnly Date_getTime data = Ok r ->
  keys r = ALLOWED_PUBLIC_FIELDS
  /\ forall field, In field ALLOWED_PUBLIC_FIELDS -> getProp r field = getProp data field.
Proof.
  intros H. apply enforcePublicAttributesOnly_ok in H as [-> _].
  split; [reflexivity|].
  simpl. intros field [<- | [<- | [<- | [<- | [<- | []]]]]]; reflexivity.
Qed.

(** [C9].  [enforcePublicAttributesOnly] is idempotent: applied to the
    result of a successful call, it succeeds and returns that result. *)
Theorem enforcePublicAttributesOnly_idempotent (data r : JsRecord) :
  enforcePublicAttributesOnly Date_getTime data = Ok r ->
  enforcePublicAttributesOnly Date_getTime r = Ok r.
Proof.
  intros H. apply enforcePublicAttributesOnly_ok in H.
  cbv zeta in H.
  destruct H as (-> & M1 & M2 & M3 & M4 & M5 & N1 & N2 & L & D1 & D2 & Range).
  unfold enforcePublicAttributesOnly.
  change (detectForbiddenFields _) with (@nil string).
  cbn [getProp String.eqb Ascii.eqb Bool.eqb].
  now rewrite M1, M2, M3, M4, M5, N1, N2, L, D1, D2, Range.
Qed.

End ProtocolFacts.

Lemma enforcePublicAttributesOnly_forbidden_first_witness :
  exists first rest,
    detectForbiddenFields nestedScenario = first :: rest
    /\ enforcePublicAttributesOnly Host.utcGetTime nestedScenario
       = Throw (ProtocolViolationError first (violationMessage (first :: rest)))
    /\ first = "publicAttributes.SSN"
    /\ In "publicAttributes.phone" (first :: rest)
    /\ In "attributes.Email" (first :: rest).
Proof.
  destruct (proj1 (enforcePublicAttributesOnly_forbidden_first Host.utcGetTime)
              nestedScenario)
    as (first & rest & Hdetect & Hthrow & _ & Hpublic & _ & _ & Hin1 & Hin2).
  { right. left.
    exists [ ("level", JsString "gold"); ("SSN", JsString "1");
             ("phone", JsString "2") ].
    split; [reflexivity|]. exists "SSN". split; [simpl; tauto | reflexivity]. }
  exists first, rest. split; [exact Hdetect|]. split; [exact Hthrow|].
  split; [|split].
  - apply (Hpublic eq_refl
             [ ("level", JsString "gold"); ("SSN", JsString "1");
               ("phone", JsString "2") ] "SSN"); reflexivity.
  - apply (Hin1 [ ("level", JsString "gold"); ("SSN", JsString "1");
                  ("phone", JsString "2") ] "phone");
      [reflexivity | simpl; tauto | reflexivity].
  - apply (Hin2 [ ("Email", JsString "x@y.com") ] "Email");
      [reflexivity | simpl; tauto | reflexivity].
Defined.

Lemma enforcePublicAttributesOnly_five_fields_witness :
  keys [ ("givenName", JsString "Rahul"); ("familyName", JsString "Kumar");
         ("level", JsString "gold"); ("validFrom", JsString "2026-01-15");
         ("validUntil", JsString "2028-01-15") ]
  = ALLOWED_PUBLIC_FIELDS
  /\ getProp [ ("givenName", JsString "Rahul"); ("familyName", JsString "Kumar");
               ("level", JsString "gold"); ("validFrom", JsString "2026-01-15");
               ("validUntil", JsString "2028-01-15") ] "level"
     = getProp validWithExtra "level".
Proof.
  destruct (enforcePublicAttributesOnly_five_fields Host.utcGetTime validWithExtra
              [ ("givenName", JsString "Rahul"); ("familyName", JsString "Kumar");
                ("level", JsString "gold"); ("validFrom", JsString "2026-01-15");
                ("validUntil", JsString "2028-01-15") ] eq_refl) as [Hkeys Hvalues].
  split; [exact Hkeys|]. apply Hvalues. simpl. tauto.
Defined.

Lemma enforcePublicAttributesOnly_idempotent_witness :
  enforcePublicAttributesOnly Host.utcGetTime
    [ ("givenName", JsString "Rahul"); ("familyName", JsString "Kumar");
      ("level", JsString "gold"); ("validFrom", JsString "2026-01-15");
      ("validUntil", JsString "2028-01-15") ]
  = Ok [ ("givenName", JsString "Rahul"); ("familyName", JsString "Kumar");
         ("level", JsString "gold"); ("validFrom", JsString "2026-01-15");
         ("validUntil", JsString "2028-01-15") ].
Proof.
  apply (enforcePublicAttributesOnly_idempotent Host.utcGetTime validWithExtra).
  reflexivity.
Defined.

(** ** Verification codes: cleaning, formatting, generating *)

Section VerificationCodeFacts.

Lemma filterString_app (p : ascii -> bool) (s t : string) :
  filterString p (s ++ t) = filterString p s ++ filterString p t.
Proof.
  induction s as [|c s IH]; simpl; [reflexivity|].
  destruct (p c); simpl; now rewrite IH.
Qed.

Lemma filterString_idem (p : ascii -> bool) (s : string) :
  filterString p (filterString p s) = filterString p s.
Proof.
  induction s as [|c s IH]; simpl; [reflexivity|].
  destruct (p c) eqn:Hc; simpl; [rewrite Hc, IH|]; auto.
Qed.

Lemma filterString_mapString (p : ascii -> bool) (f : ascii -> ascii) (s : string) :
  (forall c, p (f c) = p c) ->
  filterString p (mapString f s) = mapString f (filterString p s).
Proof.
  intros H. induction s as [|c s IH]; simpl; [reflexivity|].
  rewrite H. destruct (p c); simpl; now rewrite IH.
Qed.

Lemma isSeparator_upper (c : ascii) : isSeparator (toUpperCaseChar c) = isSeparator c.
Proof.
  assert (Bool.eqb (isSeparator (toUpperCaseChar c)) (isSeparator c) = true) as H
      by (revert c; apply ascii_all; vm_compute; reflexivity).
  now apply Bool.eqb_prop.
Qed.

Lemma cleanCode_toUpperCase (code : string) : cleanCode (toUpperCase code) = cleanCode code.
Proof.
  unfold cleanCode, toUpperCase.
  rewrite filterString_mapString by (intros c; now rewrite isSeparator_upper).
  apply toUpperCase_idem.
Qed.

Lemma cleanCode_idem (code : string) : cleanCode (cleanCode code) = cleanCode code.
Proof.
  unfold cleanCode at 2. rewrite cleanCode_toUpperCase.
  unfold cleanCode. now rewrite filterString_idem.
Qed.

Lemma cleanCode_hyphen (s t : string) : cleanCode (s ++ "-" ++ t) = cleanCode (s ++ t).
Proof.
  unfold cleanCode. rewrite !filterString_app. reflexivity.
Qed.

Lemma length_eight (s : string) :
  String.length s = 8%nat ->
  exists a b c d e f g h, s = str [a; b; c; d; e; f; g; h].
Proof.
  destruct s as [|a [|b [|c [|d [|e [|f [|g [|h [|i s]]]]]]]]]; try discriminate.
  intros _. now exists a, b, c, d, e, f, g, h.
Qed.

Lemma len_eight (s : string) : (len s =? 8) = Nat.eqb (String.length s) 8.
Proof.
  unfold len. destruct (Nat.eqb_spec (String.length s) 8) as [->|H]; [reflexivity|].
  apply Z.eqb_neq. lia.
Qed.

Lemma cleanCode_formatVerificationCode (code : string) :
  cleanCode (formatVerificationCode code) = cleanCode code.
Proof.
  unfold formatVerificationCode. rewrite len_eight.
  destruct (Nat.eqb_spec (String.length (cleanCode code)) 8) as [Hlen|Hlen];
    cbn [negb].
  - rewrite cleanCode_hyphen.
    destruct (length_eight _ Hlen) as (a & b & c & d & e & f & g & h & Heq).
    rewrite <- (cleanCode_idem code) at 3. rewrite Heq. reflexivity.
  - apply cleanCode_toUpperCase.
Qed.

(** [X1].  Formatting for display loses nothing: for every input,
    cleaning the formatted code gives the cleaned input, so
    [validateVerificationCode], [parseVerificationCode] and
    [getVerificationUrl] give the same answer on a code and on its display
    form, and formatting twice is formatting once. *)
Theorem formatVerificationCode_cleanCode (code : string) :
  cleanCode (formatVerificationCode code) = cleanCode code
  /\ validateVerificationCode (formatVerificationCode code) = validateVerificationCode code
  /\ parseVerificationCode (formatVerificationCode code) = parseVerificationCode code
  /\ (forall baseUrl,
         getVerificationUrl (formatVerificationCode code) baseUrl
         = getVerificationUrl code baseUrl)
  /\ formatVerificationCode (formatVerificationCode code) = formatVerificationCode code.
Proof.
  pose proof (cleanCode_formatVerificationCode code) as Hclean.
  split; [exact Hclean|].
  unfold validateVerificationCode, parseVerificationCode, getVerificationUrl.
  rewrite Hclean. repeat split.
  unfold formatVerificationCode at 1. rewrite Hclean.
  unfold formatVerificationCode.
  destruct (negb (len (cleanCode code) =? 8)); [apply toUpperCase_idem | reflexivity].
Qed.

Lemma dammLoop_total (chars : string) :
  forallString (inAlphabet VERIFICATION_CODE_ALPHABET) chars = true ->
  forall s, 0 <= s <= 9 -> exists r, validateLoop chars s = Some r.
Proof.
  induction chars as [|c chars IH]; intros H s Hs; [now exists s|].
  simpl in H. apply andb_true_iff in H as [Hc Hall].
  rewrite validateLoop_cons.
  destruct (alphabet_char_clean c Hc) as [Hup _]. apply Ascii.eqb_eq in Hup.
  unfold charToDigit. rewrite Hup. unfold inAlphabet in Hc.
  destruct (Z.eqb_spec (indexOf VERIFICATION_CODE_ALPHABET c) (-1)) as [|Hne];
    [discriminate|].
  assert (0 <= Z.rem (indexOf VERIFICATION_CODE_ALPHABET c) 10 <= 9) as Hd.
  { destruct (indexOfFrom_range VERIFICATION_CODE_ALPHABET c 0) as [Hi|Hi];
      unfold indexOf in *; [contradiction|].
    pose proof (Z.rem_bound_pos (indexOfFrom VERIFICATION_CODE_ALPHABET c 0) 10
                  ltac:(lia) ltac:(lia)). lia. }
  destruct (dammStep_total s _ Hs Hd) as [n Hn]. rewrite Hn.
  apply IH; [exact Hall | eapply dammStep_closed; eassumption].
Qed.

(** What [calculateDammCheck] returns is a single alphabet character. *)
Lemma calculateDammCheck_char (input k : string) :
  calculateDammCheck input = Ok k ->
  exists check d,
    k = char1 check
    /\ inAlphabet VERIFICATION_CODE_ALPHABET check = true
    /\ charToDigit check = Ok d.
Proof.
  intros H. apply calculateDammCheck_firstTen in H. vm_compute in H.
  repeat (destruct H as [<- | H];
          [eexists; eexists; split; [reflexivity|]; split; vm_compute; reflexivity|]).
  destruct H.
Qed.

Lemma calculateDammCheck_total (base : string) :
  forallString (inAlphabet VERIFICATION_CODE_ALPHABET) base = true ->
  exists k, calculateDammCheck base = Ok k.
Proof.
  intros H. destruct (alphabet_string_clean base H) as [Hup _].
  unfold calculateDammCheck. rewrite Hup.
  destruct (dammLoop_total base H 0 ltac:(lia)) as [r Hr].
  rewrite validateLoop_dammLoop in Hr.
  destruct (dammLoop base 0) as [r'|]; [|discriminate].
  destruct (findCheck 10 0 r'); eauto.
Qed.

(** [X2].  Whatever seven alphabet characters the random source hands to
    [generateVerificationCode], the function returns a code of eight
    alphabet characters that [validateVerificationCode] accepts, with or
    without the display hyphen, and that [verifyDamm] accepts when split. *)
Theorem generateVerificationCode_valid (base : string) :
  hasShape 7 (inAlphabet VERIFICATION_CODE_ALPHABET) base = true ->
  exists code,
    generateVerificationCode base = Ok code
    /\ hasShape 8 (inAlphabet VERIFICATION_CODE_ALPHABET) code = true
    /\ validateVerificationCode code = true
    /\ validateVerificationCode (formatVerificationCode code) = true
    /\ verifyDamm (slice code 0 7) (sliceFrom code 7) = true.
Proof.
  unfold hasShape. intros H. apply andb_true_iff in H as [Hlen Hall].
  apply Nat.eqb_eq in Hlen.
  destruct (calculateDammCheck_total base Hall) as [k Hk].
  destruct (calculateDammCheck_char base k Hk) as (check & d & -> & Hin & Hd).
  exists (base ++ char1 check).
  assert (String.length (base ++ char1 check) = 8%nat) as Hlen8
      by (rewrite append_length, Hlen; reflexivity).
  assert (forallString (inAlphabet VERIFICATION_CODE_ALPHABET) (base ++ char1 check) = true)
    as Hall8 by (rewrite forallString_app, Hall; simpl; now rewrite Hin).
  assert (validateVerificationCode (base ++ char1 check) = true) as Hvalid.
  { destruct (alphabet_string_clean _ Hall8) as [_ Hclean].
    unfold validateVerificationCode. rewrite Hclean, len_eight, Hlen8. simpl.
    apply (validateDammFull_same_digit base check check d); auto. lia. }
  split; [unfold generateVerificationCode; now rewrite Hk|].
  split; [now rewrite Hlen8, Hall8|].
  split; [exact Hvalid|].
  split.
  - unfold validateVerificationCode in *.
    now rewrite cleanCode_formatVerificationCode.
  - destruct base as [|a [|b [|c [|e [|f [|g [|h [|i base]]]]]]]]; try discriminate.
    unfold slice, sliceFrom. simpl String.length. simpl substring.
    unfold verifyDamm. change (String a _) with (str [a; b; c; e; f; g; h]) at 1.
    unfold str, string_of_list_ascii. rewrite Hk.
    destruct (alphabet_char_clean check Hin) as [Hup _]. apply Ascii.eqb_eq in Hup.
    simpl. rewrite Hup. now rewrite Ascii.eqb_refl.
Qed.

End VerificationCodeFacts.

(** ** Check characters: what is computed is accepted *)

Section CheckRoundTrips.

Lemma generateVerificationCode_valid_witness :
  exists code,
    generateVerificationCode "ABCDEFG" = Ok code
    /\ hasShape 8 (inAlphabet VERIFICATION_CODE_ALPHABET) code = true
    /\ validateVerificationCode code = true
    /\ validateVerificationCode (formatVerificationCode code) = true
    /\ verifyDamm (slice code 0 7) (sliceFrom code 7) = true.
Proof.
  apply (generateVerificationCode_valid "ABCDEFG"). reflexivity.
Defined.

(** [X3].  Whatever [verifyDamm] accepts, [validateDammFull] accepts: if the
    check character computed for a non-empty base equals the given one up
    to case, the base followed by that character runs the table to 0. *)
Theorem verifyDamm_validateDammFull (base checkDigit : string) :
  (1 <= String.length base)%nat ->
  verifyDamm base checkDigit = true ->
  validateDammFull (base ++ checkDigit) = true.
Proof.
  intros Hlen H. unfold verifyDamm in H.
  destruct (calculateDammCheck base) as [k|] eqn:Hk; [|discriminate].
  apply String.eqb_eq in H.
  destruct (calculateDammCheck_char base k Hk) as (check & d & -> & Hin & Hd).
  destruct checkDigit as [|c [|c' rest]]; try discriminate H.
  injection H as H.
  apply (validateDammFull_same_digit base check c d Hlen Hk Hd).
  destruct (alphabet_char_clean check Hin) as [Hup _]. apply Ascii.eqb_eq in Hup.
  unfold charToDigit in *. rewrite Hup in Hd. rewrite <- H.
  destruct (indexOf VERIFICATION_CODE_ALPHABET check =? -1); [discriminate | exact Hd].
Qed.

Lemma verifyDamm_validateDammFull_witness :
  validateDammFull ("ABCDEFG" ++ "g") = true.
Proof.
  apply (verifyDamm_validateDammFull "ABCDEFG" "g"); [simpl; lia | reflexivity].
Defined.

Lemma validateLoop_valid_chars (chars : string) :
  forall s r,
    validateLoop (mapString toUpperCaseChar chars) s = Some r ->
    forallString isValidAlphabetChar chars = true.
Proof.
  induction chars as [|c chars IH]; intros s r H; [reflexivity|].
  cbn [mapString] in H. rewrite validateLoop_cons in H.
  unfold charToDigit in H. rewrite toUpperCaseChar_idem in H.
  cbn [forallString]. unfold isValidAlphabetChar at 1.
  destruct (indexOf VERIFICATION_CODE_ALPHABET (toUpperCaseChar c) =? -1);
    [discriminate|].
  destruct (dammStep s _) as [n|]; [|discriminate].
  simpl. eapply IH; eassumption.
Qed.

Lemma existsString_cleanCode (c : ascii) (code : string) :
  isSeparator c = false ->
  existsString (Ascii.eqb c) code = true ->
  existsString (Ascii.eqb (toUpperCaseChar c)) (cleanCode code) = true.
Proof.
  intros Hsep. unfold cleanCode, toUpperCase.
  induction code as [|x code IH]; simpl; [discriminate|].
  intros H. apply orb_true_iff in H as [H|H].
  - apply Ascii.eqb_eq in H. subst x. rewrite Hsep. simpl.
    now rewrite Ascii.eqb_refl.
  - destruct (isSeparator x); simpl; [auto|].
    rewrite (IH H). apply orb_true_r.
Qed.

Lemma valid_chars_exclude (c : ascii) (s : string) :
  isValidAlphabetChar c = false ->
  forallString isValidAlphabetChar s = true ->
  existsString (Ascii.eqb c) s = false.
Proof.
  intros Hc. induction s as [|x s IH]; simpl; intros H; [reflexivity|].
  apply andb_true_iff in H as [Hx Hs]. rewrite (IH Hs), orb_false_r.
  destruct (Ascii.eqb_spec c x) as [<-|]; [congruence | reflexivity].
Qed.

Lemma cleanCode_chars (code : string) :
  forallString isValidAlphabetChar (cleanCode code) = true ->
  forallString (fun c => isSeparator c || isValidAlphabetChar c) code = true.
Proof.
  unfold cleanCode, toUpperCase.
  induction code as [|c code IH]; simpl; [reflexivity|].
  destruct (isSeparator c); simpl; [exact IH|].
  intros H. apply andb_true_iff in H as [Hc Hs].
  unfold isValidAlphabetChar in Hc at 1. rewrite toUpperCaseChar_idem in Hc.
  fold (isValidAlphabetChar c) in Hc. now rewrite Hc, IH.
Qed.

(** [X4].  On codes of Basic Latin (every code unit below 128),
    [validateVerificationCode] never accepts a character outside the
    alphabet: an accepted code, once hyphens and white space are removed,
    consists of exactly eight characters for which [isValidAlphabetChar]
    holds; every character of the code as given is a hyphen, white space,
    or a character for which [isValidAlphabetChar] holds; and the code
    contains none of the excluded characters 0, 1, I, L, O in either
    letter case. *)
Theorem validateVerificationCode_alphabet_only (code : string) :
  isAscii code = true ->
  validateVerificationCode code = true ->
  hasShape 8 isValidAlphabetChar (cleanCode code) = true
  /\ forallString (fun c => isSeparator c || isValidAlphabetChar c) code = true
  /\ forall c, In c ["0"; "1"; "I"; "L"; "O"; "i"; "l"; "o"]%char ->
               existsString (Ascii.eqb c) code = false.
Proof.
  intros _. unfold validateVerificationCode. rewrite len_eight.
  destruct (Nat.eqb_spec (String.length (cleanCode code)) 8) as [Hlen|]; [|discriminate].
  cbn [negb]. unfold validateDammFull.
  destruct (len (cleanCode code) <? 2); [discriminate|].
  destruct (validateLoop (toUpperCase (cleanCode code)) 0) as [r|] eqn:Hloop;
    [|discriminate].
  intros _. apply validateLoop_valid_chars in Hloop.
  split; [unfold hasShape; now rewrite Hlen, Hloop|].
  split; [now apply cleanCode_chars|].
  intros c Hc.
  destruct (existsString (Ascii.eqb c) code) eqn:Hex; [|reflexivity].
  assert (isSeparator c = false /\ isValidAlphabetChar (toUpperCaseChar c) = false)
    as [Hsep Hbad].
  { simpl in Hc.
    repeat (destruct Hc as [<- | Hc]; [split; reflexivity|]). destruct Hc. }
  apply (existsString_cleanCode c code Hsep) in Hex.
  now rewrite (valid_chars_exclude _ _ Hbad Hloop) in Hex.
Qed.

Lemma validateVerificationCode_alphabet_only_witness :
  hasShape 8 isValidAlphabetChar (cleanCode "abcd-efgg") = true
  /\ forallString (fun c => isSeparator c || isValidAlphabetChar c) "abcd-efgg" = true
  /\ forall c, In c ["0"; "1"; "I"; "L"; "O"; "i"; "l"; "o"]%char ->
               existsString (Ascii.eqb c) "abcd-efgg" = false.
Proof.
  apply (validateVerificationCode_alphabet_only "abcd-efgg"); reflexivity.
Defined.

(** [parseVerificationCode] splits the cleaned code without losing a
    character: when it returns a base and a check character, they have 7
    and 1 characters, concatenate to the cleaned code, and
    [validateVerificationCode] is the Damm validation of their
    concatenation; when it returns [null], the cleaned code does not have 8
    characters and [validateVerificationCode] rejects the code. *)
Theorem parseVerificationCode_split (code : string) :
  match parseVerificationCode code with
  | Some (base, checkDigit) =>
      base ++ checkDigit = cleanCode code
      /\ String.length base = 7%nat
      /\ String.length checkDigit = 1%nat
      /\ validateVerificationCode code = validateDammFull (base ++ checkDigit)
  | None =>
      String.length (cleanCode code) <> 8%nat
      /\ validateVerificationCode code = false
  end.
Proof.
  unfold parseVerificationCode, validateVerificationCode. rewrite len_eight.
  destruct (Nat.eqb_spec (String.length (cleanCode code)) 8) as [Hlen|Hlen];
    cbn [negb]; [|split; [exact Hlen | reflexivity]].
  destruct (length_eight _ Hlen) as (a & b & c & d & e & f & g & h & ->).
  repeat split.
Qed.

Lemma substring_app_right (s t : string) :
  String.substring (String.length s) (String.length t) (s ++ t) = t.
Proof.
  induction s as [|c s IH]; simpl; [|exact IH].
  induction t as [|c t IH]; simpl; [reflexivity | now rewrite IH].
Qed.

Lemma substring_app_left (s t : string) :
  String.substring 0 (String.length s) (s ++ t) = s.
Proof.
  induction s as [|c s IH]; simpl; [destruct t; reflexivity | now rewrite IH].
Qed.

Lemma alnum_upper_inISO (c : ascii) :
  isAlnumCI c = true -> inAlphabet ISO7064_ALPHABET (toUpperCaseChar c) = true.
Proof.
  assert (implb (isAlnumCI c) (inAlphabet ISO7064_ALPHABET (toUpperCaseChar c)) = true)
    as H by (revert c; apply ascii_all; vm_compute; reflexivity).
  intros Hc. now rewrite Hc in H.
Qed.

Lemma alnum_toUpperCase_inISO (s : string) :
  forallString isAlnumCI s = true ->
  forallString (inAlphabet ISO7064_ALPHABET) (toUpperCase s) = true.
Proof.
  unfold toUpperCase. induction s as [|c s IH]; simpl; [reflexivity|].
  intros H. apply andb_true_iff in H as [Hc Hs].
  now rewrite (alnum_upper_inISO c Hc), IH.
Qed.

(** [X5].  The check character computed for a non-empty input of digits
    0-9 and letters a-z, A-Z is accepted back: [verifyISO7064] accepts it
    for the input, and [validateISO7064Full] accepts the input followed by
    it.  The empty input is the exception: its check character is [1], and
    [validateISO7064Full] refuses the one-character string [1]. *)
Theorem validateISO7064Full_calculateISO7064Check :
  (forall input,
      (1 <= String.length input)%nat ->
      forallString isAlnumCI input = true ->
      exists check,
        calculateISO7064Check input = Ok check
        /\ verifyISO7064 input check = true
        /\ validateISO7064Full (input ++ check) = true)
  /\ calculateISO7064Check "" = Ok "1"
  /\ verifyISO7064 "" "1" = true
  /\ validateISO7064Full ("" ++ "1") = false.
Proof.
  split; [|repeat split; reflexivity].
  intros input Hlen Halnum.
  pose proof (alnum_toUpperCase_inISO input Halnum) as Hall.
  destruct (calculateISO7064Check_total input Hall) as [k Hk].
  exists k. split; [exact Hk|].
  assert (verifyISO7064 input k = true) as Hverify.
  { unfold verifyISO7064. rewrite Hk.
    pose proof (checkDigit_shape _ _ Hk) as Hshape.
    rewrite (toUpperCase_notLower k)
      by exact (hasShape_impl _ _ _ _ digit_notLower Hshape).
    apply String.eqb_refl. }
  split; [exact Hverify|].
  destruct (calculateISO7064Check_digit _ _ Hk) as (v & _ & Hv).
  assert (String.length k = 1%nat) as Hk1 by (now subst k).
  unfold validateISO7064Full, len, slice, sliceFrom.
  rewrite append_length, Hk1.
  destruct (Z.ltb_spec (Z.of_nat (String.length input + 1)) 2) as [|_]; [lia|].
  replace (String.length input + 1 - 1 - 0)%nat with (String.length input) by lia.
  replace (String.length input + 1 - 1)%nat with (String.length input) by lia.
  replace (String.length input + 1 - String.length input)%nat
    with (String.length k) by lia.
  now rewrite substring_app_left, substring_app_right.
Qed.

Lemma validateISO7064Full_calculateISO7064Check_witness :
  exists check,
    calculateISO7064Check "rs2026ginswg000001" = Ok check
    /\ verifyISO7064 "rs2026ginswg000001" check = true
    /\ validateISO7064Full ("rs2026ginswg000001" ++ check) = true.
Proof.
  apply (proj1 validateISO7064Full_calculateISO7064Check "rs2026ginswg000001");
    [simpl; lia | reflexivity].
Defined.

End CheckRoundTrips.

(** ** Fixed-width patterns: what they accept *)

Section PatternFacts.

Lemma stripLiteral_app (ci : bool) (lit rest : string) :
  stripLiteral ci lit (lit ++ rest) = Some rest.
Proof.
  induction lit as [|l lit IH]; simpl; [reflexivity|].
  rewrite !Ascii.eqb_refl. destruct ci; exact IH.
Qed.

Lemma stripLiteral_sound (lit s r : string) :
  stripLiteral false lit s = Some r -> s = lit ++ r.
Proof.
  revert s. induction lit as [|l lit IH]; simpl; intros s H.
  - now injection H as ->.
  - destruct s as [|c s]; [discriminate|].
    destruct (Ascii.eqb_spec c l) as [->|]; [|discriminate].
    now rewrite (IH s H).
Qed.

Lemma takeClass_app (n : nat) (p : ascii -> bool) (g rest : string) :
  hasShape n p g = true -> takeClass n p (g ++ rest) = Some (g, rest).
Proof.
  unfold hasShape. revert g. induction n as [|n IH]; intros g H;
    apply andb_true_iff in H as [Hlen Hall]; apply Nat.eqb_eq in Hlen.
  - destruct g; [reflexivity | discriminate].
  - destruct g as [|c g]; [discriminate|]. simpl in *.
    apply andb_true_iff in Hall as [Hc Hg]. rewrite Hc, IH; [reflexivity|].
    rewrite Hg, andb_true_r. apply Nat.eqb_eq. lia.
Qed.

Lemma takeClass_sound (n : nat) (p : ascii -> bool) (s g r : string) :
  takeClass n p s = Some (g, r) -> s = g ++ r /\ hasShape n p g = true.
Proof.
  revert s g. induction n as [|n IH]; simpl; intros s g H.
  - injection H as <- <-. now split.
  - destruct s as [|c s]; [discriminate|].
    destruct (p c) eqn:Hc; [|discriminate].
    destruct (takeClass n p s) as [[g' r']|] eqn:Hrec; [|discriminate].
    injection H as <- <-. apply IH in Hrec as [-> Hg].
    split; [reflexivity|]. unfold hasShape in *. simpl. now rewrite Hc.
Qed.

Lemma append_nil_r (s : string) : s ++ EmptyString = s.
Proof. induction s as [|c s IH]; simpl; [reflexivity | now rewrite IH]. Qed.

Lemma append_inv_head (s t u : string) : s ++ t = s ++ u -> t = u.
Proof.
  induction s as [|c s IH]; simpl; intros H; [exact H|].
  injection H as H. now apply IH.
Qed.

(** Two strings that split at their first character outside a class split
    at the same place. *)
Lemma class_sep_inj (p : ascii -> bool) (c : ascii) (a a' b b' : string) :
  forallString p a = true -> forallString p a' = true -> p c = false ->
  a ++ String c b = a' ++ String c b' -> a = a' /\ b = b'.
Proof.
  intros Ha Ha' Hc. revert a' Ha'.
  induction a as [|x a IH]; intros [|x' a'] Ha'; simpl in *; intros H.
  - injection H as ->. now split.
  - injection H as -> _. apply andb_true_iff in Ha' as [Hx _]. congruence.
  - injection H as -> _. apply andb_true_iff in Ha as [Hx _]. congruence.
  - injection H as -> H. apply andb_true_iff in Ha as [_ Ha].
    apply andb_true_iff in Ha' as [_ Ha'].
    destruct (IH Ha a' Ha' H) as [-> ->]. now split.
Qed.

Lemma isEmpty_false_length (s : string) :
  (1 <= String.length s)%nat -> isEmpty s = false.
Proof. destruct s; simpl; [lia | reflexivity]. Qed.

Lemma isEmpty_true (s : string) : isEmpty s = true -> s = EmptyString.
Proof. unfold isEmpty. apply String.eqb_eq. Qed.

End PatternFacts.

(** ** Letter case *)

Section CaseFacts.

Lemma toLowerCaseChar_idem (c : ascii) :
  toLowerCaseChar (toLowerCaseChar c) = toLowerCaseChar c.
Proof.
  apply Ascii.eqb_eq. revert c. apply ascii_all. vm_compute. reflexivity.
Qed.

Lemma toUpper_toLower_char (c : ascii) :
  toUpperCaseChar (toLowerCaseChar c) = toUpperCaseChar c.
Proof.
  apply Ascii.eqb_eq. revert c. apply ascii_all. vm_compute. reflexivity.
Qed.

Lemma toLower_toUpper_char (c : ascii) :
  toLowerCaseChar (toUpperCaseChar c) = toLowerCaseChar c.
Proof.
  apply Ascii.eqb_eq. revert c. apply ascii_all. vm_compute. reflexivity.
Qed.

Lemma isLowerChar_toLower (c : ascii) :
  isLowerChar (toLowerCaseChar c) = isLetterCI c.
Proof.
  apply Bool.eqb_prop. revert c. apply ascii_all. vm_compute. reflexivity.
Qed.

Lemma lower_toLower (c : ascii) : isLowerChar c = true -> toLowerCaseChar c = c.
Proof.
  assert (implb (isLowerChar c) (Ascii.eqb (toLowerCaseChar c) c) = true) as H
      by (revert c; apply ascii_all; vm_compute; reflexivity).
  intros Hc. rewrite Hc in H. now apply Ascii.eqb_eq.
Qed.

Lemma digit_toLower (c : ascii) : isDigitChar c = true -> toLowerCaseChar c = c.
Proof.
  assert (implb (isDigitChar c) (Ascii.eqb (toLowerCaseChar c) c) = true) as H
      by (revert c; apply ascii_all; vm_compute; reflexivity).
  intros Hc. rewrite Hc in H. now apply Ascii.eqb_eq.
Qed.

Lemma isHexCI_toLower (c : ascii) : isHexCI (toLowerCaseChar c) = isHexCI c.
Proof.
  apply Bool.eqb_prop. revert c. apply ascii_all. vm_compute. reflexivity.
Qed.

Lemma mapString_mapString (f g : ascii -> ascii) (s : string) :
  mapString f (mapString g s) = mapString (fun c => f (g c)) s.
Proof.
  induction s as [|c s IH]; simpl; [reflexivity | now rewrite IH].
Qed.

Lemma mapString_ext (f g : ascii -> ascii) (s : string) :
  (forall c, f c = g c) -> mapString f s = mapString g s.
Proof.
  intros H. induction s as [|c s IH]; simpl; [reflexivity | now rewrite H, IH].
Qed.

Lemma mapString_fixed (p : ascii -> bool) (f : ascii -> ascii) (s : string) :
  (forall c, p c = true -> f c = c) ->
  forallString p s = true -> mapString f s = s.
Proof.
  intros Hf. induction s as [|c s IH]; simpl; intros H; [reflexivity|].
  apply andb_true_iff in H as [Hc Hs]. now rewrite (Hf c Hc), (IH Hs).
Qed.

Lemma forallString_mapString (p : ascii -> bool) (f : ascii -> ascii) (s : string) :
  forallString p (mapString f s) = forallString (fun c => p (f c)) s.
Proof.
  induction s as [|c s IH]; simpl; [reflexivity | now rewrite IH].
Qed.

Lemma forallString_ext (p q : ascii -> bool) (s : string) :
  (forall c, p c = q c) -> forallString p s = forallString q s.
Proof.
  intros H. induction s as [|c s IH]; simpl; [reflexivity | now rewrite H, IH].
Qed.

Lemma hasShape_mapString (n : nat) (p : ascii -> bool) (f : ascii -> ascii) (s : string) :
  hasShape n p (mapString f s) = hasShape n (fun c => p (f c)) s.
Proof.
  unfold hasShape. now rewrite mapString_length, forallString_mapString.
Qed.

Lemma hasShape_ext (n : nat) (p q : ascii -> bool) (s : string) :
  (forall c, p c = q c) -> hasShape n p s = hasShape n q s.
Proof.
  intros H. unfold hasShape. now rewrite (forallString_ext p q s H).
Qed.

Lemma hasShape_length (n : nat) (p : ascii -> bool) (s : string) :
  hasShape n p s = true -> String.length s = n.
Proof.
  unfold hasShape. intros H. apply andb_true_iff in H as [H _].
  now apply Nat.eqb_eq.
Qed.

Lemma hasShape_forall (n : nat) (p : ascii -> bool) (s : string) :
  hasShape n p s = true -> forallString p s = true.
Proof.
  unfold hasShape. intros H. now apply andb_true_iff in H as [_ H].
Qed.

Lemma toLowerCase_idem (s : string) : toLowerCase (toLowerCase s) = toLowerCase s.
Proof.
  unfold toLowerCase. rewrite mapString_mapString.
  apply mapString_ext, toLowerCaseChar_idem.
Qed.

Lemma toUpperCase_toLowerCase (s : string) :
  toUpperCase (toLowerCase s) = toUpperCase s.
Proof.
  unfold toUpperCase, toLowerCase. rewrite mapString_mapString.
  apply mapString_ext, toUpper_toLower_char.
Qed.

Lemma toLowerCase_toUpperCase (s : string) :
  toLowerCase (toUpperCase s) = toLowerCase s.
Proof.
  unfold toUpperCase, toLowerCase. rewrite mapString_mapString.
  apply mapString_ext, toLower_toUpper_char.
Qed.

Lemma toLowerCase_app (s t : string) :
  toLowerCase (s ++ t) = toLowerCase s ++ toLowerCase t.
Proof. apply mapString_app. Qed.

Lemma toLowerCase_digits (s : string) :
  forallString isDigitChar s = true -> toLowerCase s = s.
Proof. apply mapString_fixed. exact digit_toLower. Qed.

Lemma toLowerCase_lower (s : string) :
  forallString isLowerChar s = true -> toLowerCase s = s.
Proof. apply mapString_fixed. exact lower_toLower. Qed.

Lemma hasShape_toLowerCase (n : nat) (s : string) :
  hasShape n isLowerChar (toLowerCase s) = isLetters n s.
Proof.
  unfold toLowerCase, isLetters. rewrite hasShape_mapString.
  apply hasShape_ext, isLowerChar_toLower.
Qed.

Lemma lower_letter (c : ascii) : isLowerChar c = true -> isLetterCI c = true.
Proof. unfold isLetterCI. intros ->. apply orb_true_r. Qed.

End CaseFacts.

(** ** Strings of decimal digits *)

Section DigitStringFacts.

Lemma parseDigits_acc (s : string) :
  forallString isDigitChar s = true ->
  forall acc,
    parseDigits s acc = acc * 10 ^ Z.of_nat (String.length s) + parseDigits s 0
    /\ 0 <= parseDigits s 0 < 10 ^ Z.of_nat (String.length s).
Proof.
  induction s as [|c s IH]; intros H acc.
  - cbn [parseDigits String.length]. change (10 ^ Z.of_nat 0) with 1. lia.
  - cbn [forallString] in H. apply andb_true_iff in H as [Hc Hs].
    cbn [parseDigits String.length]. rewrite Hc.
    assert (0 <= code c - 48 <= 9) as Hd.
    { unfold isDigitChar in Hc. apply andb_true_iff in Hc as [H1 H2]. lia. }
    destruct (IH Hs (acc * 10 + (code c - 48))) as [E1 _].
    destruct (IH Hs (0 * 10 + (code c - 48))) as [E2 B].
    rewrite E1, E2. rewrite Nat2Z.inj_succ, Z.pow_succ_r by lia.
    set (P := 10 ^ Z.of_nat (String.length s)) in *.
    split; [ring | nia].
Qed.

Lemma code_inj (a b : ascii) : code a = code b -> a = b.
Proof.
  unfold code. intros H. apply Nat2Z.inj in H.
  rewrite <- (ascii_nat_embedding a), <- (ascii_nat_embedding b). now rewrite H.
Qed.

(** Digit strings of one length are determined by their values. *)
Lemma parseDigits_inj (s : string) :
  forall t,
    forallString isDigitChar s = true -> forallString isDigitChar t = true ->
    String.length s = String.length t ->
    parseDigits s 0 = parseDigits t 0 -> s = t.
Proof.
  induction s as [|c s IH]; intros [|d t] Hs Ht Hlen Hv; try discriminate Hlen;
    [reflexivity|].
  cbn [forallString] in Hs, Ht.
  apply andb_true_iff in Hs as [Hc Hs]. apply andb_true_iff in Ht as [Hd Ht].
  cbn [String.length] in Hlen. injection Hlen as Hlen.
  cbn [parseDigits] in Hv. rewrite Hc, Hd in Hv.
  destruct (parseDigits_acc s Hs (0 * 10 + (code c - 48))) as [E1 B1].
  destruct (parseDigits_acc t Ht (0 * 10 + (code d - 48))) as [E2 B2].
  rewrite E1, E2, <- Hlen in Hv. rewrite <- Hlen in B2.
  assert (0 <= code c - 48 <= 9) as Rc.
  { unfold isDigitChar in Hc. apply andb_true_iff in Hc as [H1 H2]. lia. }
  assert (0 <= code d - 48 <= 9) as Rd.
  { unfold isDigitChar in Hd. apply andb_true_iff in Hd as [H1 H2]. lia. }
  set (P := 10 ^ Z.of_nat (String.length s)) in *.
  assert (code c - 48 = code d - 48) as Ecd.
  { destruct (Z.lt_trichotomy (code c - 48) (code d - 48)) as [Hlt|[Heq|Hgt]];
      [exfalso | exact Heq | exfalso]; nia. }
  assert (parseDigits s 0 = parseDigits t 0) as Est by (rewrite Ecd in Hv; lia).
  f_equal; [apply code_inj; lia | now apply IH].
Qed.

Lemma naturalToString_length_ge (k : nat) (n : Z) :
  10 ^ Z.of_nat k <= n -> (S k <= String.length (naturalToString n))%nat.
Proof.
  intros Hn. assert (0 <= n) as Hpos.
  { pose proof (Z.pow_pos_nonneg 10 (Z.of_nat k)). lia. }
  unfold naturalToString. change (string_of_list_ascii ?l) with (str l).
  rewrite str_length, length_rev. apply digitsRev_length_ge.
  split; [exact Hn | now apply log2_fuel].
Qed.

Lemma padStart0_length (width : nat) (s : string) :
  (String.length s <= width)%nat -> String.length (padStart0 width s) = width.
Proof.
  intros H. unfold padStart0. rewrite append_length, zeros_length. lia.
Qed.

Lemma padStart0_long (width : nat) (s : string) :
  (width <= String.length s)%nat -> padStart0 width s = s.
Proof.
  intros H. unfold padStart0.
  replace (width - String.length s)%nat with 0%nat by lia. reflexivity.
Qed.

(** Rendering the value of a non-empty digit string and padding it to the
    string's length gives the string back. *)
Lemma padStart0_parseDigits (s : string) :
  (1 <= String.length s)%nat -> forallString isDigitChar s = true ->
  padStart0 (String.length s) (naturalToString (parseDigits s 0)) = s.
Proof.
  intros Hlen Hs. destruct (parseDigits_acc s Hs 0) as [_ B].
  destruct (String.length s) as [|k] eqn:Ek; [lia|].
  pose proof (naturalToString_length_le k _ B) as Hle.
  apply parseDigits_inj.
  - unfold padStart0. rewrite forallString_app, forallString_zeros.
    apply naturalToString_digits. lia.
  - exact Hs.
  - rewrite padStart0_length; lia.
  - unfold padStart0. rewrite parseDigits_zeros. apply naturalToString_parse. lia.
Qed.

Lemma numberToString_natural (n : Z) :
  0 <= n -> numberToString (Num n) = naturalToString n.
Proof.
  intros H. unfold numberToString. destruct (Z.ltb_spec n 0); [lia | reflexivity].
Qed.

(** A string of four digits whose value is at least 1000 is the rendering
    of its value. *)
Lemma naturalToString_parseDigits4 (s : string) :
  hasShape 4 isDigitChar s = true -> 1000 <= parseDigits s 0 ->
  naturalToString (parseDigits s 0) = s.
Proof.
  intros H Hv. pose proof (hasShape_length _ _ _ H) as Hlen.
  pose proof (hasShape_forall _ _ _ H) as Hs.
  rewrite <- (padStart0_parseDigits s) at 2 by (rewrite ?Hlen; auto; lia).
  rewrite padStart0_long; [reflexivity|].
  rewrite Hlen. apply (naturalToString_length_ge 3). exact Hv.
Qed.

(** A value below 1000 renders in fewer than four characters. *)
Lemma naturalToString_short (v : Z) :
  0 <= v < 1000 -> (String.length (naturalToString v) <= 3)%nat.
Proof. intros H. apply (naturalToString_length_le 2). exact H. Qed.

Lemma year_rendering_inv (y : Z) :
  0 <= y -> String.length (naturalToString y) = 4%nat -> 1000 <= y <= 9999.
Proof.
  intros Hy Hlen. split.
  - destruct (Z.le_gt_cases 1000 y) as [|Hlt]; [assumption|].
    pose proof (naturalToString_short y ltac:(lia)). lia.
  - destruct (Z.le_gt_cases y 9999) as [|Hgt]; [assumption|].
    pose proof (naturalToString_length_ge 4 y ltac:(change (10 ^ Z.of_nat 4) with 10000; lia)).
    lia.
Qed.

Lemma serial_rendering_inv (n : Z) :
  0 <= n -> String.length (padStart0 6 (naturalToString n)) = 6%nat -> n <= 999999.
Proof.
  intros Hn Hlen.
  destruct (Z.le_gt_cases n 999999) as [|Hgt]; [assumption|].
  pose proof (naturalToString_length_ge 6 n
                ltac:(change (10 ^ Z.of_nat 6) with 1000000; lia)) as Hge.
  rewrite padStart0_long in Hlen by lia. lia.
Qed.

Lemma padded_digits_lower (n : Z) :
  0 <= n -> forallString isDigitChar (padStart0 6 (naturalToString n)) = true.
Proof.
  intros Hn. unfold padStart0. rewrite forallString_app, forallString_zeros.
  now apply naturalToString_digits.
Qed.

End DigitStringFacts.

(** ** Credential IDs and DIDs *)

Section UrnFacts.

Lemma matchCredentialPattern_complete (i y n : string) :
  hasShape 3 isLowerChar i = true ->
  hasShape 4 isDigitChar y = true ->
  hasShape 6 isDigitChar n = true ->
  matchCredentialPattern ("urn:rscp:credential:" ++ i ++ ":" ++ y ++ ":" ++ n)
  = Some (i, y, n).
Proof.
  intros Hi Hy Hn. unfold matchCredentialPattern.
  rewrite stripLiteral_app, (takeClass_app _ _ _ _ Hi), stripLiteral_app,
    (takeClass_app _ _ _ _ Hy), stripLiteral_app.
  rewrite <- (append_nil_r n) at 1. rewrite (takeClass_app _ _ _ _ Hn).
  reflexivity.
Qed.

Lemma matchCredentialPattern_sound (s i y n : string) :
  matchCredentialPattern s = Some (i, y, n) ->
  s = "urn:rscp:credential:" ++ i ++ ":" ++ y ++ ":" ++ n
  /\ hasShape 3 isLowerChar i = true
  /\ hasShape 4 isDigitChar y = true
  /\ hasShape 6 isDigitChar n = true.
Proof.
  unfold matchCredentialPattern. intros H.
  destruct (stripLiteral false "urn:rscp:credential:" s) as [r1|] eqn:E1;
    [|discriminate].
  destruct (takeClass 3 isLowerChar r1) as [[i' r2]|] eqn:E2; [|discriminate].
  destruct (stripLiteral false ":" r2) as [r3|] eqn:E3; [|discriminate].
  destruct (takeClass 4 isDigitChar r3) as [[y' r4]|] eqn:E4; [|discriminate].
  destruct (stripLiteral false ":" r4) as [r5|] eqn:E5; [|discriminate].
  destruct (takeClass 6 isDigitChar r5) as [[n' r6]|] eqn:E6; [|discriminate].
  destruct (isEmpty r6) eqn:E7; [|discriminate].
  injection H as -> -> ->.
  apply stripLiteral_sound in E1, E3, E5.
  apply takeClass_sound in E2 as [E2 Hi], E4 as [E4 Hy], E6 as [E6 Hn].
  apply isEmpty_true in E7. subst r6. rewrite append_nil_r in E6.
  subst. repeat split; assumption.
Qed.

Lemma colon_not_lower : isLowerChar ":" = false.
Proof. reflexivity. Qed.

Lemma colon_not_digit : isDigitChar ":" = false.
Proof. reflexivity. Qed.

Lemma generateCredentialId_lower (issuerCode : string) (y n : Z) :
  0 <= y -> 0 <= n ->
  toLowerCase (generateCredentialId issuerCode (Num y) (Num n))
  = generateCredentialId issuerCode (Num y) (Num n)
  /\ generateCredentialId issuerCode (Num y) (Num n)
     = "urn:rscp:credential:" ++ toLowerCase issuerCode ++ ":" ++ naturalToString y
         ++ ":" ++ padStart0 6 (naturalToString n).
Proof.
  intros Hy Hn. unfold generateCredentialId. cbv zeta.
  rewrite !numberToString_natural by assumption.
  split; [|reflexivity].
  rewrite !toLowerCase_app, toLowerCase_idem.
  rewrite (toLowerCase_digits (naturalToString y))
    by (apply naturalToString_digits; exact Hy).
  rewrite (toLowerCase_digits (padStart0 6 (naturalToString n)))
    by (apply padded_digits_lower; exact Hn).
  reflexivity.
Qed.

(** Parsing a generated credential ID whose year has four digits and
    whose serial has at most six. *)
Lemma parseCredentialId_generated (issuerCode : string) (y n : Z) :
  isLetters 3 issuerCode = true -> 1000 <= y <= 9999 -> 0 <= n <= 999999 ->
  parseCredentialId (generateCredentialId issuerCode (Num y) (Num n))
  = Some {| cid_issuerCode := toUpperCase issuerCode;
            cid_year := Num y;
            cid_serial := Num n |}.
Proof.
  intros Hi Hy Hn.
  pose proof Hi as Hli. rewrite <- hasShape_toLowerCase in Hli.
  destruct (generateCredentialId_lower issuerCode y n ltac:(lia) ltac:(lia))
    as [Hlower Hform].
  unfold parseCredentialId. rewrite Hlower, Hform.
  destruct (year_rendering y Hy) as [SY PY].
  destruct (serial_rendering n Hn) as [SN PN].
  rewrite numberToString_natural in SY, PY, SN, PN by lia.
  rewrite (matchCredentialPattern_complete _ _ _ Hli SY SN).
  rewrite (hasShape_nonempty _ _ _ Hli), (hasShape_nonempty _ _ _ SY),
    (hasShape_nonempty _ _ _ SN).
  cbn [orb]. rewrite PY, PN. now rewrite toUpperCase_toLowerCase.
Qed.

(** [X6].  [parseCredentialId] reads back what [generateCredentialId]
    wrote exactly when the year has four digits and the serial at most
    six: for an issuer code of three letters and non-negative integers
    [y] and [n], parsing the generated ID gives the upper-cased issuer
    code, [y] and [n] if 1000 <= y <= 9999 and n <= 999999, and [null]
    otherwise ([generateCredentialId] itself accepts every input). *)
Theorem parseCredentialId_generateCredentialId (issuerCode : string) (y n : Z) :
  isLetters 3 issuerCode = true -> 0 <= y -> 0 <= n ->
  parseCredentialId (generateCredentialId issuerCode (Num y) (Num n))
  = if (1000 <=? y) && (y <=? 9999) && (n <=? 999999)
    then Some {| cid_issuerCode := toUpperCase issuerCode;
                 cid_year := Num y;
                 cid_serial := Num n |}
    else None.
Proof.
  intros Hi Hy Hn.
  destruct ((1000 <=? y) && (y <=? 9999) && (n <=? 999999)) eqn:Hrange.
  - apply andb_true_iff in Hrange as [Hrange H3].
    apply andb_true_iff in Hrange as [H1 H2].
    apply Z.leb_le in H1, H2, H3.
    apply parseCredentialId_generated; [exact Hi | lia | lia].
  - pose proof Hi as Hli. rewrite <- hasShape_toLowerCase in Hli.
    destruct (generateCredentialId_lower issuerCode y n Hy Hn) as [Hlower Hform].
    unfold parseCredentialId. rewrite Hlower, Hform.
    set (ys := naturalToString y) in *.
    set (ns := padStart0 6 (naturalToString n)) in *.
    destruct (matchCredentialPattern
                ("urn:rscp:credential:" ++ toLowerCase issuerCode ++ ":" ++ ys
                   ++ ":" ++ ns))
      as [[[i' y'] n']|] eqn:Hmatch; [exfalso | reflexivity].
    apply matchCredentialPattern_sound in Hmatch as (Heq & Si & Sy & Sn).
    apply append_inv_head in Heq.
    apply (class_sep_inj isLowerChar) in Heq as [_ Heq];
      [ | exact (hasShape_forall _ _ _ Hli) | exact (hasShape_forall _ _ _ Si)
        | exact colon_not_lower ].
    apply (class_sep_inj isDigitChar) in Heq as [Ey En];
      [ | apply naturalToString_digits; exact Hy
        | exact (hasShape_forall _ _ _ Sy) | exact colon_not_digit ].
    subst y' n'.
    pose proof (year_rendering_inv y Hy (hasShape_length _ _ _ Sy)) as Ry.
    pose proof (serial_rendering_inv n Hn (hasShape_length _ _ _ Sn)) as Rn.
    destruct (Z.leb_spec 1000 y); [|lia]. destruct (Z.leb_spec y 9999); [|lia].
    destruct (Z.leb_spec n 999999); [discriminate Hrange | lia].
Qed.

Lemma parseCredentialId_generateCredentialId_witness :
  parseCredentialId (generateCredentialId "Swg" (Num 2026) (Num 1))
  = if (1000 <=? 2026) && (2026 <=? 9999) && (1 <=? 999999)
    then Some {| cid_issuerCode := toUpperCase "Swg";
                 cid_year := Num 2026;
                 cid_serial := Num 1 |}
    else None.
Proof.
  apply (parseCredentialId_generateCredentialId "Swg" 2026 1);
    [reflexivity | lia | lia].
Defined.

(** [X7].  What [parseCredentialId] accepts: the issuer code it returns
    has three upper-case letters, the year is an integer in [0,9999] and
    the serial an integer in [0,999999]; and when the year is at least
    1000, [generateCredentialId] on the parsed components gives the
    lower-cased input back. *)
Theorem generateCredentialId_parseCredentialId (credentialId : string)
  (parts : CredentialIdParts) :
  parseCredentialId credentialId = Some parts ->
  exists y n,
    cid_year parts = Num y /\ cid_serial parts = Num n
    /\ 0 <= y <= 9999 /\ 0 <= n <= 999999
    /\ hasShape 3 isUpperChar (cid_issuerCode parts) = true
    /\ (1000 <= y ->
        generateCredentialId (cid_issuerCode parts) (cid_year parts) (cid_serial parts)
        = toLowerCase credentialId).
Proof.
  unfold parseCredentialId. intros H.
  destruct (matchCredentialPattern (toLowerCase credentialId))
    as [[[i ys] ns]|] eqn:Hmatch; [|discriminate].
  apply matchCredentialPattern_sound in Hmatch as (Heq & Si & Sy & Sn).
  rewrite (hasShape_nonempty _ _ _ Si), (hasShape_nonempty _ _ _ Sy),
    (hasShape_nonempty _ _ _ Sn) in H.
  cbn [orb] in H. injection H as <-.
  cbn [cid_issuerCode cid_year cid_serial].
  pose proof (hasShape_forall _ _ _ Sy) as Dy.
  pose proof (hasShape_forall _ _ _ Sn) as Dn.
  pose proof (hasShape_length _ _ _ Sy) as Ly.
  pose proof (hasShape_length _ _ _ Sn) as Ln.
  destruct (parseDigits_acc ys Dy 0) as [_ By].
  destruct (parseDigits_acc ns Dn 0) as [_ Bn].
  rewrite Ly in By. rewrite Ln in Bn.
  change (10 ^ Z.of_nat 4) with 10000 in By.
  change (10 ^ Z.of_nat 6) with 1000000 in Bn.
  exists (parseDigits ys 0), (parseDigits ns 0).
  rewrite (parseInt10_digits ys) by (rewrite ?Ly; auto; lia).
  rewrite (parseInt10_digits ns) by (rewrite ?Ln; auto; lia).
  repeat split; try lia.
  - apply isLetters_toUpperCase. unfold isLetters.
    unfold hasShape in *. apply andb_true_iff in Si as [-> Si]. simpl.
    revert Si. apply forallString_impl. exact lower_letter.
  - intros Hy. unfold generateCredentialId. cbv zeta.
    rewrite !numberToString_natural by lia.
    rewrite toLowerCase_toUpperCase, (toLowerCase_lower i (hasShape_forall _ _ _ Si)).
    rewrite (naturalToString_parseDigits4 ys Sy Hy).
    rewrite <- Ln at 1. rewrite (padStart0_parseDigits ns) by (rewrite ?Ln; auto; lia).
    now rewrite Heq.
Qed.

Lemma generateCredentialId_parseCredentialId_witness :
  exists y n,
    Num 2026 = Num y /\ Num 1 = Num n
    /\ 0 <= y <= 9999 /\ 0 <= n <= 999999
    /\ hasShape 3 isUpperChar "SWG" = true
    /\ (1000 <= y ->
        generateCredentialId "SWG" (Num 2026) (Num 1)
        = toLowerCase "URN:rscp:credential:Swg:2026:000001").
Proof.
  apply (generateCredentialId_parseCredentialId
           "URN:rscp:credential:Swg:2026:000001"
           {| cid_issuerCode := "SWG"; cid_year := Num 2026; cid_serial := Num 1 |}).
  reflexivity.
Defined.

Lemma generateIssuerDid_lower (issuerCode : string) :
  stripLiteral false "did:rscp:issuer:" (toLowerCase (generateIssuerDid issuerCode))
  = Some (toLowerCase issuerCode).
Proof.
  unfold generateIssuerDid. rewrite toLowerCase_app, toLowerCase_idem.
  change (toLowerCase "did:rscp:issuer:") with "did:rscp:issuer:".
  apply stripLiteral_app.
Qed.

Lemma parseIssuerDid_generated (issuerCode : string) :
  isLetters 3 issuerCode = true ->
  parseIssuerDid (generateIssuerDid issuerCode) = Some (toUpperCase issuerCode).
Proof.
  intros Hshape. unfold parseIssuerDid. rewrite generateIssuerDid_lower.
  rewrite <- hasShape_toLowerCase in Hshape.
  rewrite <- (append_nil_r (toLowerCase issuerCode)) at 1.
  rewrite (takeClass_app _ _ _ _ Hshape). cbn [isEmpty String.eqb].
  now rewrite toUpperCase_toLowerCase.
Qed.

(** [X8].  Issuer DIDs: for every string [issuerCode] of code units
    below 256, [parseIssuerDid (generateIssuerDid issuerCode)] is the
    upper-cased code when the code consists of exactly three letters a-z,
    A-Z, and [null] otherwise. *)
Theorem parseIssuerDid_generateIssuerDid (issuerCode : string) :
  parseIssuerDid (generateIssuerDid issuerCode)
  = if isLetters 3 issuerCode then Some (toUpperCase issuerCode) else None.
Proof.
  destruct (isLetters 3 issuerCode) eqn:Hshape.
  - now apply parseIssuerDid_generated.
  - unfold parseIssuerDid. rewrite generateIssuerDid_lower.
    destruct (takeClass 3 isLowerChar (toLowerCase issuerCode))
      as [[g r]|] eqn:Htake; [|reflexivity].
    destruct (isEmpty r) eqn:Hr; [exfalso | reflexivity].
    apply takeClass_sound in Htake as [Heq Hg].
    apply isEmpty_true in Hr. subst r. rewrite append_nil_r in Heq.
    rewrite <- Heq, hasShape_toLowerCase in Hg. congruence.
Qed.

Lemma takeUuid_app (g1 g2 g3 g4 g5 rest : string) :
  hasShape 8 isHexCI g1 = true ->
  hasShape 4 isHexCI g2 = true ->
  hasShape 4 isHexCI g3 = true ->
  hasShape 4 isHexCI g4 = true ->
  hasShape 12 isHexCI g5 = true ->
  takeUuid (g1 ++ "-" ++ g2 ++ "-" ++ g3 ++ "-" ++ g4 ++ "-" ++ g5 ++ rest)
  = Some (g1 ++ "-" ++ g2 ++ "-" ++ g3 ++ "-" ++ g4 ++ "-" ++ g5, rest).
Proof.
  intros H1 H2 H3 H4 H5. unfold takeUuid.
  rewrite (takeClass_app _ _ _ _ H1), stripLiteral_app,
    (takeClass_app _ _ _ _ H2), stripLiteral_app,
    (takeClass_app _ _ _ _ H3), stripLiteral_app,
    (takeClass_app _ _ _ _ H4), stripLiteral_app,
    (takeClass_app _ _ _ _ H5).
  reflexivity.
Qed.

Lemma hasShape_hex_toLowerCase (n : nat) (g : string) :
  hasShape n isHexCI g = true -> hasShape n isHexCI (toLowerCase g) = true.
Proof.
  intros H. unfold toLowerCase. rewrite hasShape_mapString.
  rewrite (hasShape_ext _ _ isHexCI g isHexCI_toLower). exact H.
Qed.

(** [X9].  Holder DIDs: for a user ID of the UUID shape (groups of 8, 4,
    4, 4 and 12 hexadecimal digits of either case, joined by hyphens),
    [parseHolderDid (generateHolderDid userId)] is the lower-cased user
    ID, while parsing the DID written with the user ID as given returns
    it unchanged (the pattern is case-insensitive and the match is not
    normalised). *)
Theorem parseHolderDid_generateHolderDid (g1 g2 g3 g4 g5 : string) :
  hasShape 8 isHexCI g1 = true ->
  hasShape 4 isHexCI g2 = true ->
  hasShape 4 isHexCI g3 = true ->
  hasShape 4 isHexCI g4 = true ->
  hasShape 12 isHexCI g5 = true ->
  let userId := g1 ++ "-" ++ g2 ++ "-" ++ g3 ++ "-" ++ g4 ++ "-" ++ g5 in
  parseHolderDid (generateHolderDid userId) = Some (toLowerCase userId)
  /\ parseHolderDid ("did:rscp:holder:" ++ userId) = Some userId
  /\ parseHolderDid ("DID:RSCP:HOLDER:" ++ userId) = Some userId.
Proof.
  intros H1 H2 H3 H4 H5 userId.
  assert (forall a1 a2 a3 a4 a5,
             hasShape 8 isHexCI a1 = true -> hasShape 4 isHexCI a2 = true ->
             hasShape 4 isHexCI a3 = true -> hasShape 4 isHexCI a4 = true ->
             hasShape 12 isHexCI a5 = true ->
             takeUuid (a1 ++ "-" ++ a2 ++ "-" ++ a3 ++ "-" ++ a4 ++ "-" ++ a5)
             = Some (a1 ++ "-" ++ a2 ++ "-" ++ a3 ++ "-" ++ a4 ++ "-" ++ a5,
                     EmptyString)) as Htake.
  { intros a1 a2 a3 a4 a5 A1 A2 A3 A4 A5.
    rewrite <- (append_nil_r a5) at 1. now apply takeUuid_app. }
  repeat split.
  - unfold parseHolderDid, generateHolderDid. rewrite stripLiteral_app.
    unfold userId. rewrite !toLowerCase_app.
    change (toLowerCase "-") with "-".
    rewrite Htake by (apply hasShape_hex_toLowerCase; assumption).
    reflexivity.
  - unfold parseHolderDid. rewrite stripLiteral_app.
    unfold userId. now rewrite Htake.
  - unfold parseHolderDid.
    change (stripLiteral true "did:rscp:holder:" ("DID:RSCP:HOLDER:" ++ userId))
      with (Some userId).
    unfold userId. now rewrite Htake.
Qed.

Lemma parseHolderDid_generateHolderDid_witness :
  let userId := "123E4567" ++ "-" ++ "e89b" ++ "-" ++ "12D3" ++ "-" ++ "a456"
                  ++ "-" ++ "426614174000" in
  parseHolderDid (generateHolderDid userId) = Some (toLowerCase userId)
  /\ parseHolderDid ("did:rscp:holder:" ++ userId) = Some userId
  /\ parseHolderDid ("DID:RSCP:HOLDER:" ++ userId) = Some userId.
Proof.
  apply (parseHolderDid_generateHolderDid "123E4567" "e89b" "12D3" "a456"
           "426614174000"); reflexivity.
Defined.

End UrnFacts.

(** ** Certificate numbers: what the parser accepts *)

Section CertificateParsing.

Lemma notLower_toUpperCaseChar (c : ascii) : notLower (toUpperCaseChar c) = true.
Proof. revert c. apply ascii_all. vm_compute. reflexivity. Qed.

Lemma toUpperCase_is_notLower (s : string) :
  forallString notLower (toUpperCase s) = true.
Proof.
  unfold toUpperCase. rewrite forallString_mapString.
  induction s as [|c s IH]; simpl; [reflexivity|].
  now rewrite notLower_toUpperCaseChar.
Qed.

Lemma eqCI_notLower (c lit : ascii) :
  eqCI c lit = true -> notLower c = true -> c = lit.
Proof.
  unfold eqCI, notLower. intros H Hc.
  apply Ascii.eqb_eq in H, Hc. congruence.
Qed.

Lemma letter_notLower_upper (c : ascii) :
  isLetterCI c = true -> notLower c = true -> isUpperChar c = true.
Proof.
  assert (implb (isLetterCI c && notLower c) (isUpperChar c) = true) as H
      by (revert c; apply ascii_all; vm_compute; reflexivity).
  intros Hl Hc. now rewrite Hl, Hc in H.
Qed.

Lemma alnum_notLower_base (c : ascii) :
  isAlnumCI c = true -> notLower c = true -> isBaseChar c = true.
Proof.
  unfold isAlnumCI, isBaseChar. intros H Hc.
  apply orb_true_iff in H as [H|H].
  - rewrite (letter_notLower_upper c H Hc). apply orb_true_r.
  - now rewrite H.
Qed.

Lemma level_notLower_code (c : ascii) :
  isLevelCI c = true -> notLower c = true -> isLevelCode (str [c]) = true.
Proof.
  unfold isLevelCI. intros H Hc.
  apply orb_true_iff in H as [H|H]; [apply orb_true_iff in H as [H|H]|];
    apply eqCI_notLower in H; try assumption; subst c; reflexivity.
Qed.

(** The certificate pattern, on a subject without lower-case letters: the
    subject is the display form of the six groups, and each group has the
    shape its class prescribes. *)
Lemma matchCertificatePattern_sound (s y l c i n k : string) :
  forallString notLower s = true ->
  matchCertificatePattern s = Some (y, l, c, i, n, k) ->
  s = display y l c i n k
  /\ hasShape 4 isDigitChar y = true
  /\ isLevelCode l = true
  /\ hasShape 2 isUpperChar c = true
  /\ hasShape 3 isUpperChar i = true
  /\ hasShape 6 isDigitChar n = true
  /\ hasShape 1 isBaseChar k = true.
Proof.
  unfold matchCertificatePattern. intros Hs H.
  destruct s as [|r [|s2 [|h1 [|y1 [|y2 [|y3 [|y4 [|h2 [|l1 [|h3 [|c1 [|c2 [|h4
    [|i1 [|i2 [|i3 [|h5 [|d1 [|d2 [|d3 [|d4 [|d5 [|d6 [|h6 [|k1 [|x rest
    ]]]]]]]]]]]]]]]]]]]]]]]]]]; try discriminate H.
  cbn [list_ascii_of_string] in H.
  match type of H with (if ?b then _ else _) = _ => destruct b eqn:Hcond end;
    [|discriminate H].
  injection H as <- <- <- <- <- <-.
  cbn [forallString] in Hs.
  repeat match goal with
         | H : _ && _ = true |- _ =>
             let H1 := fresh "F" in apply andb_true_iff in H as [H H1]
         end.
  repeat match goal with
         | H : eqCI ?c _ = true, N : notLower ?c = true |- _ =>
             apply (fun e => eqCI_notLower c _ e N) in H; subst c
         | H : isHyphen ?c = true |- _ =>
             apply Ascii.eqb_eq in H; subst c
         | H : isLetterCI ?c = true, N : notLower ?c = true |- _ =>
             apply (fun e => letter_notLower_upper c e N) in H
         | H : isAlnumCI ?c = true, N : notLower ?c = true |- _ =>
             apply (fun e => alnum_notLower_base c e N) in H
         | H : isLevelCI ?c = true, N : notLower ?c = true |- _ =>
             apply (fun e => level_notLower_code c e N) in H
         end.
  unfold hasShape, str.
  cbn [string_of_list_ascii String.length Nat.eqb forallString].
  repeat match goal with
         | H : isDigitChar _ = true |- _ => rewrite H; clear H
         | H : isUpperChar _ = true |- _ => rewrite H; clear H
         | H : isBaseChar _ = true |- _ => rewrite H; clear H
         end.
  repeat split; assumption.
Qed.

Lemma matchCertificatePattern_length (s : string) :
  String.length s <> 25%nat -> matchCertificatePattern s = None.
Proof.
  unfold matchCertificatePattern. intros H.
  destruct s as [|r [|s2 [|h1 [|y1 [|y2 [|y3 [|y4 [|h2 [|l1 [|h3 [|c1 [|c2 [|h4
    [|i1 [|i2 [|i3 [|h5 [|d1 [|d2 [|d3 [|d4 [|d5 [|d6 [|h6 [|k1 [|x rest
    ]]]]]]]]]]]]]]]]]]]]]]]]]]; try reflexivity.
  exfalso. apply H. reflexivity.
Qed.

End CertificateParsing.

(** ** Certificate numbers: generating, parsing, formatting *)

Section CertificateCodec.

Lemma isUpperChar_toUpper (c : ascii) :
  isUpperChar (toUpperCaseChar c) = isLetterCI c.
Proof.
  apply Bool.eqb_prop. revert c. apply ascii_all. vm_compute. reflexivity.
Qed.

Lemma hasShape_toUpperCase (n : nat) (s : string) :
  hasShape n isUpperChar (toUpperCase s) = isLetters n s.
Proof.
  unfold toUpperCase, isLetters. rewrite hasShape_mapString.
  apply hasShape_ext, isUpperChar_toUpper.
Qed.

Lemma isUpper2_hasShape (s : string) : isUpper2 s = hasShape 2 isUpperChar s.
Proof.
  unfold isUpper2, hasShape.
  destruct s as [|a [|b [|c s]]];
    cbn [list_ascii_of_string String.length Nat.eqb forallString andb];
    rewrite ?andb_true_r; reflexivity.
Qed.

Lemma isUpper3_hasShape (s : string) : isUpper3 s = hasShape 3 isUpperChar s.
Proof.
  unfold isUpper3, hasShape.
  destruct s as [|a [|b [|c [|d s]]]];
    cbn [list_ascii_of_string String.length Nat.eqb forallString andb];
    rewrite ?andb_true_r, ?andb_assoc; reflexivity.
Qed.

Lemma lookupKey_LEVEL_CODES (level code : string) :
  lookupKey LEVEL_CODES level = Some code ->
  In level ["bronze"; "silver"; "gold"]
  /\ isLevelCode code = true
  /\ lookupKey CODE_TO_LEVEL code = Some level.
Proof.
  unfold LEVEL_CODES. cbn [lookupKey].
  destruct (String.eqb_spec "bronze" level) as [<-|_].
  { intros H. injection H as <-. simpl. tauto. }
  destruct (String.eqb_spec "silver" level) as [<-|_].
  { intros H. injection H as <-. simpl. tauto. }
  destruct (String.eqb_spec "gold" level) as [<-|_]; [|discriminate].
  intros H. injection H as <-. simpl. tauto.
Qed.

Lemma lookupKey_CODE_TO_LEVEL (code : string) :
  isLevelCode code = true ->
  exists level,
    lookupKey CODE_TO_LEVEL code = Some level
    /\ lookupKey LEVEL_CODES level = Some code.
Proof.
  unfold isLevelCode. intros H.
  apply orb_true_iff in H as [H|H]; [apply orb_true_iff in H as [H|H]|];
    apply String.eqb_eq in H; subst code;
    [exists "bronze" | exists "silver" | exists "gold"]; split; reflexivity.
Qed.

Lemma integerInRange (x : JsNumber) (lo hi : Z) :
  negb (Number_isInteger x) || ltNum x (Num lo) || gtNum x (Num hi) = false
  <-> exists z, x = Num z /\ lo <= z <= hi.
Proof.
  unfold gtNum. destruct x as [|z]; simpl.
  - split; [discriminate | intros (z & Hz & _); discriminate].
  - split.
    + intros H. exists z. split; [reflexivity|].
      destruct (Z.ltb_spec z lo); [discriminate|].
      destruct (Z.ltb_spec hi z); [discriminate|]. lia.
    + intros (z' & Hz & Hr). injection Hz as <-.
      destruct (Z.ltb_spec z lo); [lia|].
      destruct (Z.ltb_spec hi z); [lia | reflexivity].
Qed.

(** The parser on a display form whose check character is a digit. *)
Lemma parseCertificateNumber_display
  (yearStr levelStr countryStr issuerStr serialStr checkStr levelName : string) :
  hasShape 4 isDigitChar yearStr = true ->
  isLevelCode levelStr = true ->
  hasShape 2 isUpperChar countryStr = true ->
  hasShape 3 isUpperChar issuerStr = true ->
  hasShape 6 isDigitChar serialStr = true ->
  hasShape 1 isDigitChar checkStr = true ->
  lookupKey CODE_TO_LEVEL levelStr = Some levelName ->
  parseCertificateNumber
    (display yearStr levelStr countryStr issuerStr serialStr checkStr)
  = Some {| year := parseInt10 yearStr;
            level := levelName;
            levelCode := levelStr;
            country := countryStr;
            issuerCode := issuerStr;
            serial := parseInt10 serialStr;
            checkDigit := checkStr |}.
Proof.
  intros HY HL HC HI HS HK Hlevel. unfold parseCertificateNumber.
  rewrite (toUpperCase_display _ _ _ _ _ HY HL HC HI HS _ HK).
  rewrite (matchCertificatePattern_display _ _ _ _ _ _ HY HL HC HI HS HK).
  rewrite (hasShape_nonempty _ _ _ HY), (hasShape_nonempty _ _ _ HC),
    (hasShape_nonempty _ _ _ HI), (hasShape_nonempty _ _ _ HS),
    (hasShape_nonempty _ _ _ HK),
    (hasShape_nonempty _ _ _ (isLevelCode_shape _ HL)).
  cbn [orb]. now rewrite Hlevel.
Qed.

(** What [generateCertificateNumber] returns when its checks pass. *)
Lemma generateCertificateNumber_upper_display (y n : Z)
  (levelName countryStr issuerStr : string) :
  2020 <= y <= 2100 ->
  In levelName ["bronze"; "silver"; "gold"] ->
  hasShape 2 isUpperChar (toUpperCase countryStr) = true ->
  hasShape 3 isUpperChar (toUpperCase issuerStr) = true ->
  1 <= n <= 999999 ->
  exists levelStr checkStr,
    lookupKey LEVEL_CODES levelName = Some levelStr
    /\ isLevelCode levelStr = true
    /\ lookupKey CODE_TO_LEVEL levelStr = Some levelName
    /\ calculateISO7064Check
         (checkBase (numberToString (Num y)) levelStr (toUpperCase countryStr)
            (toUpperCase issuerStr) (padStart0 6 (numberToString (Num n))))
       = Ok checkStr
    /\ generateCertificateNumber
         {| opt_year := Num y; opt_level := levelName; opt_country := countryStr;
            opt_issuerCode := issuerStr; opt_serial := Num n |}
       = Ok (display (numberToString (Num y)) levelStr (toUpperCase countryStr)
               (toUpperCase issuerStr) (padStart0 6 (numberToString (Num n)))
               checkStr).
Proof.
  intros Hy Hlevel HC HI Hn.
  destruct (isLevelCode_lookup levelName Hlevel) as (levelStr & Hcode & HL & Hback).
  destruct (year_rendering y ltac:(lia)) as [HY _].
  destruct (serial_rendering n ltac:(lia)) as [HS _].
  destruct (checkBase_check _ _ _ _ _ HY HL HC HI HS) as [k Hk].
  exists levelStr, k. repeat split; try assumption.
  unfold generateCertificateNumber.
  cbn [opt_year opt_level opt_country opt_issuerCode opt_serial].
  rewrite (yearGuard y Hy), Hcode, (isUpper2_shape _ HC), (isUpper3_shape _ HI),
    (serialGuard n Hn).
  cbn [negb]. unfold checkBase in Hk. rewrite Hk. reflexivity.
Qed.

(** The same for a country and an issuer code of letters in either
    case. *)
Lemma generateCertificateNumber_display (y n : Z) (levelName countryStr issuerStr : string) :
  2020 <= y <= 2100 ->
  In levelName ["bronze"; "silver"; "gold"] ->
  isLetters 2 countryStr = true ->
  isLetters 3 issuerStr = true ->
  1 <= n <= 999999 ->
  exists levelStr checkStr,
    lookupKey LEVEL_CODES levelName = Some levelStr
    /\ isLevelCode levelStr = true
    /\ lookupKey CODE_TO_LEVEL levelStr = Some levelName
    /\ calculateISO7064Check
         (checkBase (numberToString (Num y)) levelStr (toUpperCase countryStr)
            (toUpperCase issuerStr) (padStart0 6 (numberToString (Num n))))
       = Ok checkStr
    /\ generateCertificateNumber
         {| opt_year := Num y; opt_level := levelName; opt_country := countryStr;
            opt_issuerCode := issuerStr; opt_serial := Num n |}
       = Ok (display (numberToString (Num y)) levelStr (toUpperCase countryStr)
               (toUpperCase issuerStr) (padStart0 6 (numberToString (Num n)))
               checkStr).
Proof.
  intros Hy Hlevel Hcountry Hissuer Hn.
  apply generateCertificateNumber_upper_display; try assumption.
  - exact (isLetters_toUpperCase 2 countryStr Hcountry).
  - exact (isLetters_toUpperCase 3 issuerStr Hissuer).
Qed.

(** [X10].  [parseCertificateNumber] recovers what
    [generateCertificateNumber] was given: for every valid input the
    generated number has 25 characters and parses to the input's year,
    level and serial, the level's code, the upper-cased country and issuer
    code, and the check character computed over the base. *)
Theorem parseCertificateNumber_generateCertificateNumber
  (y n : Z) (levelName countryStr issuerStr : string) :
  2020 <= y <= 2100 ->
  In levelName ["bronze"; "silver"; "gold"] ->
  isLetters 2 countryStr = true ->
  isLetters 3 issuerStr = true ->
  1 <= n <= 999999 ->
  exists certificateNumber levelStr checkStr,
    generateCertificateNumber
      {| opt_year := Num y; opt_level := levelName; opt_country := countryStr;
         opt_issuerCode := issuerStr; opt_serial := Num n |}
    = Ok certificateNumber
    /\ String.length certificateNumber = 25%nat
    /\ lookupKey LEVEL_CODES levelName = Some levelStr
    /\ calculateISO7064Check
         ("RS" ++ numberToString (Num y) ++ levelStr ++ toUpperCase countryStr
            ++ toUpperCase issuerStr ++ padStart0 6 (numberToString (Num n)))
       = Ok checkStr
    /\ parseCertificateNumber certificateNumber
       = Some {| year := Num y;
                 level := levelName;
                 levelCode := levelStr;
                 country := toUpperCase countryStr;
                 issuerCode := toUpperCase issuerStr;
                 serial := Num n;
                 checkDigit := checkStr |}.
Proof.
  intros Hy Hlevel Hcountry Hissuer Hn.
  destruct (generateCertificateNumber_display y n levelName countryStr issuerStr
              Hy Hlevel Hcountry Hissuer Hn)
    as (levelStr & k & Hcode & HL & Hback & Hk & Hgen).
  pose proof (isLetters_toUpperCase 2 countryStr Hcountry) as HC.
  pose proof (isLetters_toUpperCase 3 issuerStr Hissuer) as HI.
  destruct (year_rendering y ltac:(lia)) as [HY PY].
  destruct (serial_rendering n ltac:(lia)) as [HS PN].
  pose proof (checkDigit_shape _ _ Hk) as HK.
  eexists _, levelStr, k. split; [exact Hgen|].
  split.
  { unfold display. rewrite !append_length.
    rewrite (hasShape_length _ _ _ HY), (hasShape_length _ _ _ HC),
      (hasShape_length _ _ _ HI), (hasShape_length _ _ _ HS),
      (hasShape_length _ _ _ HK),
      (hasShape_length _ _ _ (isLevelCode_shape _ HL)).
    reflexivity. }
  split; [exact Hcode|]. split; [exact Hk|].
  rewrite (parseCertificateNumber_display _ _ _ _ _ _ levelName HY HL HC HI HS HK Hback).
  now rewrite PY, PN.
Qed.

Lemma parseCertificateNumber_generateCertificateNumber_witness :
  exists certificateNumber levelStr checkStr,
    generateCertificateNumber
      {| opt_year := Num 2026; opt_level := "gold"; opt_country := "in";
         opt_issuerCode := "swg"; opt_serial := Num 1 |}
    = Ok certificateNumber
    /\ String.length certificateNumber = 25%nat
    /\ lookupKey LEVEL_CODES "gold" = Some levelStr
    /\ calculateISO7064Check
         ("RS" ++ numberToString (Num 2026) ++ levelStr ++ toUpperCase "in"
            ++ toUpperCase "swg" ++ padStart0 6 (numberToString (Num 1)))
       = Ok checkStr
    /\ parseCertificateNumber certificateNumber
       = Some {| year := Num 2026;
                 level := "gold";
                 levelCode := levelStr;
                 country := toUpperCase "in";
                 issuerCode := toUpperCase "swg";
                 serial := Num 1;
                 checkDigit := checkStr |}.
Proof.
  apply (parseCertificateNumber_generateCertificateNumber 2026 1 "gold" "in" "swg");
    first [lia | reflexivity | simpl; tauto].
Defined.

(** What a successful call of [generateCertificateNumber] has checked. *)
Lemma generateCertificateNumber_ok_upper_inv (options : GenerateCertificateNumberOptions)
  (certificateNumber : string) :
  generateCertificateNumber options = Ok certificateNumber ->
  (exists y, opt_year options = Num y /\ 2020 <= y <= 2100)
  /\ In (opt_level options) ["bronze"; "silver"; "gold"]
  /\ hasShape 2 isUpperChar (toUpperCase (opt_country options)) = true
  /\ hasShape 3 isUpperChar (toUpperCase (opt_issuerCode options)) = true
  /\ (exists n, opt_serial options = Num n /\ 1 <= n <= 999999).
Proof.
  destruct options as [yearN levelName countryStr issuerStr serialN].
  cbn [opt_year opt_level opt_country opt_issuerCode opt_serial].
  intros H. unfold generateCertificateNumber in H.
  cbn [opt_year opt_level opt_country opt_issuerCode opt_serial] in H.
  destruct (negb (Number_isInteger yearN) || ltNum yearN (Num 2020)
            || gtNum yearN (Num 2100)) eqn:Gy; [discriminate|].
  destruct (lookupKey LEVEL_CODES levelName) as [levelStr|] eqn:Gl; [|discriminate].
  destruct (isUpper2 (toUpperCase countryStr)) eqn:Gc; [|discriminate].
  destruct (isUpper3 (toUpperCase issuerStr)) eqn:Gi; [|discriminate].
  cbn [negb] in H.
  destruct (negb (Number_isInteger serialN) || ltNum serialN (Num 1)
            || gtNum serialN (Num 999999)) eqn:Gs; [discriminate|].
  apply integerInRange in Gy, Gs.
  apply lookupKey_LEVEL_CODES in Gl as [Gl _].
  rewrite isUpper2_hasShape in Gc.
  rewrite isUpper3_hasShape in Gi.
  repeat split; assumption.
Qed.

(** What it was given, then: letters of either case. *)
Lemma generateCertificateNumber_ok_inv (options : GenerateCertificateNumberOptions)
  (certificateNumber : string) :
  generateCertificateNumber options = Ok certificateNumber ->
  (exists y, opt_year options = Num y /\ 2020 <= y <= 2100)
  /\ In (opt_level options) ["bronze"; "silver"; "gold"]
  /\ isLetters 2 (opt_country options) = true
  /\ isLetters 3 (opt_issuerCode options) = true
  /\ (exists n, opt_serial options = Num n /\ 1 <= n <= 999999).
Proof.
  intros H. rewrite <- !hasShape_toUpperCase.
  exact (generateCertificateNumber_ok_upper_inv options certificateNumber H).
Qed.

(** [X11].  [generateCertificateNumber] returns a number exactly on the
    valid inputs, and throws on every other: it succeeds if and only if
    the year is an integer in [2020,2100], the level is bronze, silver or
    gold, the upper-cased country consists of two letters A-Z, the
    upper-cased issuer code of three letters A-Z, and the serial is an
    integer in [1,999999].  For a country or an issuer code of Basic Latin
    the condition on it is that it consists of two, respectively three,
    letters of either case. *)
Theorem generateCertificateNumber_ok_iff (options : GenerateCertificateNumberOptions) :
  ((exists certificateNumber, generateCertificateNumber options = Ok certificateNumber)
   <-> (exists y, opt_year options = Num y /\ 2020 <= y <= 2100)
       /\ In (opt_level options) ["bronze"; "silver"; "gold"]
       /\ hasShape 2 isUpperChar (toUpperCase (opt_country options)) = true
       /\ hasShape 3 isUpperChar (toUpperCase (opt_issuerCode options)) = true
       /\ (exists n, opt_serial options = Num n /\ 1 <= n <= 999999))
  /\ (isAscii (opt_country options) = true ->
      hasShape 2 isUpperChar (toUpperCase (opt_country options))
      = isLetters 2 (opt_country options))
  /\ (isAscii (opt_issuerCode options) = true ->
      hasShape 3 isUpperChar (toUpperCase (opt_issuerCode options))
      = isLetters 3 (opt_issuerCode options)).
Proof.
  split; [|split; intros _; apply hasShape_toUpperCase].
  split.
  - intros [s H]. exact (generateCertificateNumber_ok_upper_inv options s H).
  - destruct options as [yearN levelName countryStr issuerStr serialN].
    cbn [opt_year opt_level opt_country opt_issuerCode opt_serial].
    intros ((y & -> & Hy) & Hlevel & Hcountry & Hissuer & (n & -> & Hn)).
    destruct (generateCertificateNumber_upper_display y n levelName countryStr
                issuerStr Hy Hlevel Hcountry Hissuer Hn)
      as (levelStr & k & _ & _ & _ & _ & Hgen).
    eexists. exact Hgen.
Qed.

Lemma generateCertificateNumber_ok_iff_witness :
  (exists certificateNumber,
      generateCertificateNumber
        {| opt_year := Num 2026; opt_level := "gold"; opt_country := "in";
           opt_issuerCode := "Swg"; opt_serial := Num 1 |}
      = Ok certificateNumber)
  /\ hasShape 2 isUpperChar (toUpperCase "in") = isLetters 2 "in"
  /\ hasShape 3 isUpperChar (toUpperCase "Swg") = isLetters 3 "Swg".
Proof.
  destruct (generateCertificateNumber_ok_iff
              {| opt_year := Num 2026; opt_level := "gold"; opt_country := "in";
                 opt_issuerCode := "Swg"; opt_serial := Num 1 |})
    as (Hiff & Hcountry & Hissuer).
  split; [|split; [apply Hcountry | apply Hissuer]; reflexivity].
  apply Hiff. cbn [opt_year opt_level opt_country opt_issuerCode opt_serial].
  split; [exists 2026; split; [reflexivity | lia]|].
  split; [simpl; tauto|].
  split; [reflexivity|]. split; [reflexivity|].
  exists 1. split; [reflexivity | lia].
Defined.

(** Inversion of the parser: the upper-cased input is a display form, and
    the components returned are its groups, year and serial read as
    decimal numbers. *)
Lemma parseCertificateNumber_inv (certificateNumber : string)
  (parts : CertificateNumberParts) :
  parseCertificateNumber certificateNumber = Some parts ->
  exists ys l c i ns k levelName,
    toUpperCase certificateNumber = display ys l c i ns k
    /\ hasShape 4 isDigitChar ys = true
    /\ isLevelCode l = true
    /\ hasShape 2 isUpperChar c = true
    /\ hasShape 3 isUpperChar i = true
    /\ hasShape 6 isDigitChar ns = true
    /\ hasShape 1 isBaseChar k = true
    /\ lookupKey CODE_TO_LEVEL l = Some levelName
    /\ lookupKey LEVEL_CODES levelName = Some l
    /\ parts = {| year := Num (parseDigits ys 0);
                  level := levelName;
                  levelCode := l;
                  country := c;
                  issuerCode := i;
                  serial := Num (parseDigits ns 0);
                  checkDigit := k |}.
Proof.
  unfold parseCertificateNumber. intros H.
  destruct (matchCertificatePattern (toUpperCase certificateNumber))
    as [[[[[[ys l] c] i] ns] k]|] eqn:Hmatch; [|discriminate].
  apply matchCertificatePattern_sound in Hmatch
      as (Heq & SY & SL & SC & SI & SN & SK);
    [|apply toUpperCase_is_notLower].
  destruct (isEmpty ys || isEmpty l || isEmpty c || isEmpty i || isEmpty ns
            || isEmpty k); [discriminate|].
  destruct (lookupKey_CODE_TO_LEVEL l SL) as (levelName & Hlevel & Hcode).
  rewrite Hlevel in H. injection H as <-.
  exists ys, l, c, i, ns, k, levelName.
  rewrite (parseInt10_digits ys)
    by first [exact (hasShape_forall _ _ _ SY)
             | rewrite (hasShape_length _ _ _ SY); lia].
  rewrite (parseInt10_digits ns)
    by first [exact (hasShape_forall _ _ _ SN)
             | rewrite (hasShape_length _ _ _ SN); lia].
  repeat split; assumption.
Qed.

Lemma display_length (ys l c i ns k : string) :
  String.length (display ys l c i ns k)
  = (String.length ys + String.length l + String.length c + String.length i
     + String.length ns + String.length k + 8)%nat.
Proof.
  unfold display. rewrite !append_length. cbn [String.length]. lia.
Qed.

Lemma parseDigits_bound (n : nat) (s : string) :
  hasShape n isDigitChar s = true -> 0 <= parseDigits s 0 < 10 ^ Z.of_nat n.
Proof.
  intros H. destruct (parseDigits_acc s (hasShape_forall _ _ _ H) 0) as [_ B].
  now rewrite (hasShape_length _ _ _ H) in B.
Qed.

Lemma padStart0_parseDigits_shape (n : nat) (s : string) :
  hasShape (S n) isDigitChar s = true ->
  padStart0 (S n) (naturalToString (parseDigits s 0)) = s.
Proof.
  intros H. pose proof (hasShape_length _ _ _ H) as L.
  pose proof (padStart0_parseDigits s ltac:(lia) (hasShape_forall _ _ _ H)) as P.
  now rewrite L in P.
Qed.

(** [X12].  What [parseCertificateNumber] accepts: the upper-cased input
    has 25 characters, and so has the input itself when it is of Basic
    Latin; the year is an integer in [0,9999] and the serial an integer in
    [0,999999] (wider than what [generateCertificateNumber] writes); level
    and level code correspond; country and issuer code are two and three
    upper-case letters; the check character is a digit or an upper-case
    letter; and the upper-cased input is the display form of the
    components, year and serial padded to four and six digits. *)
Theorem parseCertificateNumber_parts (certificateNumber : string)
  (parts : CertificateNumberParts) :
  parseCertificateNumber certificateNumber = Some parts ->
  exists y n,
    year parts = Num y /\ serial parts = Num n
    /\ 0 <= y <= 9999 /\ 0 <= n <= 999999
    /\ lookupKey LEVEL_CODES (level parts) = Some (levelCode parts)
    /\ hasShape 2 isUpperChar (country parts) = true
    /\ hasShape 3 isUpperChar (issuerCode parts) = true
    /\ hasShape 1 isBaseChar (checkDigit parts) = true
    /\ String.length (toUpperCase certificateNumber) = 25%nat
    /\ (isAscii certificateNumber = true ->
        String.length certificateNumber = 25%nat)
    /\ toUpperCase certificateNumber
       = display (padStart0 4 (numberToString (Num y))) (levelCode parts)
           (country parts) (issuerCode parts)
           (padStart0 6 (numberToString (Num n))) (checkDigit parts).
Proof.
  intros H.
  apply parseCertificateNumber_inv in H
      as (ys & l & c & i & ns & k & levelName & Heq & SY & SL & SC & SI & SN & SK
          & Hlevel & Hcode & ->).
  cbn [Identifiers.year Identifiers.serial Identifiers.level Identifiers.levelCode
         Identifiers.country Identifiers.issuerCode Identifiers.checkDigit].
  pose proof (parseDigits_bound 4 ys SY) as BY.
  pose proof (parseDigits_bound 6 ns SN) as BN.
  change (10 ^ Z.of_nat 4) with 10000 in BY.
  change (10 ^ Z.of_nat 6) with 1000000 in BN.
  exists (parseDigits ys 0), (parseDigits ns 0).
  rewrite !numberToString_natural by lia.
  rewrite (padStart0_parseDigits_shape 3 ys SY), (padStart0_parseDigits_shape 5 ns SN).
  assert (String.length (toUpperCase certificateNumber) = 25%nat) as Hupper.
  { rewrite Heq, display_length.
    rewrite (hasShape_length _ _ _ SY), (hasShape_length _ _ _ SC),
      (hasShape_length _ _ _ SI), (hasShape_length _ _ _ SN),
      (hasShape_length _ _ _ SK),
      (hasShape_length _ _ _ (isLevelCode_shape _ SL)).
    reflexivity. }
  assert (String.length certificateNumber = 25%nat) as Hlen.
  { rewrite <- Hupper. unfold toUpperCase. now rewrite mapString_length. }
  repeat split; try assumption; lia.
Qed.

Lemma parseCertificateNumber_parts_witness :
  exists y n,
    Num 26 = Num y /\ Num 0 = Num n
    /\ 0 <= y <= 9999 /\ 0 <= n <= 999999
    /\ lookupKey LEVEL_CODES "silver" = Some "S"
    /\ hasShape 2 isUpperChar "IN" = true
    /\ hasShape 3 isUpperChar "SWG" = true
    /\ hasShape 1 isBaseChar "Q" = true
    /\ String.length (toUpperCase "rs-0026-s-in-swg-000000-q") = 25%nat
    /\ (isAscii "rs-0026-s-in-swg-000000-q" = true ->
        String.length "rs-0026-s-in-swg-000000-q" = 25%nat)
    /\ toUpperCase "rs-0026-s-in-swg-000000-q"
       = display (padStart0 4 (numberToString (Num y))) "S" "IN" "SWG"
           (padStart0 6 (numberToString (Num n))) "Q".
Proof.
  apply (parseCertificateNumber_parts "rs-0026-s-in-swg-000000-q"
           {| year := Num 26; level := "silver"; levelCode := "S";
              country := "IN"; issuerCode := "SWG"; serial := Num 0;
              checkDigit := "Q" |}).
  reflexivity.
Defined.

End CertificateCodec.

(** ** Certificate numbers: formatting and letter case *)

Section CertificateFormatting.

Lemma differOnlyInCase_upper (s t : string) :
  differOnlyInCase s t = true -> toUpperCase s = toUpperCase t.
Proof.
  intros H. apply differOnlyInCase_lower in H.
  rewrite <- (toUpperCase_toLowerCase s), <- (toUpperCase_toLowerCase t).
  now rewrite H.
Qed.

Lemma sameUpToCase_ascii (a b : ascii) :
  isAsciiChar a = true -> sameUpToCase a b = true -> isAsciiChar b = true.
Proof.
  assert (forall c, isAsciiChar (toLowerCaseChar c) = isAsciiChar c) as Hlower.
  { intros c. apply eqb_prop. revert c. apply ascii_all. vm_compute. reflexivity. }
  intros Ha Hab. apply sameUpToCase_lower in Hab.
  now rewrite <- Hlower, <- Hab, Hlower.
Qed.

Lemma differOnlyInCase_ascii (s : string) :
  forall t, isAscii s = true -> differOnlyInCase s t = true -> isAscii t = true.
Proof.
  unfold isAscii.
  induction s as [|a s IH]; intros [|b t] Hs H; simpl in H; try discriminate;
    [reflexivity|].
  simpl in Hs. apply andb_true_iff in Hs as [Ha Hs].
  apply andb_true_iff in H as [Hab Hst]. simpl.
  now rewrite (sameUpToCase_ascii a b Ha Hab), (IH t Hs Hst).
Qed.

Lemma parseCertificateNumber_toUpperCase (s : string) :
  parseCertificateNumber (toUpperCase s) = parseCertificateNumber s.
Proof. unfold parseCertificateNumber. now rewrite toUpperCase_idem. Qed.

Lemma validateCertificateNumber_toUpperCase (s : string) :
  validateCertificateNumber (toUpperCase s) = validateCertificateNumber s.
Proof.
  unfold validateCertificateNumber. now rewrite parseCertificateNumber_toUpperCase.
Qed.

Lemma formatCertificateNumber_toUpperCase (s : string) :
  formatCertificateNumber (toUpperCase s) = formatCertificateNumber s.
Proof.
  unfold formatCertificateNumber.
  now rewrite parseCertificateNumber_toUpperCase, toUpperCase_idem.
Qed.

Lemma display_notLower (ys l c i ns k : string) :
  forallString notLower ys = true -> forallString notLower l = true ->
  forallString notLower c = true -> forallString notLower i = true ->
  forallString notLower ns = true -> forallString notLower k = true ->
  forallString notLower (display ys l c i ns k) = true.
Proof.
  intros HY HL HC HI HN HK. unfold display. rewrite !forallString_app.
  rewrite HY, HL, HC, HI, HN, HK. reflexivity.
Qed.

Lemma padded_digits (width : nat) (n : Z) :
  0 <= n -> forallString isDigitChar (padStart0 width (naturalToString n)) = true.
Proof.
  intros Hn. unfold padStart0. rewrite forallString_app, forallString_zeros.
  now apply naturalToString_digits.
Qed.

Lemma digits_notLower (s : string) :
  forallString isDigitChar s = true -> forallString notLower s = true.
Proof. apply forallString_impl. exact digit_notLower. Qed.

(** The formatted string when the input parses, in terms of the groups
    of the upper-cased input. *)
Lemma formatCertificateNumber_display (s ys l c i ns k levelName : string) :
  parseCertificateNumber s
  = Some {| year := Num (parseDigits ys 0);
            level := levelName;
            levelCode := l;
            country := c;
            issuerCode := i;
            serial := Num (parseDigits ns 0);
            checkDigit := k |} ->
  hasShape 4 isDigitChar ys = true ->
  hasShape 6 isDigitChar ns = true ->
  formatCertificateNumber s
  = display (naturalToString (parseDigits ys 0)) l c i ns k.
Proof.
  intros Hp SY SN. unfold formatCertificateNumber. rewrite Hp.
  cbn [Identifiers.year Identifiers.serial Identifiers.level Identifiers.levelCode
         Identifiers.country Identifiers.issuerCode Identifiers.checkDigit].
  pose proof (parseDigits_bound 4 ys SY) as BY.
  pose proof (parseDigits_bound 6 ns SN) as BN.
  rewrite !numberToString_natural by lia.
  now rewrite (padStart0_parseDigits_shape 5 ns SN).
Qed.

(** The three cases of [formatCertificateNumber]: the input does not
    parse; it parses with a year of four significant digits; it parses
    with a shorter year. *)
Lemma formatCertificateNumber_cases (s : string) :
  (parseCertificateNumber s = None /\ formatCertificateNumber s = toUpperCase s)
  \/ (exists parts y,
         parseCertificateNumber s = Some parts /\ year parts = Num y /\ 1000 <= y
         /\ formatCertificateNumber s = toUpperCase s)
  \/ (exists parts y,
         parseCertificateNumber s = Some parts /\ year parts = Num y /\ y < 1000
         /\ toUpperCase (formatCertificateNumber s) = formatCertificateNumber s
         /\ parseCertificateNumber (formatCertificateNumber s) = None).
Proof.
  destruct (parseCertificateNumber s) as [parts|] eqn:Hp.
  2:{ left. split; [reflexivity|]. unfold formatCertificateNumber. now rewrite Hp. }
  right.
  destruct (parseCertificateNumber_inv s parts Hp)
    as (ys & l & c & i & ns & k & levelName & Heq & SY & SL & SC & SI & SN & SK
        & Hlevel & Hcode & ->).
  rewrite (formatCertificateNumber_display s ys l c i ns k levelName Hp SY SN).
  pose proof (parseDigits_bound 4 ys SY) as BY.
  destruct (Z.le_gt_cases 1000 (parseDigits ys 0)) as [Hge|Hlt].
  - left. eexists _, (parseDigits ys 0).
    split; [reflexivity|]. split; [reflexivity|]. split; [exact Hge|].
    now rewrite (naturalToString_parseDigits4 ys SY Hge), Heq.
  - right. eexists _, (parseDigits ys 0).
    split; [reflexivity|]. split; [reflexivity|]. split; [exact Hlt|].
    assert (toUpperCase (display (naturalToString (parseDigits ys 0)) l c i ns k)
            = display (naturalToString (parseDigits ys 0)) l c i ns k) as Hup.
    { apply toUpperCase_notLower. apply display_notLower.
      - apply digits_notLower, naturalToString_digits. lia.
      - exact (hasShape_impl _ _ _ _ upper_notLower (isLevelCode_shape _ SL)).
      - exact (hasShape_impl _ _ _ _ upper_notLower SC).
      - exact (hasShape_impl _ _ _ _ upper_notLower SI).
      - exact (hasShape_impl _ _ _ _ digit_notLower SN).
      - exact (hasShape_impl _ _ _ _ baseChar_notLower SK). }
    split; [exact Hup|].
    unfold parseCertificateNumber. rewrite Hup.
    rewrite matchCertificatePattern_length; [reflexivity|].
    rewrite display_length.
    rewrite (hasShape_length _ _ _ SC), (hasShape_length _ _ _ SI),
      (hasShape_length _ _ _ SN), (hasShape_length _ _ _ SK),
      (hasShape_length _ _ _ (isLevelCode_shape _ SL)).
    pose proof (naturalToString_short (parseDigits ys 0) ltac:(lia)). lia.
Qed.

(** [X13].  [formatCertificateNumber] is a normalisation: for every
    string its result is unchanged by upper-casing and by formatting
    again, and it is the result for the upper-cased input; for a string
    of Basic Latin it is the result for the lower-cased input as well. *)
Theorem formatCertificateNumber_idempotent (certificateNumber : string) :
  toUpperCase (formatCertificateNumber certificateNumber)
  = formatCertificateNumber certificateNumber
  /\ formatCertificateNumber (formatCertificateNumber certificateNumber)
     = formatCertificateNumber certificateNumber
  /\ formatCertificateNumber (toUpperCase certificateNumber)
     = formatCertificateNumber certificateNumber
  /\ (isAscii certificateNumber = true ->
      formatCertificateNumber (toLowerCase certificateNumber)
      = formatCertificateNumber certificateNumber).
Proof.
  assert (toUpperCase (formatCertificateNumber certificateNumber)
          = formatCertificateNumber certificateNumber
          /\ formatCertificateNumber (formatCertificateNumber certificateNumber)
             = formatCertificateNumber certificateNumber) as [H1 H2].
  { destruct (formatCertificateNumber_cases certificateNumber)
      as [[_ Hf] | [(p & y & _ & _ & _ & Hf) | (p & y & _ & _ & _ & Hup & Hnone)]].
    - rewrite Hf, toUpperCase_idem. split; [reflexivity|].
      rewrite formatCertificateNumber_toUpperCase. exact Hf.
    - rewrite Hf, toUpperCase_idem. split; [reflexivity|].
      rewrite formatCertificateNumber_toUpperCase. exact Hf.
    - split; [exact Hup|].
      unfold formatCertificateNumber at 1. now rewrite Hnone. }
  split; [exact H1|]. split; [exact H2|]. split.
  - apply formatCertificateNumber_toUpperCase.
  - intros _.
    rewrite <- (formatCertificateNumber_toUpperCase (toLowerCase certificateNumber)).
    rewrite toUpperCase_toLowerCase. apply formatCertificateNumber_toUpperCase.
Qed.

Lemma formatCertificateNumber_idempotent_witness :
  toUpperCase (formatCertificateNumber "Rs-2026-g-In-swg-000001-8")
  = formatCertificateNumber "Rs-2026-g-In-swg-000001-8"
  /\ formatCertificateNumber (toLowerCase "Rs-2026-g-In-swg-000001-8")
     = formatCertificateNumber "Rs-2026-g-In-swg-000001-8".
Proof.
  destruct (formatCertificateNumber_idempotent "Rs-2026-g-In-swg-000001-8")
    as (Hupper & _ & _ & Hlower).
  split; [exact Hupper | apply Hlower; reflexivity].
Defined.

(** [X14].  [formatCertificateNumber] keeps a number that parses only
    when its year has four significant digits.  With a year of at least
    1000 the result is the upper-cased input, which parses to the same
    components and validates as the input does; with a year below 1000
    the year is written without its leading zeros, and the result neither
    parses nor validates, whatever the input did. *)
Theorem formatCertificateNumber_year (certificateNumber : string)
  (parts : CertificateNumberParts) (y : Z) :
  parseCertificateNumber certificateNumber = Some parts ->
  year parts = Num y ->
  if 1000 <=? y
  then formatCertificateNumber certificateNumber = toUpperCase certificateNumber
       /\ parseCertificateNumber (formatCertificateNumber certificateNumber)
          = Some parts
       /\ validateCertificateNumber (formatCertificateNumber certificateNumber)
          = validateCertificateNumber certificateNumber
  else parseCertificateNumber (formatCertificateNumber certificateNumber) = None
       /\ validateCertificateNumber (formatCertificateNumber certificateNumber)
          = false.
Proof.
  intros Hp Hy.
  destruct (formatCertificateNumber_cases certificateNumber)
    as [[Hnone _] | [(p & y' & Hp' & Hy' & Hr & Hf) | (p & y' & Hp' & Hy' & Hr & _ & Hnone)]].
  - congruence.
  - assert (y' = y) as -> by congruence.
    destruct (Z.leb_spec 1000 y); [|lia].
    rewrite Hf, parseCertificateNumber_toUpperCase,
      validateCertificateNumber_toUpperCase.
    repeat split. exact Hp.
  - assert (y' = y) as -> by congruence.
    destruct (Z.leb_spec 1000 y); [lia|].
    split; [exact Hnone|]. unfold validateCertificateNumber. now rewrite Hnone.
Qed.

Lemma formatCertificateNumber_year_witness :
  if 1000 <=? 999
  then formatCertificateNumber "RS-0999-G-IN-SWG-000001-5"
       = toUpperCase "RS-0999-G-IN-SWG-000001-5"
       /\ parseCertificateNumber (formatCertificateNumber "RS-0999-G-IN-SWG-000001-5")
          = Some {| year := Num 999; level := "gold"; levelCode := "G";
                    country := "IN"; issuerCode := "SWG"; serial := Num 1;
                    checkDigit := "5" |}
       /\ validateCertificateNumber (formatCertificateNumber "RS-0999-G-IN-SWG-000001-5")
          = validateCertificateNumber "RS-0999-G-IN-SWG-000001-5"
  else parseCertificateNumber (formatCertificateNumber "RS-0999-G-IN-SWG-000001-5")
       = None
       /\ validateCertificateNumber (formatCertificateNumber "RS-0999-G-IN-SWG-000001-5")
          = false.
Proof.
  apply (formatCertificateNumber_year "RS-0999-G-IN-SWG-000001-5"
           {| year := Num 999; level := "gold"; levelCode := "G";
              country := "IN"; issuerCode := "SWG"; serial := Num 1;
              checkDigit := "5" |} 999);
    reflexivity.
Defined.

(** [X15].  Certificate numbers are read through their upper-cased form:
    two strings with the same upper-cased form parse to the same
    components, validate alike and format to the same string.  So do, in
    particular, two strings of Basic Latin that differ only in the case of
    letters. *)
Theorem certificateNumber_case_insensitive (s t : string) :
  (toUpperCase s = toUpperCase t ->
   parseCertificateNumber s = parseCertificateNumber t
   /\ validateCertificateNumber s = validateCertificateNumber t
   /\ formatCertificateNumber s = formatCertificateNumber t)
  /\ (isAscii s = true ->
      differOnlyInCase s t = true ->
      isAscii t = true
      /\ parseCertificateNumber s = parseCertificateNumber t
      /\ validateCertificateNumber s = validateCertificateNumber t
      /\ formatCertificateNumber s = formatCertificateNumber t).
Proof.
  assert (toUpperCase s = toUpperCase t ->
          parseCertificateNumber s = parseCertificateNumber t
          /\ validateCertificateNumber s = validateCertificateNumber t
          /\ formatCertificateNumber s = formatCertificateNumber t) as Hsame.
  { intros H.
    assert (parseCertificateNumber s = parseCertificateNumber t) as Hp
        by (unfold parseCertificateNumber; now rewrite H).
    repeat split.
    - exact Hp.
    - unfold validateCertificateNumber. now rewrite Hp.
    - unfold formatCertificateNumber. now rewrite Hp, H. }
  split; [exact Hsame|].
  intros Hs H. split.
  - exact (differOnlyInCase_ascii s t Hs H).
  - apply Hsame, differOnlyInCase_upper, H.
Qed.

Lemma certificateNumber_case_insensitive_witness :
  isAscii "RS-2026-G-IN-SWG-000001-8" = true
  /\ parseCertificateNumber "rs-2026-g-in-swg-000001-8"
     = parseCertificateNumber "RS-2026-G-IN-SWG-000001-8"
  /\ validateCertificateNumber "rs-2026-g-in-swg-000001-8"
     = validateCertificateNumber "RS-2026-G-IN-SWG-000001-8"
  /\ formatCertificateNumber "rs-2026-g-in-swg-000001-8"
     = formatCertificateNumber "RS-2026-G-IN-SWG-000001-8".
Proof.
  apply (proj2 (certificateNumber_case_insensitive "rs-2026-g-in-swg-000001-8"
                  "RS-2026-G-IN-SWG-000001-8"));
    reflexivity.
Defined.

(** [X16].  Every number [validateCertificateNumber] accepts ends in a
    decimal digit (the pattern alone would admit a letter), and when its
    year lies in [2020,2100] and its serial is at least 1, it is, up to
    letter case, the number [generateCertificateNumber] returns for its
    parsed components. *)
Theorem generateCertificateNumber_validateCertificateNumber (certificateNumber : string) :
  validateCertificateNumber certificateNumber = true ->
  exists parts,
    parseCertificateNumber certificateNumber = Some parts
    /\ hasShape 1 isDigitChar (checkDigit parts) = true
    /\ (leNum (Num 2020) (year parts) && leNum (year parts) (Num 2100)
        && leNum (Num 1) (serial parts) = true ->
        generateCertificateNumber
          {| opt_year := year parts; opt_level := level parts;
             opt_country := country parts; opt_issuerCode := issuerCode parts;
             opt_serial := serial parts |}
        = Ok (toUpperCase certificateNumber)).
Proof.
  unfold validateCertificateNumber. intros H.
  destruct (parseCertificateNumber certificateNumber) as [parts|] eqn:Hp;
    [|discriminate].
  exists parts. split; [reflexivity|].
  destruct (parseCertificateNumber_inv _ parts Hp)
    as (ys & l & c & i & ns & k & levelName & Heq & SY & SL & SC & SI & SN & SK
        & Hlevel & Hcode & ->).
  cbn [Identifiers.year Identifiers.serial Identifiers.level Identifiers.levelCode
         Identifiers.country Identifiers.issuerCode Identifiers.checkDigit] in *.
  pose proof (parseDigits_bound 4 ys SY) as BY.
  pose proof (parseDigits_bound 6 ns SN) as BN.
  change (10 ^ Z.of_nat 6) with 1000000 in BN.
  unfold verifyISO7064 in H.
  destruct (calculateISO7064Check
              ("RS" ++ numberToString (Num (parseDigits ys 0)) ++ l ++ c ++ i
                 ++ padStart0 6 (numberToString (Num (parseDigits ns 0)))))
    as [calculated|] eqn:Hcalc; [|discriminate].
  apply String.eqb_eq in H.
  rewrite (toUpperCase_notLower k) in H
    by exact (hasShape_impl _ _ _ _ baseChar_notLower SK).
  subst calculated. split; [exact (checkDigit_shape _ _ Hcalc)|].
  intros Hrange.
  apply andb_true_iff in Hrange as [Hrange R3].
  apply andb_true_iff in Hrange as [R1 R2].
  cbn [leNum] in R1, R2, R3. apply Z.leb_le in R1, R2, R3.
  unfold generateCertificateNumber.
  cbn [opt_year opt_level opt_country opt_issuerCode opt_serial].
  rewrite (yearGuard _ (conj R1 R2)), Hcode.
  rewrite (toUpperCase_notLower c) by exact (hasShape_impl _ _ _ _ upper_notLower SC).
  rewrite (toUpperCase_notLower i) by exact (hasShape_impl _ _ _ _ upper_notLower SI).
  rewrite (isUpper2_shape _ SC), (isUpper3_shape _ SI).
  rewrite (serialGuard (parseDigits ns 0)) by lia.
  cbn [negb]. rewrite Hcalc.
  rewrite !numberToString_natural by lia.
  rewrite (naturalToString_parseDigits4 ys SY) by lia.
  rewrite (padStart0_parseDigits_shape 5 ns SN).
  now rewrite Heq.
Qed.

Lemma generateCertificateNumber_validateCertificateNumber_witness :
  exists parts,
    parseCertificateNumber "rs-2026-g-in-swg-000001-8" = Some parts
    /\ hasShape 1 isDigitChar (checkDigit parts) = true
    /\ (leNum (Num 2020) (year parts) && leNum (year parts) (Num 2100)
        && leNum (Num 1) (serial parts) = true ->
        generateCertificateNumber
          {| opt_year := year parts; opt_level := level parts;
             opt_country := country parts; opt_issuerCode := issuerCode parts;
             opt_serial := serial parts |}
        = Ok (toUpperCase "rs-2026-g-in-swg-000001-8")).
Proof.
  apply (generateCertificateNumber_validateCertificateNumber
           "rs-2026-g-in-swg-000001-8").
  reflexivity.
Defined.

End CertificateFormatting.

(** ** The privacy gate: unknown fields, extraction, registry input *)

Section RegistryFacts.

Lemma getProp_insert_ne (pre post : JsRecord) (key name : string) (value : JsValue) :
  String.eqb key name = false ->
  getProp (pre ++ (key, value) :: post)%list name = getProp (pre ++ post)%list name.
Proof.
  intros Hne. induction pre as [|[k v] pre IH]; simpl.
  - now rewrite Hne.
  - now rewrite IH.
Qed.

Lemma keys_insert (pre post : JsRecord) (key : string) (value : JsValue) :
  keys (pre ++ (key, value) :: post)%list = (keys pre ++ key :: keys post)%list.
Proof. unfold keys. now rewrite map_app. Qed.

Lemma keys_app (pre post : JsRecord) :
  keys (pre ++ post)%list = (keys pre ++ keys post)%list.
Proof. unfold keys. apply map_app. Qed.

Lemma detectForbiddenFields_insert (pre post : JsRecord) (key : string) (value : JsValue) :
  isForbiddenField key = false ->
  String.eqb key "publicAttributes" = false ->
  String.eqb key "attributes" = false ->
  detectForbiddenFields (pre ++ (key, value) :: post)%list
  = detectForbiddenFields (pre ++ post)%list.
Proof.
  intros Hf Hp Ha. unfold detectForbiddenFields, detectNested.
  rewrite !(getProp_insert_ne pre post key _ value) by assumption.
  rewrite keys_insert, keys_app, !filter_app. cbn [filter]. now rewrite Hf.
Qed.

Lemma isAllowedField_false (key : string) :
  isAllowedField key = false ->
  String.eqb key "givenName" = false /\ String.eqb key "familyName" = false
  /\ String.eqb key "level" = false /\ String.eqb key "validFrom" = false
  /\ String.eqb key "validUntil" = false.
Proof.
  unfold isAllowedField, ALLOWED_PUBLIC_FIELDS. cbn [existsb]. intros H.
  repeat (apply orb_false_iff in H as [?H H]).
  rewrite !(String.eqb_sym key). repeat split; assumption.
Qed.

Lemma allowed_not_forbidden (key : string) :
  isAllowedField key = true -> isForbiddenField key = false.
Proof.
  intros H. apply isAllowedField_iff in H. simpl in H.
  repeat (destruct H as [<- | H]; [reflexivity|]). destruct H.
Qed.

Lemma lettersCI_isLetters (n : nat) (s : string) : lettersCI n s = isLetters n s.
Proof.
  unfold lettersCI, isLetters.
  destruct (hasShape n isLetterCI s) eqn:Hshape.
  - rewrite <- (append_nil_r s) at 1. now rewrite (takeClass_app _ _ _ _ Hshape).
  - destruct (takeClass n isLetterCI s) as [[g r]|] eqn:Htake; [|reflexivity].
    destruct (isEmpty r) eqn:Hr; [|reflexivity].
    apply takeClass_sound in Htake as [-> Hg]. apply isEmpty_true in Hr. subst r.
    rewrite append_nil_r in Hshape. congruence.
Qed.

Variable Date_getTime : string -> JsNumber.

(** [X17].  [enforcePublicAttributesOnly] ignores every field it does not
    know: a property whose name is neither forbidden nor one of the five
    allowed names nor [publicAttributes] or [attributes] changes nothing,
    wherever it stands and whatever its value; in particular private data
    nested under such a name goes through undetected, and the field is
    dropped from the result without an error. *)
Theorem enforcePublicAttributesOnly_unknown_field
  (pre post : JsRecord) (key : string) (value : JsValue) :
  isForbiddenField key = false ->
  isAllowedField key = false ->
  key <> "publicAttributes" -> key <> "attributes" ->
  detectForbiddenFields (pre ++ (key, value) :: post)%list
  = detectForbiddenFields (pre ++ post)%list
  /\ enforcePublicAttributesOnly Date_getTime (pre ++ (key, value) :: post)%list
     = enforcePublicAttributesOnly Date_getTime (pre ++ post)%list.
Proof.
  intros Hf Ha Hp Hq.
  apply String.eqb_neq in Hp, Hq.
  destruct (isAllowedField_false key Ha) as (N1 & N2 & N3 & N4 & N5).
  pose proof (detectForbiddenFields_insert pre post key value Hf Hp Hq) as Hd.
  split; [exact Hd|].
  unfold enforcePublicAttributesOnly. rewrite Hd.
  now rewrite !(getProp_insert_ne pre post key _ value) by assumption.
Qed.

(** [X18].  [extractPublicAttributes] on a flat credential (no truthy
    [publicAttributes]) never raises a protocol violation: it reads the
    five allowed fields and nothing else, so forbidden fields at the top
    level or inside an [attributes] object are left behind without an
    error, where [enforcePublicAttributesOnly] on the same object would
    refuse them; when the credential has no forbidden field the two
    functions agree. *)
Theorem extractPublicAttributes_flat (credential : JsRecord) :
  truthy (getProp credential "publicAttributes") = false ->
  (forall field message,
      extractPublicAttributes Date_getTime credential
      <> Throw (ProtocolViolationError field message))
  /\ (detectForbiddenFields credential = [] ->
      extractPublicAttributes Date_getTime credential
      = enforcePublicAttributesOnly Date_getTime credential)
  /\ (forall r,
        extractPublicAttributes Date_getTime credential = Ok r ->
        keys r = ALLOWED_PUBLIC_FIELDS
        /\ forall field, In field ALLOWED_PUBLIC_FIELDS ->
                         getProp r field = getProp credential field).
Proof.
  intros Hflat. unfold extractPublicAttributes. rewrite Hflat.
  set (flat := [ ("givenName", getProp credential "givenName");
                 ("familyName", getProp credential "familyName");
                 ("level", getProp credential "level");
                 ("validFrom", getProp credential "validFrom");
                 ("validUntil", getProp credential "validUntil") ]).
  assert (detectForbiddenFields flat = []) as Hclean by reflexivity.
  assert (forall name, In name ALLOWED_PUBLIC_FIELDS ->
                       getProp flat name = getProp credential name) as Hget.
  { simpl. intros name [<- | [<- | [<- | [<- | [<- | []]]]]]; reflexivity. }
  split; [|split].
  - intros field message. unfold enforcePublicAttributesOnly. rewrite Hclean.
    cbv zeta.
    repeat match goal with
           | |- (if ?b then _ else _) <> _ => destruct b; [discriminate|]
           end.
    discriminate.
  - intros Hnone. unfold enforcePublicAttributesOnly. rewrite Hclean, Hnone.
    rewrite !Hget by (simpl; tauto). reflexivity.
  - intros r Hr. apply enforcePublicAttributesOnly_ok in Hr as [-> _].
    split; [reflexivity|].
    intros field Hin. rewrite <- (Hget field Hin).
    simpl in Hin. destruct Hin as [<- | [<- | [<- | [<- | [<- | []]]]]]; reflexivity.
Qed.

(** [X19].  [validateRegistryInput] returns a normal form: on success the
    issuer code is the input's, upper-cased, and consists of three
    upper-case letters; the public attributes carry exactly the five
    allowed keys; signature and internal certification ID are passed
    through as they were; and validating the result again returns it
    unchanged. *)
Theorem validateRegistryInput_idempotent (input output : RegistryInput) :
  validateRegistryInput Date_getTime input = Ok output ->
  ri_issuerCode output = toUpperCase (ri_issuerCode input)
  /\ hasShape 3 isUpperChar (ri_issuerCode output) = true
  /\ keys (ri_publicAttributes output) = ALLOWED_PUBLIC_FIELDS
  /\ ri_signature output = ri_signature input
  /\ ri_internalCertificationId output = ri_internalCertificationId input
  /\ validateRegistryInput Date_getTime output = Ok output.
Proof.
  unfold validateRegistryInput. intros H.
  destruct (isEmpty (ri_issuerCode input) || negb (lettersCI 3 (ri_issuerCode input)))
    eqn:Hcode; [discriminate|].
  apply orb_false_iff in Hcode as [_ Hcode]. apply negb_false_iff in Hcode.
  rewrite lettersCI_isLetters in Hcode.
  pose proof (isLetters_toUpperCase 3 _ Hcode) as Hupper.
  destruct (enforcePublicAttributesOnly Date_getTime (ri_publicAttributes input))
    as [pa|] eqn:Hpa; [|discriminate].
  injection H as <-.
  cbn [ri_publicAttributes ri_issuerCode ri_signature ri_internalCertificationId].
  repeat split; try assumption.
  - apply enforcePublicAttributesOnly_ok in Hpa as [-> _]. reflexivity.
  - rewrite (hasShape_nonempty _ _ _ Hupper), lettersCI_isLetters.
    assert (isLetters 3 (toUpperCase (ri_issuerCode input)) = true) as ->.
    { unfold isLetters, hasShape in *. apply andb_true_iff in Hupper as [-> Hall].
      simpl. revert Hall. apply forallString_impl. exact upper_letter. }
    cbn [orb negb]. rewrite toUpperCase_idem.
    apply enforcePublicAttributesOnly_ok in Hpa. cbv zeta in Hpa.
    destruct Hpa as (-> & M1 & M2 & M3 & M4 & M5 & N1 & N2 & L & D1 & D2 & Range).
    unfold enforcePublicAttributesOnly.
    change (detectForbiddenFields _) with (@nil string).
    cbn [getProp String.eqb Ascii.eqb Bool.eqb].
    now rewrite M1, M2, M3, M4, M5, N1, N2, L, D1, D2, Range.
Qed.

(** [X20].  Every key of a record is of exactly one kind: allowed,
    forbidden, or unknown, the unknown ones being those
    [detectUnknownFields] reports; and when [enforcePublicAttributesOnly]
    accepts a record, the keys it leaves out of the result are exactly
    its unknown fields, while the result has no unknown and no forbidden
    field. *)
Theorem detectUnknownFields_partition (data : JsRecord) :
  (forall key, In key (keys data) ->
               (isAllowedField key = true /\ isForbiddenField key = false
                /\ ~ In key (detectUnknownFields data))
               \/ (isAllowedField key = false /\ isForbiddenField key = true
                   /\ ~ In key (detectUnknownFields data))
               \/ (isAllowedField key = false /\ isForbiddenField key = false
                   /\ In key (detectUnknownFields data)))
  /\ (forall r,
        enforcePublicAttributesOnly Date_getTime data = Ok r ->
        detectUnknownFields data
        = filter (fun key => negb (isAllowedField key)) (keys data)
        /\ detectUnknownFields r = []
        /\ detectForbiddenFields r = []).
Proof.
  split.
  - intros key Hin. unfold detectUnknownFields.
    destruct (isAllowedField key) eqn:Ha.
    + left. rewrite (allowed_not_forbidden key Ha). repeat split.
      intros H. apply filter_In in H as [_ H]. rewrite Ha in H. discriminate.
    + right. destruct (isForbiddenField key) eqn:Hf.
      * left. repeat split.
        intros H. apply filter_In in H as [_ H]. rewrite Hf, andb_false_r in H.
        discriminate.
      * right. repeat split. apply filter_In. split; [exact Hin|].
        now rewrite Ha, Hf.
  - intros r Hr.
    assert (detectForbiddenFields data = []) as Hnone.
    { unfold enforcePublicAttributesOnly in Hr.
      destruct (detectForbiddenFields data); [reflexivity | discriminate]. }
    apply enforcePublicAttributesOnly_ok in Hr as [-> _].
    split; [|split; reflexivity].
    unfold detectForbiddenFields in Hnone.
    apply app_eq_nil in Hnone as [Htop _].
    unfold detectUnknownFields. apply filter_ext_in.
    intros key Hin.
    destruct (isForbiddenField key) eqn:Hf; [exfalso | now rewrite andb_true_r].
    assert (In key (filter isForbiddenField (keys data))) as Hbad
        by (apply filter_In; auto).
    rewrite Htop in Hbad. destruct Hbad.
Qed.

End RegistryFacts.

Lemma enforcePublicAttributesOnly_unknown_field_witness :
  detectForbiddenFields
    ([("givenName", JsString "Rahul")]
       ++ ("profile", JsObject [("email", JsString "x@y.com")])
       :: [ ("familyName", JsString "Kumar"); ("level", JsString "gold");
            ("validFrom", JsString "2026-01-15");
            ("validUntil", JsString "2028-01-15") ])%list
  = detectForbiddenFields
      ([("givenName", JsString "Rahul")]
         ++ [ ("familyName", JsString "Kumar"); ("level", JsString "gold");
              ("validFrom", JsString "2026-01-15");
              ("validUntil", JsString "2028-01-15") ])%list
  /\ enforcePublicAttributesOnly Host.utcGetTime
       ([("givenName", JsString "Rahul")]
          ++ ("profile", JsObject [("email", JsString "x@y.com")])
          :: [ ("familyName", JsString "Kumar"); ("level", JsString "gold");
               ("validFrom", JsString "2026-01-15");
               ("validUntil", JsString "2028-01-15") ])%list
     = enforcePublicAttributesOnly Host.utcGetTime
         ([("givenName", JsString "Rahul")]
            ++ [ ("familyName", JsString "Kumar"); ("level", JsString "gold");
                 ("validFrom", JsString "2026-01-15");
                 ("validUntil", JsString "2028-01-15") ])%list.
Proof.
  apply (enforcePublicAttributesOnly_unknown_field Host.utcGetTime
           [("givenName", JsString "Rahul")]
           [ ("familyName", JsString "Kumar"); ("level", JsString "gold");
             ("validFrom", JsString "2026-01-15");
             ("validUntil", JsString "2028-01-15") ]
           "profile" (JsObject [("email", JsString "x@y.com")]));
    first [reflexivity | discriminate].
Defined.

Lemma extractPublicAttributes_flat_witness :
  (forall field message,
      extractPublicAttributes Host.utcGetTime emailScenario
      <> Throw (ProtocolViolationError field message))
  /\ (detectForbiddenFields emailScenario = [] ->
      extractPublicAttributes Host.utcGetTime emailScenario
      = enforcePublicAttributesOnly Host.utcGetTime emailScenario)
  /\ (forall r,
        extractPublicAttributes Host.utcGetTime emailScenario = Ok r ->
        keys r = ALLOWED_PUBLIC_FIELDS
        /\ forall field, In field ALLOWED_PUBLIC_FIELDS ->
                         getProp r field = getProp emailScenario field).
Proof.
  apply (extractPublicAttributes_flat Host.utcGetTime emailScenario). reflexivity.
Defined.

Lemma validateRegistryInput_idempotent_witness :
  "SWG" = toUpperCase "swg"
  /\ hasShape 3 isUpperChar "SWG" = true
  /\ keys [ ("givenName", JsString "Rahul"); ("familyName", JsString "Kumar");
            ("level", JsString "gold"); ("validFrom", JsString "2026-01-15");
            ("validUntil", JsString "2028-01-15") ]
     = ALLOWED_PUBLIC_FIELDS
  /\ Some "c2ln" = Some "c2ln"
  /\ @None string = None
  /\ validateRegistryInput Host.utcGetTime
       {| ri_publicAttributes :=
            [ ("givenName", JsString "Rahul"); ("familyName", JsString "Kumar");
              ("level", JsString "gold"); ("validFrom", JsString "2026-01-15");
              ("validUntil", JsString "2028-01-15") ];
          ri_issuerCode := "SWG";
          ri_signature := Some "c2ln";
          ri_internalCertificationId := None |}
     = Ok {| ri_publicAttributes :=
               [ ("givenName", JsString "Rahul"); ("familyName", JsString "Kumar");
                 ("level", JsString "gold"); ("validFrom", JsString "2026-01-15");
                 ("validUntil", JsString "2028-01-15") ];
             ri_issuerCode := "SWG";
             ri_signature := Some "c2ln";
             ri_internalCertificationId := None |}.
Proof.
  apply (validateRegistryInput_idempotent Host.utcGetTime
           {| ri_publicAttributes := validWithExtra;
              ri_issuerCode := "swg";
              ri_signature := Some "c2ln";
              ri_internalCertificationId := None |}
           {| ri_publicAttributes :=
                [ ("givenName", JsString "Rahul"); ("familyName", JsString "Kumar");
                  ("level", JsString "gold"); ("validFrom", JsString "2026-01-15");
                  ("validUntil", JsString "2028-01-15") ];
              ri_issuerCode := "SWG";
              ri_signature := Some "c2ln";
              ri_internalCertificationId := None |}).
  reflexivity.
Defined.

(** ** Random integers: rejection sampling *)

Section RandomFacts.

Lemma toUint32_range (x : Z) : 0 <= toUint32 x < 4294967296.
Proof. unfold toUint32. apply Z.mod_pos_bound. lia. Qed.

Lemma toUint32_toInt32 (x : Z) : toUint32 (toInt32 x) = toUint32 x.
Proof.
  unfold toInt32. cbv zeta. destruct (toUint32 x <? 2147483648).
  - unfold toUint32. apply Z.mod_mod. lia.
  - unfold toUint32.
    replace (x mod 4294967296 - 4294967296)
      with (x mod 4294967296 + (-1) * 4294967296) by ring.
    rewrite Z.mod_add by lia. apply Z.mod_mod. lia.
Qed.

Lemma toUint32_lor (p q : Z) :
  toUint32 (Z.lor p q) = Z.lor (toUint32 p) (toUint32 q).
Proof.
  unfold toUint32. change 4294967296 with (2 ^ 32).
  rewrite <- !Z.land_ones by lia. apply Z.land_lor_distr_l.
Qed.

Lemma toUint32_bor (x y : Z) :
  toUint32 (bor x y) = Z.lor (toUint32 x) (toUint32 y).
Proof.
  unfold bor. now rewrite toUint32_toInt32, toUint32_lor, !toUint32_toInt32.
Qed.

Lemma toInt32_small (x : Z) : 0 <= x < 2147483648 -> toInt32 x = x.
Proof.
  intros H. unfold toInt32, toUint32. cbv zeta.
  rewrite Z.mod_small by lia. destruct (Z.ltb_spec x 2147483648); lia.
Qed.

Lemma toUint32_shl_byte (b n : Z) :
  isByte b = true -> 0 <= n <= 24 -> toUint32 (shl b n) = b * 2 ^ n.
Proof.
  unfold isByte. intros Hb Hn. apply andb_true_iff in Hb as [H0 H255].
  apply Z.leb_le in H0, H255.
  unfold shl. rewrite toUint32_toInt32, (toInt32_small b) by lia.
  rewrite Z.shiftl_mul_pow2 by lia. unfold toUint32. apply Z.mod_small.
  assert (0 < 2 ^ n <= 2 ^ 24) as Hp.
  { split; [apply Z.pow_pos_nonneg; lia | apply Z.pow_le_mono_r; lia]. }
  change (2 ^ 24) with 16777216 in Hp. nia.
Qed.

Lemma land_low (a n b : Z) :
  0 <= n -> 0 <= b < 2 ^ n -> Z.land (a * 2 ^ n) b = 0.
Proof.
  intros Hn Hb. apply Z.bits_inj'. intros i Hi.
  rewrite Z.land_spec, Z.bits_0.
  destruct (Z.lt_ge_cases i n) as [Hlt|Hge].
  - now rewrite Z.mul_pow2_bits_low.
  - rewrite <- (Z.mod_small b (2 ^ n)) by lia.
    rewrite Z.mod_pow2_bits_high by lia. apply andb_false_r.
Qed.

Lemma lor_low (a n b : Z) :
  0 <= n -> 0 <= b < 2 ^ n -> Z.lor (a * 2 ^ n) b = a * 2 ^ n + b.
Proof.
  intros Hn Hb. pose proof (Z.add_lor_land (a * 2 ^ n) b) as H.
  rewrite (land_low a n b Hn Hb) in H. lia.
Qed.

(** The word read from four bytes is their big-endian value. *)
Lemma wordOfBytes_value (b0 b1 b2 b3 : Z) :
  isByte b0 = true -> isByte b1 = true -> isByte b2 = true -> isByte b3 = true ->
  wordOfBytes b0 b1 b2 b3 = b0 * 16777216 + b1 * 65536 + b2 * 256 + b3.
Proof.
  intros H0 H1 H2 H3. unfold wordOfBytes, ushr0.
  rewrite !toUint32_bor.
  rewrite (toUint32_shl_byte b0 24 H0), (toUint32_shl_byte b1 16 H1),
    (toUint32_shl_byte b2 8 H2) by lia.
  unfold isByte in *.
  apply andb_true_iff in H0 as [L0 U0]. apply andb_true_iff in H1 as [L1 U1].
  apply andb_true_iff in H2 as [L2 U2]. apply andb_true_iff in H3 as [L3 U3].
  apply Z.leb_le in L0, U0, L1, U1, L2, U2, L3, U3.
  assert (toUint32 b3 = b3) as -> by (unfold toUint32; apply Z.mod_small; lia).
  change (2 ^ 24) with 16777216. change (2 ^ 16) with 65536. change (2 ^ 8) with 256.
  replace (b0 * 16777216) with (b0 * 2 ^ 24) by reflexivity.
  rewrite (lor_low b0 24 (b1 * 65536)) by (change (2 ^ 24) with 16777216; lia).
  replace (b0 * 2 ^ 24 + b1 * 65536) with ((b0 * 256 + b1) * 2 ^ 16)
    by (change (2 ^ 24) with 16777216; change (2 ^ 16) with 65536; ring).
  rewrite (lor_low _ 16 (b2 * 256)) by (change (2 ^ 16) with 65536; lia).
  replace ((b0 * 256 + b1) * 2 ^ 16 + b2 * 256)
    with ((b0 * 65536 + b1 * 256 + b2) * 2 ^ 8)
    by (change (2 ^ 16) with 65536; change (2 ^ 8) with 256; ring).
  rewrite (lor_low _ 8 b3) by (change (2 ^ 8) with 256; lia).
  change (2 ^ 8) with 256. ring.
Qed.

Lemma wordOfBytes_range (b0 b1 b2 b3 : Z) :
  0 <= wordOfBytes b0 b1 b2 b3 < 4294967296.
Proof. unfold wordOfBytes, ushr0. apply toUint32_range. Qed.

(** The rejection limit is a positive multiple of [max], above half of
    the range of a word. *)
Lemma rejectionLimit_multiple (max : Z) :
  0 < max <= 4294967295 ->
  rejectionLimit max = max * (4294967295 / max)
  /\ 1 <= 4294967295 / max
  /\ 2147483647 < rejectionLimit max <= 4294967295.
Proof.
  intros Hmax. unfold rejectionLimit.
  rewrite Z.rem_mod_nonneg by lia.
  pose proof (Z.div_mod 4294967295 max ltac:(lia)) as Hdm.
  pose proof (Z.mod_pos_bound 4294967295 max ltac:(lia)) as Hr.
  assert (1 <= 4294967295 / max) as Hq
      by (apply Z.div_le_lower_bound; lia).
  split; [lia|]. split; [exact Hq|].
  set (q := 4294967295 / max) in *. set (r := 4294967295 mod max) in *.
  assert (max <= max * q) by nia. lia.
Qed.

Lemma rejectionLoop_some (limit : Z) (entropy : list Z) :
  forall value rest,
    rejectionLoop limit entropy = Some (value, rest) ->
    0 <= value < limit
    /\ exists turns, List.length entropy = (List.length rest + 4 * S turns)%nat.
Proof.
  induction entropy as [entropy IH] using (well_founded_induction
    (Wf_nat.well_founded_ltof _ (@List.length Z))).
  intros value rest H.
  destruct entropy as [|b0 [|b1 [|b2 [|b3 more]]]]; try discriminate H.
  cbn [rejectionLoop] in H. cbv zeta in H.
  destruct (Z.leb_spec limit (wordOfBytes b0 b1 b2 b3)) as [Hge|Hlt].
  - apply IH in H; [|unfold Wf_nat.ltof; simpl; lia].
    destruct H as [Hv [turns Hlen]]. split; [exact Hv|].
    exists (S turns). simpl. lia.
  - injection H as <- <-. split.
    + pose proof (wordOfBytes_range b0 b1 b2 b3). lia.
    + exists 0%nat. simpl. lia.
Qed.

(** [X21].  [getSecureRandomInt] samples without modulo bias.  For
    0 < max <= 2^32 - 1: the rejection limit is a multiple of [max] above
    2^31 - 1; a draw of four bytes is read as their big-endian value [v],
    which is returned modulo [max] when it is below the limit and
    discarded otherwise; every result lies in [0, max); and each residue
    [r] is the image of exactly limit / max accepted values, namely
    r, max + r, 2 max + r, ... *)
Theorem getSecureRandomInt_uniform (max : Z) :
  0 < max <= 4294967295 ->
  let limit := rejectionLimit max in
  2147483647 < limit <= 4294967295
  /\ limit mod max = 0
  /\ (forall b0 b1 b2 b3 rest,
         isByte b0 && isByte b1 && isByte b2 && isByte b3 = true ->
         let v := b0 * 16777216 + b1 * 65536 + b2 * 256 + b3 in
         getSecureRandomInt max (b0 :: b1 :: b2 :: b3 :: rest)
         = if v <? limit then Some (Ok (v mod max), rest)
           else getSecureRandomInt max rest)
  /\ (forall entropy result rest,
         getSecureRandomInt max entropy = Some (result, rest) ->
         exists r, result = Ok r /\ 0 <= r < max)
  /\ (forall r v,
         0 <= r < max ->
         (0 <= v < limit /\ v mod max = r)
         <-> (exists k, 0 <= k < limit / max /\ v = k * max + r)).
Proof.
  intros Hmax limit.
  destruct (rejectionLimit_multiple max Hmax) as (Hmul & Hq & Hrange).
  fold limit in Hmul, Hrange.
  assert (limit / max = 4294967295 / max) as Hdiv.
  { rewrite Hmul, Z.mul_comm. apply Z.div_mul. lia. }
  assert (getSecureRandomInt max
          = fun entropy =>
              match rejectionLoop limit entropy with
              | Some (value, rest) => Some (Ok (Z.rem value max), rest)
              | None => None
              end) as Hunfold.
  { unfold getSecureRandomInt.
    destruct (Z.leb_spec max 0); [lia|].
    destruct (Z.gtb_spec max 4294967295); [lia|]. reflexivity. }
  split; [exact Hrange|]. split.
  { rewrite Hmul, Z.mul_comm. apply Z.mod_mul. lia. }
  split.
  { intros b0 b1 b2 b3 rest Hbytes v.
    apply andb_true_iff in Hbytes as [Hbytes H3].
    apply andb_true_iff in Hbytes as [Hbytes H2].
    apply andb_true_iff in Hbytes as [H0 H1].
    rewrite Hunfold. cbn [rejectionLoop]. cbv zeta.
    rewrite (wordOfBytes_value b0 b1 b2 b3 H0 H1 H2 H3). fold v.
    assert (0 <= v) as Hv.
    { unfold v, isByte in *.
      apply andb_true_iff in H0 as [L0 _]. apply andb_true_iff in H1 as [L1 _].
      apply andb_true_iff in H2 as [L2 _]. apply andb_true_iff in H3 as [L3 _].
      apply Z.leb_le in L0, L1, L2, L3. lia. }
    destruct (Z.leb_spec limit v), (Z.ltb_spec v limit); try lia.
    - reflexivity.
    - now rewrite Z.rem_mod_nonneg by lia. }
  split.
  { intros entropy result rest H. rewrite Hunfold in H.
    destruct (rejectionLoop limit entropy) as [[value rest']|] eqn:Hloop;
      [|discriminate].
    injection H as <- <-.
    apply rejectionLoop_some in Hloop as [Hv _].
    exists (Z.rem value max). split; [reflexivity|].
    rewrite Z.rem_mod_nonneg by lia. apply Z.mod_pos_bound. lia. }
  intros r v Hr. rewrite Hdiv. split.
  - intros [Hv Hmod]. exists (v / max).
    pose proof (Z.div_mod v max ltac:(lia)) as Hdm. rewrite Hmod in Hdm.
    split; [|lia]. split; [apply Z.div_pos; lia|].
    apply Z.div_lt_upper_bound; lia.
  - intros (k & Hk & ->). split.
    + split; [nia|]. rewrite Hmul. nia.
    + rewrite Z.add_comm, Z.mod_add by lia. apply Z.mod_small. lia.
Qed.

Lemma getSecureRandomInt_uniform_witness :
  let limit := rejectionLimit 31 in
  2147483647 < limit <= 4294967295
  /\ limit mod 31 = 0
  /\ (forall b0 b1 b2 b3 rest,
         isByte b0 && isByte b1 && isByte b2 && isByte b3 = true ->
         let v := b0 * 16777216 + b1 * 65536 + b2 * 256 + b3 in
         getSecureRandomInt 31 (b0 :: b1 :: b2 :: b3 :: rest)
         = if v <? limit then Some (Ok (v mod 31), rest)
           else getSecureRandomInt 31 rest)
  /\ (forall entropy result rest,
         getSecureRandomInt 31 entropy = Some (result, rest) ->
         exists r, result = Ok r /\ 0 <= r < 31)
  /\ (forall r v,
         0 <= r < 31 ->
         (0 <= v < limit /\ v mod 31 = r)
         <-> (exists k, 0 <= k < limit / 31 /\ v = k * 31 + r)).
Proof.
  apply (getSecureRandomInt_uniform 31). lia.
Defined.

End RandomFacts.

(** ** Random strings and verification codes *)

Section RandomStringFacts.

Lemma get_indexOfFrom (alphabet : string) (c : ascii) :
  forall n pos,
    String.get n alphabet = Some c -> 0 <= pos ->
    indexOfFrom alphabet c pos <> -1.
Proof.
  induction alphabet as [|a alphabet IH]; intros n pos Hget Hpos; [discriminate|].
  cbn [indexOfFrom]. destruct (Ascii.eqb_spec a c) as [->|Hne]; [lia|].
  destruct n as [|n]; simpl in Hget; [congruence|].
  apply (IH n); [exact Hget | lia].
Qed.

Lemma get_some (s : string) :
  forall n, (n < String.length s)%nat -> exists c, String.get n s = Some c.
Proof.
  induction s as [|a s IH]; intros n Hn; simpl in Hn; [lia|].
  destruct n as [|n]; simpl; [eauto | apply IH; lia].
Qed.

Lemma charAt_inAlphabet (alphabet : string) (index : Z) :
  0 <= index < len alphabet ->
  exists c, charAt alphabet index = Some c /\ inAlphabet alphabet c = true.
Proof.
  unfold len, charAt. intros H.
  destruct (Z.ltb_spec index 0); [lia|].
  destruct (get_some alphabet (Z.to_nat index) ltac:(lia)) as [c Hc].
  exists c. split; [exact Hc|].
  unfold inAlphabet, indexOf. apply negb_true_iff, Z.eqb_neq.
  apply (get_indexOfFrom alphabet c (Z.to_nat index) 0 Hc). lia.
Qed.

Lemma getSecureRandomInt_some (max : Z) (entropy : list Z) (result : Result JsError Z)
  (rest : list Z) :
  0 < max <= 4294967295 ->
  getSecureRandomInt max entropy = Some (result, rest) ->
  exists r turns,
    result = Ok r /\ 0 <= r < max
    /\ List.length entropy = (List.length rest + 4 * S turns)%nat.
Proof.
  intros Hmax H. unfold getSecureRandomInt in H.
  destruct (Z.leb_spec max 0); [lia|].
  destruct (Z.gtb_spec max 4294967295); [lia|].
  destruct (rejectionLoop (rejectionLimit max) entropy) as [[value rest']|] eqn:Hloop;
    [|discriminate].
  injection H as <- <-.
  apply rejectionLoop_some in Hloop as [Hv [turns Hlen]].
  exists (Z.rem value max), turns. split; [reflexivity|]. split; [|exact Hlen].
  rewrite Z.rem_mod_nonneg by lia. apply Z.mod_pos_bound. lia.
Qed.

Lemma getSecureRandomInt_plain (max b0 b1 b2 b3 : Z) (rest : list Z) :
  0 < max <= 4294967295 ->
  isByte b0 = true -> b0 <= 127 ->
  isByte b1 = true -> isByte b2 = true -> isByte b3 = true ->
  exists r,
    getSecureRandomInt max (b0 :: b1 :: b2 :: b3 :: rest) = Some (Ok r, rest).
Proof.
  intros Hmax H0 Hhigh H1 H2 H3.
  destruct (rejectionLimit_multiple max Hmax) as (_ & _ & Hrange).
  unfold getSecureRandomInt.
  destruct (Z.leb_spec max 0); [lia|].
  destruct (Z.gtb_spec max 4294967295); [lia|].
  cbn [rejectionLoop]. cbv zeta.
  rewrite (wordOfBytes_value b0 b1 b2 b3 H0 H1 H2 H3).
  unfold isByte in *.
  apply andb_true_iff in H0 as [L0 U0]. apply andb_true_iff in H1 as [L1 U1].
  apply andb_true_iff in H2 as [L2 U2]. apply andb_true_iff in H3 as [L3 U3].
  apply Z.leb_le in L0, U0, L1, U1, L2, U2, L3, U3.
  destruct (Z.leb_spec (rejectionLimit max)
              (b0 * 16777216 + b1 * 65536 + b2 * 256 + b3)); [lia|].
  eauto.
Qed.

Lemma randomChars_shape (alphabet : string) (count : nat) :
  0 < len alphabet <= 4294967295 ->
  forall result entropy res rest,
    randomChars count alphabet result entropy = Some (res, rest) ->
    forallString (inAlphabet alphabet) result = true ->
    exists s,
      res = Ok s
      /\ forallString (inAlphabet alphabet) s = true
      /\ String.length s = (String.length result + count)%nat
      /\ exists bytes,
           List.length entropy = (List.length rest + 4 * bytes)%nat
           /\ (count <= bytes)%nat.
Proof.
  intros Hlen. induction count as [|count IH]; intros result entropy res rest H Hres.
  - cbn [randomChars] in H. injection H as <- <-. exists result.
    repeat split; [assumption | lia |]. exists 0%nat. lia.
  - cbn [randomChars] in H.
    destruct (getSecureRandomInt (len alphabet) entropy) as [[[index|e] rest']|]
      eqn:Hint; [| |discriminate].
    + apply (getSecureRandomInt_some _ _ _ _ Hlen) in Hint
          as (r & turns & Hr & Hrange & Hbytes).
      injection Hr as ->.
      destruct (charAt_inAlphabet alphabet r Hrange) as (c & Hc & Hin).
      unfold appendIndexed in H. rewrite Hc in H.
      apply IH in H.
      * destruct H as (s & -> & Hs & Hslen & bytes & Hb & Hcount).
        exists s. repeat split; [assumption | |].
        -- rewrite Hslen, append_length. simpl. lia.
        -- exists (S turns + bytes)%nat. lia.
      * rewrite forallString_app, Hres. simpl. now rewrite Hin.
    + apply (getSecureRandomInt_some _ _ _ _ Hlen) in Hint as (r & turns & Hr & _).
      discriminate Hr.
Qed.

Lemma randomChars_returns (alphabet : string) (count : nat) :
  0 < len alphabet <= 4294967295 ->
  forall result entropy,
    plainDraws count entropy = true ->
    exists s,
      randomChars count alphabet result entropy
      = Some (Ok s, skipn (4 * count) entropy).
Proof.
  intros Hlen. induction count as [|count IH]; intros result entropy Hplain.
  - exists result. reflexivity.
  - cbn [plainDraws] in Hplain.
    destruct entropy as [|b0 [|b1 [|b2 [|b3 rest]]]]; try discriminate Hplain.
    apply andb_true_iff in Hplain as [Hplain Hrest].
    apply andb_true_iff in Hplain as [Hplain B3].
    apply andb_true_iff in Hplain as [Hplain B2].
    apply andb_true_iff in Hplain as [Hplain B1].
    apply andb_true_iff in Hplain as [B0 Hhigh].
    apply Z.leb_le in Hhigh.
    destruct (getSecureRandomInt_plain (len alphabet) b0 b1 b2 b3 rest Hlen
                B0 Hhigh B1 B2 B3) as [r Hr].
    cbn [randomChars]. rewrite Hr.
    destruct (IH (appendIndexed result alphabet r) rest Hrest) as [s Hs].
    exists s. rewrite Hs.
    replace (4 * S count)%nat with (S (S (S (S (4 * count))))) by lia.
    reflexivity.
Qed.


(** [X22].  [getRandomString] over a non-empty alphabet: whenever it
    returns, it returns a string (it does not throw) of exactly [length]
    characters, each taken from the alphabet, having consumed a whole
    number of four-byte draws, at least one per character; and it does
    return, after [length] draws, when each of these draws has its top
    bit clear.  On the empty alphabet it throws before drawing. *)
Theorem getRandomString_alphabet (length : Z) (alphabet : string) (entropy : list Z) :
  len alphabet <= 4294967295 ->
  if len alphabet =? 0
  then getRandomString length alphabet entropy
       = Some (Throw (Error "alphabet cannot be empty"), entropy)
  else (forall result rest,
           getRandomString length alphabet entropy = Some (result, rest) ->
           exists s draws,
             result = Ok s
             /\ hasShape (Z.to_nat length) (inAlphabet alphabet) s = true
             /\ List.length entropy = (List.length rest + 4 * draws)%nat
             /\ (Z.to_nat length <= draws)%nat)
       /\ (plainDraws (Z.to_nat length) entropy = true ->
           exists s,
             getRandomString length alphabet entropy
             = Some (Ok s, skipn (4 * Z.to_nat length) entropy)).
Proof.
  intros Hmax. unfold getRandomString.
  destruct (Z.eqb_spec (len alphabet) 0) as [Hzero|Hne]; [reflexivity|].
  assert (0 < len alphabet <= 4294967295) as Hlen by (unfold len in *; lia).
  split.
  - intros result rest H.
    apply (randomChars_shape alphabet _ Hlen) in H; [|reflexivity].
    destruct H as (s & -> & Hs & Hslen & draws & Hbytes & Hcount).
    exists s, draws. repeat split; try assumption.
    unfold hasShape. rewrite Hslen, Hs. simpl. now rewrite Nat.eqb_refl.
  - intros Hplain. now apply randomChars_returns.
Qed.

Lemma getRandomString_alphabet_witness :
  if len "ab" =? 0
  then getRandomString 2 "ab" [0; 0; 0; 1; 255; 255; 255; 255; 0; 0; 0; 2]
       = Some (Throw (Error "alphabet cannot be empty"),
               [0; 0; 0; 1; 255; 255; 255; 255; 0; 0; 0; 2])
  else (forall result rest,
           getRandomString 2 "ab" [0; 0; 0; 1; 255; 255; 255; 255; 0; 0; 0; 2]
           = Some (result, rest) ->
           exists s draws,
             result = Ok s
             /\ hasShape (Z.to_nat 2) (inAlphabet "ab") s = true
             /\ List.length [0; 0; 0; 1; 255; 255; 255; 255; 0; 0; 0; 2]
                = (List.length rest + 4 * draws)%nat
             /\ (Z.to_nat 2 <= draws)%nat)
       /\ (plainDraws (Z.to_nat 2) [0; 0; 0; 1; 255; 255; 255; 255; 0; 0; 0; 2] = true ->
           exists s,
             getRandomString 2 "ab" [0; 0; 0; 1; 255; 255; 255; 255; 0; 0; 0; 2]
             = Some (Ok s, skipn (4 * Z.to_nat 2)
                             [0; 0; 0; 1; 255; 255; 255; 255; 0; 0; 0; 2])).
Proof.
  apply (getRandomString_alphabet 2 "ab" [0; 0; 0; 1; 255; 255; 255; 255; 0; 0; 0; 2]).
  vm_compute. discriminate.
Defined.

Lemma generateVerificationCode_accepted (base : string) :
  hasShape 7 (inAlphabet VERIFICATION_CODE_ALPHABET) base = true ->
  exists code,
    generateVerificationCode base = Ok code
    /\ hasShape 8 (inAlphabet VERIFICATION_CODE_ALPHABET) code = true
    /\ validateVerificationCode code = true.
Proof.
  unfold hasShape. intros H. apply andb_true_iff in H as [Hlen Hall].
  apply Nat.eqb_eq in Hlen.
  destruct (calculateDammCheck_total base Hall) as [k Hk].
  destruct (calculateDammCheck_char base k Hk) as (check & d & -> & Hin & Hd).
  exists (base ++ char1 check).
  assert (String.length (base ++ char1 check) = 8%nat) as Hlen8
      by (rewrite append_length, Hlen; reflexivity).
  assert (forallString (inAlphabet VERIFICATION_CODE_ALPHABET) (base ++ char1 check) = true)
    as Hall8 by (rewrite forallString_app, Hall; simpl; now rewrite Hin).
  split; [unfold generateVerificationCode; now rewrite Hk|].
  split; [now rewrite Hlen8, Hall8|].
  destruct (alphabet_string_clean _ Hall8) as [_ Hclean].
  unfold validateVerificationCode. rewrite Hclean, len_eight, Hlen8. simpl.
  apply (validateDammFull_same_digit base check check d); auto. lia.
Qed.



End RandomStringFacts.

(** ** Constant-time comparison and hexadecimal byte strings *)

Section ByteStringFacts.

Lemma xorLoop_zero (a : string) :
  forall b result,
    String.length a = String.length b ->
    (xorLoop a b result = 0 <-> result = 0 /\ a = b).
Proof.
  induction a as [|x a IH]; intros [|y b] result Hlen; try discriminate Hlen.
  - simpl. tauto.
  - cbn [xorLoop]. injection Hlen as Hlen. rewrite (IH b _ Hlen).
    rewrite Z.lor_eq_0_iff, Z.lxor_eq_0_iff. split.
    + intros [[Hr Hxy] ->]. apply code_inj in Hxy. subst y. auto.
    + intros [Hr Heq]. injection Heq as -> ->. auto.
Qed.

(** [X24].  [timingSafeEqual] is string equality: it returns [true]
    exactly when the two strings are the same. *)
Theorem timingSafeEqual_eq (a b : string) :
  timingSafeEqual a b = true <-> a = b.
Proof.
  unfold timingSafeEqual, len.
  destruct (Z.eqb_spec (Z.of_nat (String.length a)) (Z.of_nat (String.length b)))
    as [Hlen|Hlen]; cbn [negb].
  - apply Nat2Z.inj in Hlen. rewrite Z.eqb_eq, (xorLoop_zero a b 0 Hlen). tauto.
  - split; [discriminate|]. intros ->. contradiction.
Qed.

Lemma byte_all (p : Z -> bool) :
  forallb p (map Z.of_nat (seq 0 256)) = true ->
  forall b, isByte b = true -> p b = true.
Proof.
  intros H b Hb. rewrite forallb_forall in H. apply H.
  unfold isByte in Hb. apply andb_true_iff in Hb as [L U].
  apply Z.leb_le in L, U.
  replace b with (Z.of_nat (Z.to_nat b)) by lia.
  apply in_map, in_seq. lia.
Qed.

Lemma ascii_all2 (p : ascii -> ascii -> bool) :
  forallb (fun a => forallb (p a) (map ascii_of_nat (seq 0 256)))
    (map ascii_of_nat (seq 0 256)) = true ->
  forall a b, p a b = true.
Proof.
  intros H a b.
  assert (forallb (p a) (map ascii_of_nat (seq 0 256)) = true) as Ha.
  { revert a. apply ascii_all. exact H. }
  revert b. apply ascii_all. exact Ha.
Qed.

Lemma hexPair_reads_back (b : Z) :
  isByte b = true ->
  exists x y,
    hexPair b = String x (String y EmptyString)
    /\ isLowerHex x = true /\ isLowerHex y = true
    /\ exists v, parseInt16 (String x (String y EmptyString)) = Num v
                 /\ toUint8 v = b.
Proof.
  intros Hb.
  assert (pairReadsBack b = true) as H
      by (revert b Hb; apply byte_all; vm_compute; reflexivity).
  unfold pairReadsBack in H.
  destruct (hexPair b) as [|x [|y [|z rest]]] eqn:Hpair; try discriminate H.
  apply andb_true_iff in H as [H Hv]. apply andb_true_iff in H as [Hx Hy].
  exists x, y. repeat split; try assumption.
  destruct (parseInt16 (String x (String y EmptyString))) as [|v]; [discriminate|].
  exists v. split; [reflexivity|]. now apply Z.eqb_eq.
Qed.

Lemma join_empty_cons (x : string) (items : list string) :
  join EmptyString (x :: items) = x ++ join EmptyString items.
Proof.
  destruct items as [|y items]; cbn [join]; [now rewrite append_nil_r | reflexivity].
Qed.

Lemma bytesToHex_cons (b : Z) (bytes : list Z) :
  bytesToHex (b :: bytes) = hexPair b ++ bytesToHex bytes.
Proof. unfold bytesToHex. cbn [map]. apply join_empty_cons. Qed.

Lemma lowerHex_hex (c : ascii) : isLowerHex c = true -> isHexCI c = true.
Proof. unfold isLowerHex, isHexCI. intros ->. reflexivity. Qed.

Lemma bytesToHex_shape (bytes : list Z) :
  forallb isByte bytes = true ->
  String.length (bytesToHex bytes) = (2 * List.length bytes)%nat
  /\ forallString isLowerHex (bytesToHex bytes) = true.
Proof.
  induction bytes as [|b bytes IH]; intros H; [split; reflexivity|].
  cbn [forallb] in H. apply andb_true_iff in H as [Hb Hbytes].
  destruct (IH Hbytes) as [Hlen Hall].
  destruct (hexPair_reads_back b Hb) as (x & y & Hpair & Hx & Hy & _).
  rewrite bytesToHex_cons, Hpair. cbn [append String.length forallString List.length].
  rewrite Hlen, Hx, Hy, Hall. split; [lia | reflexivity].
Qed.

Lemma even_length_rem (s : string) :
  (Z.rem (len s) 2 =? 0) = Nat.even (String.length s).
Proof.
  unfold len. rewrite Z.rem_mod_nonneg by lia.
  destruct (Nat.even (String.length s)) eqn:He.
  - apply Nat.even_spec in He as [k ->]. apply Z.eqb_eq.
    rewrite Nat2Z.inj_mul, Z.mul_comm. apply Z.mod_mul. lia.
  - apply Z.eqb_neq. intros Hmod.
    assert (Nat.odd (String.length s) = true) as Ho
        by (rewrite <- Nat.negb_even, He; reflexivity).
    apply Nat.odd_spec in Ho as [k Hk]. rewrite Hk in Hmod.
    rewrite Nat2Z.inj_add, Nat2Z.inj_mul, Z.add_comm, Z.mul_comm in Hmod.
    rewrite Z.mod_add in Hmod by lia. discriminate Hmod.
Qed.

Lemma takeClass_test (n : nat) (p : ascii -> bool) (s : string) :
  match takeClass n p s with
  | Some (_, rest) => isEmpty rest
  | None => false
  end = hasShape n p s.
Proof.
  destruct (hasShape n p s) eqn:Hshape.
  - rewrite <- (append_nil_r s) at 1. now rewrite (takeClass_app _ _ _ _ Hshape).
  - destruct (takeClass n p s) as [[g r]|] eqn:Htake; [|reflexivity].
    destruct (isEmpty r) eqn:Hr; [|reflexivity].
    apply takeClass_sound in Htake as [-> Hg]. apply isEmpty_true in Hr. subst r.
    rewrite append_nil_r in Hshape. congruence.
Qed.

Lemma firstn_skipn_app (l r : list Z) :
  firstn (List.length l) (l ++ r) = l /\ skipn (List.length l) (l ++ r) = r.
Proof.
  induction l as [|x l [IH1 IH2]]; [split; reflexivity|].
  cbn [List.length app firstn skipn]. now rewrite IH1, IH2.
Qed.

(** [X25].  [hexToBytes] undoes [bytesToHex]: for every sequence of
    bytes, [bytesToHex] writes two lower-case hexadecimal digits per
    byte, [hexToBytes] reads the bytes back from them without throwing,
    and the string is a valid signing key exactly when there are 32
    bytes, which is what [generateSigningKey] writes. *)
Theorem hexToBytes_bytesToHex (bytes : list Z) :
  forallb isByte bytes = true ->
  hexToBytes (bytesToHex bytes) = Ok bytes
  /\ String.length (bytesToHex bytes) = (2 * List.length bytes)%nat
  /\ forallString isLowerHex (bytesToHex bytes) = true
  /\ isValidSigningKey (bytesToHex bytes) = Nat.eqb (List.length bytes) 32
  /\ (List.length bytes = 32%nat ->
      forall rest,
        generateSigningKey (bytes ++ rest) = Some (bytesToHex bytes, rest)).
Proof.
  intros H. destruct (bytesToHex_shape bytes H) as [Hlen Hall].
  split; [|split; [exact Hlen | split; [exact Hall | split]]].
  - unfold hexToBytes. rewrite even_length_rem, Hlen.
    replace (Nat.even (2 * List.length bytes)) with true
      by (symmetry; apply Nat.even_spec; now exists (List.length bytes)).
    cbn [negb]. clear Hlen Hall.
    induction bytes as [|b bytes IH]; [reflexivity|].
    cbn [forallb] in H. apply andb_true_iff in H as [Hb Hbytes].
    destruct (hexPair_reads_back b Hb) as (x & y & Hpair & _ & _ & v & Hv & Hbyte).
    rewrite bytesToHex_cons, Hpair. cbn [append hexLoop].
    now rewrite Hv, (IH Hbytes), Hbyte.
  - unfold isValidSigningKey. rewrite takeClass_test. unfold hasShape.
    rewrite Hlen.
    rewrite (forallString_impl isLowerHex isHexCI _ lowerHex_hex Hall), andb_true_r.
    destruct (Nat.eqb_spec (List.length bytes) 32) as [->|Hne]; [reflexivity|].
    apply Nat.eqb_neq. lia.
  - intros H32 rest. unfold generateSigningKey.
    rewrite length_app, H32. cbn [Nat.leb Nat.add].
    destruct (firstn_skipn_app bytes rest) as [Hfirst Hskip].
    rewrite H32 in Hfirst, Hskip. now rewrite Hfirst, Hskip.
Qed.

Lemma hexToBytes_bytesToHex_witness :
  hexToBytes (bytesToHex [0; 15; 16; 255]) = Ok [0; 15; 16; 255]
  /\ String.length (bytesToHex [0; 15; 16; 255]) = (2 * List.length [0; 15; 16; 255])%nat
  /\ forallString isLowerHex (bytesToHex [0; 15; 16; 255]) = true
  /\ isValidSigningKey (bytesToHex [0; 15; 16; 255])
     = Nat.eqb (List.length [0; 15; 16; 255]) 32
  /\ (List.length [0; 15; 16; 255] = 32%nat ->
      forall rest,
        generateSigningKey ([0; 15; 16; 255] ++ rest)
        = Some (bytesToHex [0; 15; 16; 255], rest)).
Proof.
  apply (hexToBytes_bytesToHex [0; 15; 16; 255]). reflexivity.
Defined.

Lemma hexPair_writes_back (x y : ascii) :
  isHexCI x = true -> isHexCI y = true ->
  exists v,
    parseInt16 (String x (String y EmptyString)) = Num v
    /\ isByte v = true /\ toUint8 v = v
    /\ hexPair v = String (toLowerCaseChar x) (String (toLowerCaseChar y) EmptyString).
Proof.
  intros Hx Hy.
  assert (pairWritesBack x y = true) as H
      by (revert x y Hx Hy; intros x y _ _; revert x y; apply ascii_all2;
          vm_compute; reflexivity).
  unfold pairWritesBack in H. rewrite Hx, Hy in H. cbn [andb] in H.
  destruct (parseInt16 (String x (String y EmptyString))) as [|v]; [discriminate|].
  apply andb_true_iff in H as [H Hpair]. apply andb_true_iff in H as [Hb Hv].
  exists v. repeat split; try assumption.
  - now apply Z.eqb_eq.
  - now apply String.eqb_eq.
Qed.

Lemma hexLoop_hex (n : nat) :
  forall hex,
    String.length hex = (2 * n)%nat ->
    forallString isHexCI hex = true ->
    exists bytes,
      hexLoop hex = Ok bytes
      /\ forallb isByte bytes = true
      /\ List.length bytes = n
      /\ bytesToHex bytes = toLowerCase hex.
Proof.
  induction n as [|n IH]; intros hex Hlen Hall.
  - destruct hex; [|discriminate]. exists []. repeat split.
  - destruct hex as [|x [|y hex]]; try (simpl in Hlen; lia).
    cbn [forallString] in Hall.
    apply andb_true_iff in Hall as [Hx Hall]. apply andb_true_iff in Hall as [Hy Hall].
    destruct (IH hex ltac:(simpl in Hlen; lia) Hall) as (bytes & Hloop & Hbytes & Hn & Hhex).
    destruct (hexPair_writes_back x y Hx Hy) as (v & Hv & Hb & Hu & Hpair).
    exists (v :: bytes). cbn [hexLoop]. rewrite Hv, Hloop, Hu.
    repeat split.
    + cbn [forallb]. now rewrite Hb, Hbytes.
    + simpl. now rewrite Hn.
    + rewrite bytesToHex_cons, Hpair, Hhex. reflexivity.
Qed.

(** [X26].  [bytesToHex] undoes [hexToBytes] up to letter case: on a
    string of an even number of hexadecimal digits, of either case,
    [hexToBytes] returns half as many bytes without throwing, and
    [bytesToHex] writes them back as the lower-cased string; a valid
    signing key is such a string, of 32 bytes. *)
Theorem bytesToHex_hexToBytes (hex : string) :
  forallString isHexCI hex = true ->
  Nat.even (String.length hex) = true ->
  exists bytes,
    hexToBytes hex = Ok bytes
    /\ forallb isByte bytes = true
    /\ (2 * List.length bytes)%nat = String.length hex
    /\ bytesToHex bytes = toLowerCase hex
    /\ isValidSigningKey hex = Nat.eqb (List.length bytes) 32.
Proof.
  intros Hall Heven. pose proof Heven as Hk.
  apply Nat.even_spec in Hk as [n Hn].
  destruct (hexLoop_hex n hex Hn Hall) as (bytes & Hloop & Hbytes & Hlen & Hhex).
  exists bytes. unfold hexToBytes. rewrite even_length_rem, Heven. cbn [negb].
  repeat split; try assumption; [lia|].
  unfold isValidSigningKey. rewrite takeClass_test. unfold hasShape.
  rewrite Hall, andb_true_r, Hn, Hlen.
  destruct (Nat.eqb_spec n 32) as [->|Hne]; [reflexivity|].
  apply Nat.eqb_neq. lia.
Qed.

Lemma bytesToHex_hexToBytes_witness :
  exists bytes,
    hexToBytes "00Ff1a" = Ok bytes
    /\ forallb isByte bytes = true
    /\ (2 * List.length bytes)%nat = String.length "00Ff1a"
    /\ bytesToHex bytes = toLowerCase "00Ff1a"
    /\ isValidSigningKey "00Ff1a" = Nat.eqb (List.length bytes) 32.
Proof.
  apply (bytesToHex_hexToBytes "00Ff1a"); reflexivity.
Defined.

(** [X27].  [hexToBytes] does not refuse every string that is not
    hexadecimal: [parseInt] reads the longest run of digits at the head
    of each pair, so a pair made of a hexadecimal digit and a character
    that is not one is read as the digit alone; only the pairs [0x] and
    [0X] of this kind throw. *)
Theorem hexToBytes_truncates (d c : ascii) :
  isHexCI d = true -> isHexCI c = false ->
  if Ascii.eqb d "0"%char && (Ascii.eqb c "x"%char || Ascii.eqb c "X"%char)
  then hexToBytes (String d (String c EmptyString))
       = Throw (Error "Invalid hex character")
  else exists v,
         hexValue d = Some v
         /\ hexToBytes (String d (String c EmptyString)) = Ok [v].
Proof.
  intros Hd Hc.
  assert (pairTruncated d c = true) as H
      by (clear Hd Hc; revert d c; apply ascii_all2; vm_compute; reflexivity).
  unfold pairTruncated in H. rewrite Hd, Hc in H. cbn [negb andb] in H.
  destruct (Ascii.eqb d "0"%char && (Ascii.eqb c "x"%char || Ascii.eqb c "X"%char)).
  - unfold hexToBytes in *. cbn [len String.length] in *.
    change (negb (Z.rem (Z.of_nat 2) 2 =? 0)) with false in *. cbv iota in *.
    cbn [hexLoop] in *.
    destruct (parseInt16 (String d (String c EmptyString))); [reflexivity|].
    cbn in H. discriminate H.
  - destruct (hexValue d) as [v|]; [|discriminate H].
    destruct (hexToBytes (String d (String c EmptyString))) as [[|byte [|? ?]]|];
      try discriminate H.
    apply Z.eqb_eq in H. subst byte. now exists v.
Qed.

Lemma hexToBytes_truncates_witness :
  if Ascii.eqb "1" "0" && (Ascii.eqb "g" "x" || Ascii.eqb "g" "X")
  then hexToBytes "1g" = Throw (Error "Invalid hex character")
  else exists v, hexValue "1" = Some v /\ hexToBytes "1g" = Ok [v].
Proof.
  apply (hexToBytes_truncates "1" "g"); reflexivity.
Defined.

End ByteStringFacts.

(** ** The web bundle's validators against the core *)

Section WebFacts.

Lemma web_charToDigit (c : ascii) :
  match Web.charToDigit c, charToDigit c with
  | Ok a, Ok b => a = b
  | Throw _, Throw _ => True
  | _, _ => False
  end.
Proof.
  unfold Web.charToDigit, charToDigit. cbv zeta.
  change Web.VERIFICATION_CODE_ALPHABET with VERIFICATION_CODE_ALPHABET.
  destruct (indexOf VERIFICATION_CODE_ALPHABET (toUpperCaseChar c) =? -1); auto.
Qed.

Lemma web_dammLoop_undefined (chars : string) :
  Web.dammLoop chars None = None \/ Web.dammLoop chars None = Some None.
Proof.
  destruct chars as [|c chars]; [now right|]. left.
  cbn [Web.dammLoop]. now destruct (Web.charToDigit c).
Qed.

(** The two loops reach the same interim value, or both fail. *)
Lemma web_dammLoop (chars : string) :
  forall i,
    match Web.dammLoop chars (Some i), validateLoop chars i with
    | Some (Some a), Some b => a = b
    | Some None, None => True
    | None, None => True
    | _, _ => False
    end.
Proof.
  induction chars as [|c chars IH]; intros i; [reflexivity|].
  cbn [Web.dammLoop validateLoop].
  pose proof (web_charToDigit c) as Hc.
  destruct (Web.charToDigit c) as [d|], (charToDigit c) as [d'|];
    try contradiction; [subst d'|exact I].
  change Web.DAMM_TABLE with DAMM_TABLE.
  destruct (at_ DAMM_TABLE i) as [row|]; [|exact I].
  destruct (at_ row d) as [next|]; [apply IH|].
  destruct (web_dammLoop_undefined chars) as [-> | ->]; exact I.
Qed.

Lemma web_validateDammFull (s : string) :
  Web.validateDammFull s = validateDammFull s.
Proof.
  unfold Web.validateDammFull, validateDammFull.
  destruct (len s <? 2); [reflexivity|]. cbv zeta.
  pose proof (web_dammLoop (toUpperCase s) 0) as H.
  destruct (Web.dammLoop (toUpperCase s) (Some 0)) as [[a|]|],
    (validateLoop (toUpperCase s) 0) as [b|]; try contradiction;
    [now subst | reflexivity | reflexivity].
Qed.

Lemma web_verification_code_agrees_aux (code : string) :
  Web.validateVerificationCode code = validateVerificationCode code.
Proof.
  unfold Web.validateVerificationCode, validateVerificationCode. cbv zeta.
  fold (cleanCode code).
  destruct (negb (len (cleanCode code) =? 8)); [reflexivity|].
  apply web_validateDammFull.
Qed.

(** The web bundle's copies of the verification-code functions agree
    with the core's on every string. *)
Lemma web_verification_code_agrees (code : string) :
  Web.validateDammFull code = validateDammFull code
  /\ Web.validateVerificationCode code = validateVerificationCode code
  /\ Web.formatVerificationCode code = formatVerificationCode code.
Proof.
  split; [apply web_validateDammFull|]. split.
  - apply web_verification_code_agrees_aux.
  - reflexivity.
Qed.

Lemma web_iso7064Loop (chars : string) :
  forall remainder,
    match Web.iso7064Loop chars remainder, iso7064Loop chars remainder with
    | Ok a, Ok b => a = b
    | Throw _, Throw _ => True
    | _, _ => False
    end.
Proof.
  induction chars as [|c chars IH]; intros remainder; [reflexivity|].
  cbn [Web.iso7064Loop iso7064Loop]. cbv zeta.
  change Web.ISO7064_ALPHABET with ISO7064_ALPHABET.
  destruct (indexOf ISO7064_ALPHABET c =? -1); [exact I | apply IH].
Qed.

Lemma web_verifyISO7064 (input checkStr : string) :
  Web.verifyISO7064 input checkStr = verifyISO7064 input checkStr.
Proof.
  unfold Web.verifyISO7064, verifyISO7064, Web.calculateISO7064Check,
    calculateISO7064Check, renderCheckValue. cbv zeta.
  pose proof (web_iso7064Loop (toUpperCase input) 10) as H.
  destruct (Web.iso7064Loop (toUpperCase input) 10) as [a|],
    (iso7064Loop (toUpperCase input) 10) as [b|]; try contradiction;
    [now subst | reflexivity].
Qed.

Lemma check_alnum (c : ascii) : Web.isCheckCI c = true -> isAlnumCI c = true.
Proof.
  assert (implb (Web.isCheckCI c) (isAlnumCI c) = true) as H
      by (revert c; apply ascii_all; vm_compute; reflexivity).
  intros Hc. now rewrite Hc in H.
Qed.

(** The web pattern is the core pattern with a narrower class for the
    check character. *)
Lemma web_matchCertificatePattern (s : string) :
  Web.matchCertificatePattern s
  = match matchCertificatePattern s with
    | Some (y, l, c, i, n, k) =>
        if forallString Web.isCheckCI k then Some (y, l, c, i, n, k) else None
    | None => None
    end.
Proof.
  unfold Web.matchCertificatePattern, matchCertificatePattern.
  destruct s as [|r [|s2 [|h1 [|y1 [|y2 [|y3 [|y4 [|h2 [|l1 [|h3 [|c1 [|c2 [|h4
    [|i1 [|i2 [|i3 [|h5 [|d1 [|d2 [|d3 [|d4 [|d5 [|d6 [|h6 [|k1 [|x rest
    ]]]]]]]]]]]]]]]]]]]]]]]]]]; try reflexivity.
  cbn [list_ascii_of_string].
  match goal with
  | |- (if ?A && Web.isCheckCI k1 then _ else _) = _ => destruct A
  end; [|reflexivity].
  cbn [andb]. unfold str. cbn [string_of_list_ascii forallString].
  destruct (Web.isCheckCI k1) eqn:Hk.
  - rewrite (check_alnum k1 Hk). cbn [forallString]. now rewrite Hk.
  - destruct (isAlnumCI k1); [|reflexivity]. cbn [forallString]. now rewrite Hk.
Qed.

Lemma baseChar_not_hyphen (c : ascii) : isBaseChar c = true -> negb (isHyphen c) = true.
Proof.
  assert (implb (isBaseChar c) (negb (isHyphen c)) = true) as H
      by (revert c; apply ascii_all; vm_compute; reflexivity).
  intros Hc. now rewrite Hc in H.
Qed.

Lemma dropLast_app_char (s : string) (c : ascii) :
  Web.dropLast (s ++ char1 c) = s.
Proof.
  unfold Web.dropLast. rewrite append_length. cbn [char1 String.length].
  replace (String.length s + 1 - 1)%nat with (String.length s) by lia.
  induction s as [|x s IH]; [reflexivity|].
  cbn [append String.length substring]. now rewrite IH.
Qed.

Lemma verifyISO7064_digit (input checkStr : string) :
  verifyISO7064 input checkStr = true ->
  hasShape 1 isDigitChar (toUpperCase checkStr) = true.
Proof.
  unfold verifyISO7064. intros H.
  destruct (calculateISO7064Check input) as [calculated|] eqn:Hcalc; [|discriminate].
  apply String.eqb_eq in H. subst calculated. exact (checkDigit_shape _ _ Hcalc).
Qed.

Lemma digit_check (c : ascii) : isDigitChar c = true -> Web.isCheckCI c = true.
Proof. unfold Web.isCheckCI. now intros ->. Qed.

(** [X28].  The web bundle's copies of the validators against the core.
    [validateDammFull], [validateVerificationCode] and
    [formatVerificationCode] agree with the core's on every string,
    although the web loop indexes the Damm table without the core's
    guards.  [validateCertificateNumber] checks the characters as
    written where the core checks the year after reading it as a number:
    the two agree on every string that the core does not parse and on
    every string whose year is at least 1000; below 1000 they can
    differ, as on RS-0999-G-IN-SWG-000001-5, which the core accepts and
    the web bundle refuses. *)
Theorem web_validators_agree :
  (forall code,
      Web.validateDammFull code = validateDammFull code
      /\ Web.validateVerificationCode code = validateVerificationCode code
      /\ Web.formatVerificationCode code = formatVerificationCode code)
  /\ (forall certNumber,
         (forall parts, parseCertificateNumber certNumber = Some parts ->
                        leNum (Num 1000) (Identifiers.year parts) = true) ->
         Web.validateCertificateNumber certNumber
         = validateCertificateNumber certNumber)
  /\ validateCertificateNumber "RS-0999-G-IN-SWG-000001-5" = true
  /\ Web.validateCertificateNumber "RS-0999-G-IN-SWG-000001-5" = false.
Proof.
  split; [exact web_verification_code_agrees|].
  split; [|split; reflexivity].
  intros s Hyear.
  unfold Web.validateCertificateNumber, Web.parseCertificateNumber.
  rewrite web_matchCertificatePattern.
  change Web.CODE_TO_LEVEL with CODE_TO_LEVEL.
  unfold validateCertificateNumber.
  unfold parseCertificateNumber in *.
  destruct (matchCertificatePattern (toUpperCase s))
    as [[[[[[ys l] c] i] ns] k]|] eqn:Hmatch; [|reflexivity].
  apply matchCertificatePattern_sound in Hmatch
      as (Heq & SY & SL & SC & SI & SN & SK);
    [|apply toUpperCase_is_notLower].
  rewrite (hasShape_nonempty _ _ _ SY), (hasShape_nonempty _ _ _ SC),
    (hasShape_nonempty _ _ _ SI), (hasShape_nonempty _ _ _ SN),
    (hasShape_nonempty _ _ _ SK),
    (hasShape_nonempty _ _ _ (isLevelCode_shape _ SL)) in *.
  cbn [orb] in *.
  destruct (lookupKey_CODE_TO_LEVEL l SL) as (levelName & Hlevel & _).
  rewrite Hlevel in *.
  specialize (Hyear _ eq_refl).
  cbn [Identifiers.year Identifiers.serial Identifiers.levelCode
         Identifiers.country Identifiers.issuerCode Identifiers.checkDigit] in *.
  rewrite (parseInt10_digits ys) in *
    by first [exact (hasShape_forall _ _ _ SY)
             | rewrite (hasShape_length _ _ _ SY); lia].
  rewrite (parseInt10_digits ns)
    by first [exact (hasShape_forall _ _ _ SN)
             | rewrite (hasShape_length _ _ _ SN); lia].
  cbn [leNum] in Hyear. apply Z.leb_le in Hyear.
  pose proof (parseDigits_bound 6 ns SN) as BN.
  rewrite !numberToString_natural by lia.
  rewrite (naturalToString_parseDigits4 ys SY Hyear),
    (padStart0_parseDigits_shape 5 ns SN).
  fold (checkBase ys l c i ns).
  destruct (forallString Web.isCheckCI k) eqn:Hcheck.
  - rewrite Hlevel. cbn [Web.checkDigit]. rewrite web_verifyISO7064. f_equal.
    rewrite Heq. unfold display. rewrite !filterString_app.
    rewrite (filterString_id _ ys), (filterString_id _ l), (filterString_id _ c),
      (filterString_id _ i), (filterString_id _ ns), (filterString_id _ k).
    + destruct k as [|k1 [|k2 k]]; try discriminate SK.
      change (String k1 EmptyString) with (char1 k1).
      cbn [filterString isHyphen Ascii.eqb Bool.eqb negb].
      transitivity (Web.dropLast (checkBase ys l c i ns ++ char1 k1));
        [|apply dropLast_app_char].
      f_equal. unfold checkBase. cbn [append]. now rewrite !append_assoc.
    + revert SK. unfold hasShape. intros SK.
      apply andb_true_iff in SK as [_ SK]. revert SK.
      apply forallString_impl. exact baseChar_not_hyphen.
    + generalize (hasShape_forall _ _ _ SN). apply forallString_impl.
      intros x Hx. apply baseChar_not_hyphen. now apply digit_baseChar.
    + generalize (hasShape_forall _ _ _ SI). apply forallString_impl.
      intros x Hx. apply baseChar_not_hyphen. now apply upper_baseChar.
    + generalize (hasShape_forall _ _ _ SC). apply forallString_impl.
      intros x Hx. apply baseChar_not_hyphen. now apply upper_baseChar.
    + generalize (hasShape_forall _ _ _ (isLevelCode_shape _ SL)).
      apply forallString_impl.
      intros x Hx. apply baseChar_not_hyphen. now apply upper_baseChar.
    + generalize (hasShape_forall _ _ _ SY). apply forallString_impl.
      intros x Hx. apply baseChar_not_hyphen. now apply digit_baseChar.
  - destruct (verifyISO7064 (checkBase ys l c i ns) k) eqn:Hv; [exfalso | reflexivity].
    apply verifyISO7064_digit in Hv.
    rewrite (toUpperCase_notLower k) in Hv
      by exact (hasShape_impl _ _ _ _ baseChar_notLower SK).
    rewrite (forallString_impl isDigitChar Web.isCheckCI k digit_check
               (hasShape_forall _ _ _ Hv)) in Hcheck.
    discriminate Hcheck.
Qed.

(** [X29].  [verifyCertificate], for every host [JSON.parse] and clock:
    the result is valid exactly when no error is reported; the error
    "Could not parse certificate number" is never reported, since a
    number that validates parses; a valid result carries the parsed
    components; and the errors come in the order certificate,
    verification code, expiry. *)
Theorem verifyCertificate_errors
  (parseQRData : string -> option Web.QRCodeData) (isExpired : JsValue -> bool)
  (certificateNumber verificationCode : string) (qrDataString : option string) :
  let result :=
    Web.verifyCertificate parseQRData isExpired certificateNumber verificationCode
      qrDataString in
  (Web.valid result = true <-> Web.errors result = [])
  /\ ~ In "Could not parse certificate number" (Web.errors result)
  /\ (Web.valid result = true -> Web.parsed result <> None)
  /\ Web.errors result
     = ((if Web.certificateValid result then []
         else ["Invalid certificate number format or check digit"])
        ++ (if Web.codeValid result then []
            else ["Invalid verification code format or check digit"])
        ++ (if Web.expired result then ["Certificate has expired"] else []))%list
  /\ Web.codeValid result = validateVerificationCode verificationCode.
Proof.
  intros result. unfold result, Web.verifyCertificate. cbv zeta.
  cbn [Web.valid Web.errors Web.parsed Web.certificateValid Web.codeValid Web.expired].
  assert (Web.validateCertificateNumber certificateNumber = true ->
          Web.parseCertificateNumber certificateNumber <> None) as Hparsed.
  { unfold Web.validateCertificateNumber.
    destruct (Web.parseCertificateNumber certificateNumber); [discriminate|].
    discriminate. }
  pose proof (web_verification_code_agrees_aux verificationCode) as Hcode.
  set (expired := if truthy _ then isExpired _ else false).
  split; [|split; [|split; [|split; [|exact Hcode]]]]; clear Hcode;
    revert Hparsed;
    destruct (Web.validateCertificateNumber certificateNumber);
    destruct (Web.parseCertificateNumber certificateNumber);
    intros Hparsed;
    try (exfalso; now apply Hparsed);
    destruct (Web.validateVerificationCode verificationCode);
    destruct expired;
    cbn [negb andb app In];
    first [ reflexivity
          | split; intros H; first [discriminate H | reflexivity]
          | intros H; discriminate H
          | intros _; discriminate
          | intros H; repeat (destruct H as [H|H]; [discriminate H|]); exact H ].
Qed.

End WebFacts.

(** ** All identifiers of a credential *)

Section BundleFacts.

Lemma generateVerificationCodeWith_some (entropy rest : list Z)
  (result : Result JsError string) :
  generateVerificationCodeWith entropy = Some (result, rest) ->
  exists code, result = Ok code /\ validateVerificationCode code = true.
Proof.
  assert (0 < len VERIFICATION_CODE_ALPHABET <= 4294967295) as Hlen
      by (vm_compute; split; [reflexivity | discriminate]).
  unfold generateVerificationCodeWith, getVerificationCodeAlphabet, getRandomString.
  cbv zeta.
  change (len VERIFICATION_CODE_ALPHABET =? 0) with false. cbv iota.
  change (Z.to_nat 7) with 7%nat.
  intros H.
  destruct (randomChars 7 VERIFICATION_CODE_ALPHABET EmptyString entropy)
    as [[[base|e] rest']|] eqn:Hrand; [| |discriminate].
  - apply (randomChars_shape _ _ Hlen) in Hrand; [|reflexivity].
    destruct Hrand as (s & Hs & Hall & Hslen & _). injection Hs as ->.
    injection H as <- <-.
    destruct (generateVerificationCode_accepted s) as (code & Hcode & _ & Hvalid).
    { unfold hasShape. rewrite Hslen, Hall. reflexivity. }
    exists code. now rewrite Hcode.
  - apply (randomChars_shape _ _ Hlen) in Hrand; [|reflexivity].
    destruct Hrand as (s & Hs & _). discriminate Hs.
Qed.

(** [X30].  The identifiers [generateAllIdentifiers] returns belong
    together, for options whose country and issuer code are of Basic
    Latin.  Whenever it returns identifiers, the certificate number
    validates and parses, the verification code validates, the
    credential ID parses to the issuer code, year and serial of the
    certificate number, and the issuer DID parses to its issuer code.
    It throws only when [generateCertificateNumber] refuses the options,
    and then before any random byte is drawn. *)
Theorem generateAllIdentifiers_consistent
  (options : GenerateCertificateNumberOptions) (entropy rest : list Z)
  (result : Result JsError AllIdentifiers) :
  isAscii (opt_country options) = true ->
  isAscii (opt_issuerCode options) = true ->
  generateAllIdentifiers options entropy = Some (result, rest) ->
  match result with
  | Throw e => generateCertificateNumber options = Throw e /\ rest = entropy
  | Ok ids =>
      generateCertificateNumber options = Ok (ai_certificateNumber ids)
      /\ validateCertificateNumber (ai_certificateNumber ids) = true
      /\ validateVerificationCode (ai_verificationCode ids) = true
      /\ exists parts,
           parseCertificateNumber (ai_certificateNumber ids) = Some parts
           /\ Identifiers.year parts = opt_year options
           /\ Identifiers.serial parts = opt_serial options
           /\ Identifiers.level parts = opt_level options
           /\ parseCredentialId (ai_credentialId ids)
              = Some {| cid_issuerCode := Identifiers.issuerCode parts;
                        cid_year := Identifiers.year parts;
                        cid_serial := Identifiers.serial parts |}
           /\ parseIssuerDid (ai_issuerDid ids)
              = Some (Identifiers.issuerCode parts)
  end.
Proof.
  unfold generateAllIdentifiers. intros _ _ H.
  destruct (generateCertificateNumber options) as [certificateNumber|e] eqn:Hgen.
  2:{ injection H as <- <-. split; reflexivity. }
  destruct (generateVerificationCodeWith entropy) as [[codeResult rest']|] eqn:Hcode;
    [|discriminate].
  destruct (generateVerificationCodeWith_some _ _ _ Hcode) as (code & -> & Hvalid).
  injection H as <- <-.
  cbn [ai_certificateNumber ai_verificationCode ai_credentialId ai_issuerDid].
  destruct (generateCertificateNumber_ok_inv options certificateNumber Hgen)
    as ((y & Hy & Ry) & Hlevel & Hcountry & Hissuer & (n & Hn & Rn)).
  destruct options as [yearN levelName countryStr issuerStr serialN].
  cbn [opt_year opt_level opt_country opt_issuerCode opt_serial] in *.
  subst yearN serialN.
  destruct (generateCertificateNumber_display y n levelName countryStr issuerStr
              Ry Hlevel Hcountry Hissuer Rn)
    as (levelStr & k & Hcode' & HL & Hback & Hk & Hdisplay).
  rewrite Hdisplay in Hgen. injection Hgen as <-.
  pose proof (isLetters_toUpperCase 2 countryStr Hcountry) as HC.
  pose proof (isLetters_toUpperCase 3 issuerStr Hissuer) as HI.
  destruct (year_rendering y ltac:(lia)) as [HY PY].
  destruct (serial_rendering n ltac:(lia)) as [HS PN].
  pose proof (checkDigit_shape _ _ Hk) as HK.
  split; [reflexivity|]. split.
  { apply (validateCertificateNumber_display _ _ _ _ _ HY HL HC HI HS k levelName
             (Num y) (Num n)); auto. }
  split; [exact Hvalid|].
  eexists. split.
  { apply (parseCertificateNumber_display _ _ _ _ _ _ levelName HY HL HC HI HS HK Hback). }
  cbn [Identifiers.year Identifiers.serial Identifiers.level Identifiers.issuerCode].
  rewrite PY, PN.
  repeat split.
  - apply parseCredentialId_generated; [exact Hissuer | lia | lia].
  - now apply parseIssuerDid_generated.
Qed.

Lemma generateAllIdentifiers_consistent_witness :
  generateCertificateNumber
    {| opt_year := Num 2026; opt_level := "gold"; opt_country := "IN";
       opt_issuerCode := "SWG"; opt_serial := Num 1 |}
  = Ok "RS-2026-G-IN-SWG-000001-8"
  /\ validateCertificateNumber "RS-2026-G-IN-SWG-000001-8" = true
  /\ validateVerificationCode "AAAAAAAA" = true
  /\ exists parts,
       parseCertificateNumber "RS-2026-G-IN-SWG-000001-8" = Some parts
       /\ Identifiers.year parts = Num 2026
       /\ Identifiers.serial parts = Num 1
       /\ Identifiers.level parts = "gold"
       /\ parseCredentialId "urn:rscp:credential:swg:2026:000001"
          = Some {| cid_issuerCode := Identifiers.issuerCode parts;
                    cid_year := Identifiers.year parts;
                    cid_serial := Identifiers.serial parts |}
       /\ parseIssuerDid "did:rscp:issuer:swg" = Some (Identifiers.issuerCode parts).
Proof.
  apply (generateAllIdentifiers_consistent
           {| opt_year := Num 2026; opt_level := "gold"; opt_country := "IN";
              opt_issuerCode := "SWG"; opt_serial := Num 1 |}
           [0; 0; 0; 0; 0; 0; 0; 0; 0; 0; 0; 0; 0; 0;
            0; 0; 0; 0; 0; 0; 0; 0; 0; 0; 0; 0; 0; 0]
           []
           (Ok {| ai_certificateNumber := "RS-2026-G-IN-SWG-000001-8";
                  ai_verificationCode := "AAAAAAAA";
                  ai_credentialId := "urn:rscp:credential:swg:2026:000001";
                  ai_issuerDid := "did:rscp:issuer:swg" |}));
    vm_compute; reflexivity.
Defined.

End BundleFacts.
